(** * Jamaica developer kit: a verification development

    A shallow embedding of the formula and parsing code of the toolkit
    packages [jamaica-addresses], [jamaica-trn], [jamaica-holidays],
    [jamaica-currency], [jamaica-tax] and [jamaica-phone] and of
    [addressing-api/app/parish_lookup.py], followed by the theorems that
    settle the properties stated about them.

    Conventions of the embedding.
    - A Python [str] is a Rocq [string]; a character is its code point in
      0..255 and the character classes ([str.isspace], [\d], [\w],
      [str.lower]) are Python's on that range.
    - A Python [int] is a [Z]; [//] and [%] are [Z.div] and [Z.modulo]
      (both floor for a positive divisor, as in Python).
    - A Python [float] is a binary64 [PrimFloat.float].
    - [Optional[T]] is [option T]; a call that raises is [None] in an
      [option] result that is named as such at its definition.
    - The regular expressions of the source are values of [Re.regex] run by
      a backtracking matcher with Python's priorities (leftmost start,
      greedy repetition, alternatives in order). *)

From Stdlib Require Import ZArith NArith Bool List String Ascii Lia Floats Sorted.
Import ListNotations.

Set Implicit Arguments.

(* ------------------------------------------------------------------ *)
(** ** Python strings *)
(* ------------------------------------------------------------------ *)

Module Py.

Local Open Scope N_scope.

Definition ord (c : ascii) : N := N_of_ascii c.

Definition between (lo hi n : N) : bool := (lo <=? n) && (n <=? hi).

(** [str.isspace] and the regex class [\s]. *)
Definition isspace (c : ascii) : bool :=
  let n := ord c in
  between 9 13 n || between 28 32 n || (n =? 133) || (n =? 160).

(** The regex class [\d]. *)
Definition isdigit (c : ascii) : bool := between 48 57 (ord c).

(** [str.isalnum] on one character. *)
Definition isalnum (c : ascii) : bool :=
  let n := ord c in
  between 48 57 n || between 65 90 n || between 97 122 n
  || (n =? 170) || (n =? 178) || (n =? 179) || (n =? 181) || (n =? 185)
  || (n =? 186) || between 188 190 n || between 192 214 n
  || between 216 246 n || between 248 255 n.

(** The regex class [\w]. *)
Definition isword (c : ascii) : bool := isalnum c || (ord c =? 95).

(** [str.lower] on one character. *)
Definition lower_char (c : ascii) : ascii :=
  let n := ord c in
  if between 65 90 n || between 192 214 n || between 216 222 n
  then ascii_of_N (n + 32) else c.

Local Close Scope N_scope.
Local Open Scope string_scope.

Fixpoint smap (f : ascii -> ascii) (s : string) : string :=
  match s with
  | EmptyString => EmptyString
  | String c s' => String (f c) (smap f s')
  end.

Definition lower (s : string) : string := smap lower_char s.

Fixpoint lstrip (s : string) : string :=
  match s with
  | EmptyString => EmptyString
  | String c s' => if isspace c then lstrip s' else s
  end.

Fixpoint rstrip (s : string) : string :=
  match s with
  | EmptyString => EmptyString
  | String c s' =>
      match rstrip s' with
      | EmptyString => if isspace c then EmptyString else String c EmptyString
      | r => String c r
      end
  end.

(** [s.strip()] *)
Definition strip (s : string) : string := lstrip (rstrip s).

(** [s.split(sep)] for a one-character separator: never the empty list. *)
Fixpoint split (sep : ascii) (s : string) : list string :=
  match s with
  | EmptyString => [EmptyString]
  | String c s' =>
      if Ascii.eqb c sep then EmptyString :: split sep s'
      else match split sep s' with
           | h :: t => String c h :: t
           | [] => [String c EmptyString]
           end
  end.

(** [sep.join(parts)] *)
Fixpoint join (sep : string) (parts : list string) : string :=
  match parts with
  | [] => ""
  | [p] => p
  | p :: rest => p ++ sep ++ join sep rest
  end.

(** [s.startswith(p)] *)
Fixpoint startswith (p s : string) : bool :=
  match p, s with
  | EmptyString, _ => true
  | String a p', String b s' => Ascii.eqb a b && startswith p' s'
  | String _ _, EmptyString => false
  end.

(** [sub in s] *)
Fixpoint contains (sub s : string) : bool :=
  startswith sub s ||
  match s with
  | EmptyString => false
  | String _ s' => contains sub s'
  end.

(** [s.replace(c, "")] for a one-character [c]. *)
Fixpoint remove_char (c : ascii) (s : string) : string :=
  match s with
  | EmptyString => EmptyString
  | String a s' => if Ascii.eqb a c then remove_char c s' else String a (remove_char c s')
  end.

(** [s[:n]] and [s[n:]] for [n >= 0]. *)
Fixpoint take (n : nat) (s : string) : string :=
  match n, s with
  | S n', String c s' => String c (take n' s')
  | _, _ => EmptyString
  end.

Fixpoint drop (n : nat) (s : string) : string :=
  match n, s with
  | S n', String _ s' => drop n' s'
  | _, _ => s
  end.

(** Truthiness of a string and of an optional string. *)
Definition truthy (s : string) : bool :=
  match s with EmptyString => false | _ => true end.

Definition otruthy (o : option string) : bool :=
  match o with Some s => truthy s | None => false end.

Local Open Scope Z_scope.

Definition digit_val (c : ascii) : Z := Z.of_N (ord c) - 48.

(** [int(s)] on a string of decimal digits. *)
Definition int_of_digits (s : string) : Z :=
  fold_left (fun acc c => 10 * acc + digit_val c) (list_ascii_of_string s) 0.

Definition digit_char (d : Z) : ascii := ascii_of_N (Z.to_N (48 + d)).

Fixpoint digits_of_pos (fuel : nat) (n : Z) (acc : string) : string :=
  match fuel with
  | O => acc
  | S f =>
      let '(q, r) := Z.div_eucl n 10 in
      let acc' := String (digit_char r) acc in
      if q =? 0 then acc' else digits_of_pos f q acc'
  end.

(** [str(n)] for a non-negative [n]. *)
Definition str_of_nonneg (n : Z) : string :=
  digits_of_pos (S (Z.to_nat (Z.log2 n))) n "".

(** [str(n)], that is [f"{n}"]. *)
Definition str_of_int (n : Z) : string :=
  if n <? 0 then String "-" (str_of_nonneg (- n)) else str_of_nonneg n.

(** [f"{n:0{w}d}"] for a non-negative [n]. *)
Definition zfill (w : nat) (n : Z) : string :=
  let s := str_of_nonneg n in
  String.concat "" (repeat "0"%string (w - String.length s)) ++ s.

(** [a < b] on characters, that is on code points: the bits are compared
    from the most significant one down. *)
Definition bit_cmp (x y : bool) (rest : comparison) : comparison :=
  match x, y with
  | false, true => Lt
  | true, false => Gt
  | _, _ => rest
  end.

Definition char_cmp (a b : ascii) : comparison :=
  match a, b with
  | Ascii a0 a1 a2 a3 a4 a5 a6 a7, Ascii b0 b1 b2 b3 b4 b5 b6 b7 =>
      bit_cmp a7 b7 (bit_cmp a6 b6 (bit_cmp a5 b5 (bit_cmp a4 b4
        (bit_cmp a3 b3 (bit_cmp a2 b2 (bit_cmp a1 b1 (bit_cmp a0 b0 Eq)))))))
  end.

(** Lexicographic [<] on strings, by code point. *)
Fixpoint str_ltb (a b : string) : bool :=
  match a, b with
  | _, EmptyString => false
  | EmptyString, String _ _ => true
  | String x a', String y b' =>
      match char_cmp x y with
      | Lt => true
      | Gt => false
      | Eq => str_ltb a' b'
      end
  end.

(** The value of a decimal digit, [None] for any other character: the
    digits are the codes 0x30 to 0x39. *)
Definition digit_of (c : ascii) : option Z :=
  match c with
  | Ascii b0 b1 b2 b3 true true false false =>
      let v := Z.b2z b0 + 2 * Z.b2z b1 + 4 * Z.b2z b2 + 8 * Z.b2z b3 in
      if v <=? 9 then Some v else None
  | _ => None
  end.

End Py.

(* ------------------------------------------------------------------ *)
(** ** Exceptions *)
(* ------------------------------------------------------------------ *)

(** A computation that may raise: [None] is a raised exception. *)
Module Err.

Definition bind {A B : Type} (x : option A) (f : A -> option B) : option B :=
  match x with Some a => f a | None => None end.

Module Notations.
Notation "x <- e ;; k" := (bind e (fun x => k))
  (at level 61, e at next level, right associativity).
End Notations.

End Err.

(* ------------------------------------------------------------------ *)
(** ** Python's [re]: the fragment the source uses *)
(* ------------------------------------------------------------------ *)

Module Re.

Inductive regex : Type :=
| Eps                              (* the empty pattern *)
| Lit (c : ascii)                  (* a literal character *)
| Class (p : ascii -> bool)        (* \d, \s, \w, ., [...] *)
| Bnd                              (* \b *)
| Bol                              (* ^ *)
| Eol                              (* $ *)
| Cat (r1 r2 : regex)
| Alt (r1 r2 : regex)              (* r1|r2 *)
| Star (r : regex)                 (* r*, greedy *)
| Grp (i : nat) (r : regex).       (* the i-th capturing group *)

(** Derived forms. *)
Definition Plus (r : regex) : regex := Cat r (Star r).
Definition Opt (r : regex) : regex := Alt r Eps.

Fixpoint Str (s : string) : regex :=
  match s with
  | EmptyString => Eps
  | String c EmptyString => Lit c
  | String c s' => Cat (Lit c) (Str s')
  end.

(** [r{n}] *)
Fixpoint Times (n : nat) (r : regex) : regex :=
  match n with
  | O => Eps
  | S O => r
  | S n' => Cat r (Times n' r)
  end.

(** [a1|a2|...|an] *)
Fixpoint Alts (rs : list regex) : regex :=
  match rs with
  | [] => Eps
  | [r] => r
  | r :: rs' => Alt r (Alts rs')
  end.

(** [.] : any character but a newline. *)
Definition dot (c : ascii) : bool := negb (Ascii.eqb c "010"%char).

Definition captures := list (nat * string).

Fixpoint group (i : nat) (g : captures) : option string :=
  match g with
  | [] => None
  | (j, s) :: g' => if Nat.eqb i j then Some s else group i g'
  end.

(** A position in the subject: the character before it (None at the start)
    and the text from it on. *)
Definition cont (A : Type) := option ascii -> string -> captures -> option A.

Definition word_at (o : option ascii) : bool :=
  match o with Some c => Py.isword c | None => false end.

Definition head (s : string) : option ascii :=
  match s with EmptyString => None | String c _ => Some c end.

(** Does the pattern character [c] match the subject character [a]?
    Under IGNORECASE both are compared in lower case. *)
Definition lit_eqb (ic : bool) (c a : ascii) : bool :=
  if ic then Ascii.eqb (Py.lower_char c) (Py.lower_char a) else Ascii.eqb c a.

(** The backtracking matcher, in continuation-passing style: [k] is what
    remains to be matched after [r], and a [None] from it makes [r] try its
    next way of matching. *)
Fixpoint run (A : Type) (ic : bool) (r : regex)
         (prev : option ascii) (s : string) (g : captures) (k : cont A)
  : option A :=
  match r with
  | Eps => k prev s g
  | Lit c =>
      match s with
      | String a s' => if lit_eqb ic c a then k (Some a) s' g else None
      | EmptyString => None
      end
  | Class p =>
      match s with
      | String a s' => if p a then k (Some a) s' g else None
      | EmptyString => None
      end
  | Bnd => if xorb (word_at prev) (word_at (head s)) then k prev s g else None
  | Bol => match prev with None => k prev s g | Some _ => None end
  | Eol =>
      match s with
      | EmptyString => k prev s g
      | String a EmptyString => if Ascii.eqb a "010"%char then k prev s g else None
      | _ => None
      end
  | Cat r1 r2 => run ic r1 prev s g (fun p' s' g' => run ic r2 p' s' g' k)
  | Alt r1 r2 =>
      match run ic r1 prev s g k with
      | Some x => Some x
      | None => run ic r2 prev s g k
      end
  | Star r1 =>
      (fix loop (n : nat) (p : option ascii) (s : string) (g : captures) : option A :=
         match n with
         | O => k p s g
         | S n' =>
             match run ic r1 p s g
                       (fun p' s' g' =>
                          if Nat.ltb (String.length s') (String.length s)
                          then loop n' p' s' g' else None) with
             | Some x => Some x
             | None => k p s g
             end
         end) (String.length s) prev s g
  | Grp i r1 =>
      run ic r1 prev s g
          (fun p' s' g' =>
             k p' s' ((i, Py.take (String.length s - String.length s') s) :: g'))
  end.

(** What a successful match leaves: the text after it and the groups. *)
Record matched := { after_prev : option ascii; after : string; groups : captures }.

Definition finish : cont matched :=
  fun p s g => Some {| after_prev := p; after := s; groups := g |}.

(** [pattern.match(s)] *)
Definition rmatch (ic : bool) (r : regex) (s : string) : option matched :=
  run ic r None s [] finish.

(** [pattern.search(s)], scanning the start positions from the left. *)
Fixpoint search_from (ic : bool) (r : regex) (prev : option ascii) (s : string)
  : option matched :=
  match run ic r prev s [] finish with
  | Some m => Some m
  | None =>
      match s with
      | EmptyString => None
      | String a s' => search_from ic r (Some a) s'
      end
  end.

Definition search (ic : bool) (r : regex) (s : string) : option matched :=
  search_from ic r None s.

(** [re.sub(pattern, repl, s)] for a constant [repl] and a pattern that
    matches no empty string. *)
Fixpoint sub_from (fuel : nat) (ic : bool) (r : regex) (repl : string)
         (prev : option ascii) (s : string) : string :=
  match fuel with
  | O => s
  | S f =>
      match run ic r prev s [] finish, s with
      | Some m, _ =>
          if Nat.ltb (String.length (after m)) (String.length s)
          then (repl ++ sub_from f ic r repl (after_prev m) (after m))%string
          else s
      | None, EmptyString => EmptyString
      | None, String a s' => String a (sub_from f ic r repl (Some a) s')
      end
  end.

Definition sub (ic : bool) (r : regex) (repl s : string) : string :=
  sub_from (S (String.length s)) ic r repl None s.

End Re.

(* ------------------------------------------------------------------ *)
(** ** jamaica-addresses *)
(* ------------------------------------------------------------------ *)

Module Addresses.

Import Re.
Local Open Scope string_scope.
Local Open Scope Z_scope.

(** [KINGSTON_SECTORS = tuple(range(1, 21))] *)
Definition KINGSTON_SECTORS : list Z := map Z.of_nat (seq 1 20).

Definition PARISH_NAMES : list string :=
  [ "Kingston"; "St. Andrew"; "St. Catherine"; "Clarendon"; "Manchester";
    "St. Elizabeth"; "Westmoreland"; "Hanover"; "St. James"; "Trelawny";
    "St. Ann"; "St. Mary"; "Portland"; "St. Thomas" ].

(** The dict literal, in insertion order (the order [.items()] yields). *)
Definition PARISH_ALIASES : list (string * string) :=
  [ ("kgn", "Kingston"); ("kng", "Kingston"); ("kingston", "Kingston");
    ("st andrew", "St. Andrew"); ("saint andrew", "St. Andrew");
    ("st. andrew", "St. Andrew");
    ("st catherine", "St. Catherine"); ("saint catherine", "St. Catherine");
    ("st. catherine", "St. Catherine");
    ("clarendon", "Clarendon");
    ("manchester", "Manchester");
    ("st elizabeth", "St. Elizabeth"); ("saint elizabeth", "St. Elizabeth");
    ("st. elizabeth", "St. Elizabeth");
    ("westmoreland", "Westmoreland");
    ("hanover", "Hanover");
    ("st james", "St. James"); ("saint james", "St. James");
    ("st. james", "St. James"); ("mobay", "St. James"); ("mo bay", "St. James");
    ("trelawny", "Trelawny");
    ("st ann", "St. Ann"); ("saint ann", "St. Ann"); ("st. ann", "St. Ann");
    ("ochi", "St. Ann");
    ("st mary", "St. Mary"); ("saint mary", "St. Mary"); ("st. mary", "St. Mary");
    ("portland", "Portland");
    ("st thomas", "St. Thomas"); ("saint thomas", "St. Thomas");
    ("st. thomas", "St. Thomas");
    ("sav", "Westmoreland"); ("savanna-la-mar", "Westmoreland") ].

(** [d.get(k)] on a dict given by its items (the keys are distinct). *)
Fixpoint dict_get (k : string) (d : list (string * string)) : option string :=
  match d with
  | [] => None
  | (k', v) :: d' => if String.eqb k k' then Some v else dict_get k d'
  end.

Record ParsedAddress : Type := {
  raw : string;
  street_number : option string;
  street_name : option string;
  unit : option string;
  community : option string;
  district : option string;
  parish : option string;
  kingston_sector : option Z
}.

Record NormalizedAddress : Type := {
  line1 : string;
  n_parish : string;
  line2 : option string;
  n_kingston_sector : option Z;
  formatted : string
}.

(** [{p.lower() for p in PARISH_NAMES}] *)
Definition _PARISH_LOWER_SET : list string := map Py.lower PARISH_NAMES.

(** [{p.lower(): p for p in PARISH_NAMES}] *)
Definition _PARISH_LOWER_MAP : list (string * string) :=
  map (fun p => (Py.lower p, p)) PARISH_NAMES.

Definition in_set (x : string) (l : list string) : bool :=
  existsb (String.eqb x) l.

(** [\bKingston\s*(\d{1,2})\b], IGNORECASE *)
Definition _KINGSTON_SECTOR_RE : regex :=
  Cat Bnd
      (Cat (Str "Kingston")
           (Cat (Star (Class Py.isspace))
                (Cat (Grp 1 (Cat (Class Py.isdigit) (Opt (Class Py.isdigit))))
                     Bnd))).

Definition hyphen_or_word (c : ascii) : bool :=
  Py.isword c || Ascii.eqb c "-"%char.

Definition ascii_letter (c : ascii) : bool :=
  (Py.between 65 90 (Py.ord c) || Py.between 97 122 (Py.ord c))%N.

(** [^(Lot|Shop|Suite|Apt|Apartment|Unit|Floor|Flat)\s+[\w-]+], IGNORECASE *)
Definition _UNIT_RE : regex :=
  Cat Bol
      (Cat (Grp 1 (Alts (map Str ["Lot"; "Shop"; "Suite"; "Apt"; "Apartment";
                                  "Unit"; "Floor"; "Flat"])))
           (Cat (Plus (Class Py.isspace)) (Plus (Class hyphen_or_word)))).

(** [^District\s+of\s+(.+)], IGNORECASE *)
Definition _DISTRICT_RE : regex :=
  Cat Bol
      (Cat (Str "District")
           (Cat (Plus (Class Py.isspace))
                (Cat (Str "of")
                     (Cat (Plus (Class Py.isspace)) (Grp 1 (Plus (Class dot))))))).

(** [^(\d+[A-Za-z]?)\s+(.+)] *)
Definition _STREET_NUMBER_RE : regex :=
  Cat Bol
      (Cat (Grp 1 (Cat (Plus (Class Py.isdigit)) (Opt (Class ascii_letter))))
           (Cat (Plus (Class Py.isspace)) (Grp 2 (Plus (Class dot))))).

(** [\b(Saint|St)\s+], IGNORECASE *)
Definition _SAINT_RE : regex :=
  Cat Bnd (Cat (Grp 1 (Alt (Str "Saint") (Str "St"))) (Plus (Class Py.isspace))).

Definition _normalize_saint_prefix (text : string) : string :=
  Re.sub true _SAINT_RE "St. " text.

Definition _resolve_parish (text : string) : option string :=
  let trimmed := Py.strip text in
  let normalized := _normalize_saint_prefix trimmed in
  let lower := Py.lower normalized in
  if in_set lower _PARISH_LOWER_SET then dict_get lower _PARISH_LOWER_MAP
  else
    match dict_get (Py.lower trimmed) PARISH_ALIASES with
    | Some alias => if Py.truthy alias then Some alias else None
    | None => None
    end.

(** [re.escape(text)] makes every character of [text] a literal. *)
Definition _escape_regex (text : string) : regex := Str text.

Definition group_or_empty (i : nat) (m : matched) : string :=
  match group i (groups m) with Some s => s | None => "" end.

Definition empty_address (raw : string) : ParsedAddress :=
  {| raw := raw; street_number := None; street_name := None; unit := None;
     community := None; district := None; parish := None;
     kingston_sector := None |}.

Definition set_parish (v : string) (r : ParsedAddress) : ParsedAddress :=
  {| raw := raw r; street_number := street_number r; street_name := street_name r;
     unit := unit r; community := community r; district := district r;
     parish := Some v; kingston_sector := kingston_sector r |}.

Definition set_kingston_sector (v : Z) (r : ParsedAddress) : ParsedAddress :=
  {| raw := raw r; street_number := street_number r; street_name := street_name r;
     unit := unit r; community := community r; district := district r;
     parish := parish r; kingston_sector := Some v |}.

Definition set_district (v : string) (r : ParsedAddress) : ParsedAddress :=
  {| raw := raw r; street_number := street_number r; street_name := street_name r;
     unit := unit r; community := community r; district := Some v;
     parish := parish r; kingston_sector := kingston_sector r |}.

Definition set_unit (v : string) (r : ParsedAddress) : ParsedAddress :=
  {| raw := raw r; street_number := street_number r; street_name := street_name r;
     unit := Some v; community := community r; district := district r;
     parish := parish r; kingston_sector := kingston_sector r |}.

Definition set_street_number (v : string) (r : ParsedAddress) : ParsedAddress :=
  {| raw := raw r; street_number := Some v; street_name := street_name r;
     unit := unit r; community := community r; district := district r;
     parish := parish r; kingston_sector := kingston_sector r |}.

Definition set_street_name (v : string) (r : ParsedAddress) : ParsedAddress :=
  {| raw := raw r; street_number := street_number r; street_name := Some v;
     unit := unit r; community := community r; district := district r;
     parish := parish r; kingston_sector := kingston_sector r |}.

Definition set_community (v : string) (r : ParsedAddress) : ParsedAddress :=
  {| raw := raw r; street_number := street_number r; street_name := street_name r;
     unit := unit r; community := Some v; district := district r;
     parish := parish r; kingston_sector := kingston_sector r |}.

(** Pass 1 of [parse_address]: the loop [for i in range(len(segments) - 1,
    -1, -1)] over the segments not yet visited, last first; [rsegs] is that
    reversed prefix, so the index of its head is the length of its tail.
    The result is the record and [parish_idx]. *)
Fixpoint parse_pass1 (rsegs : list string) (result : ParsedAddress)
  : ParsedAddress * Z :=
  match rsegs with
  | [] => (result, -1)
  | seg :: rest =>
      match Re.search true _KINGSTON_SECTOR_RE seg with
      | Some k_match =>
          let sector := Py.int_of_digits (group_or_empty 1 k_match) in
          let result :=
            if (1 <=? sector) && (sector <=? 20)
            then set_kingston_sector sector result else result in
          (set_parish "Kingston" result, Z.of_nat (List.length rest))
      | None =>
          match _resolve_parish seg with
          | Some resolved =>
              if Py.truthy resolved
              then (set_parish resolved result, Z.of_nat (List.length rest))
              else parse_pass1 rest result
          | None => parse_pass1 rest result
          end
      end
  end.

(** Pass 2 of [parse_address], on the segments before the parish segment. *)
Definition parse_pass2 (remaining : list string) (result : ParsedAddress)
  : ParsedAddress :=
  match remaining with
  | [] => result
  | first :: _ =>
      (* district pattern on the first segment *)
      let '(result, remaining) :=
        match Re.rmatch true _DISTRICT_RE first with
        | Some d_match =>
            (set_district (Py.strip (group_or_empty 1 d_match)) result, tl remaining)
        | None => (result, remaining)
        end in
      (* unit prefix *)
      let '(result, remaining) :=
        match remaining with
        | seg :: rest =>
            match Re.rmatch true _UNIT_RE seg with
            | Some _ => (set_unit seg result, rest)
            | None => (result, remaining)
            end
        | [] => (result, remaining)
        end in
      (* street number and street name *)
      let '(result, remaining) :=
        match remaining with
        | seg :: rest =>
            match Re.rmatch false _STREET_NUMBER_RE seg with
            | Some n_match =>
                (set_street_name (Py.strip (group_or_empty 2 n_match))
                   (set_street_number (group_or_empty 1 n_match) result), rest)
            | None => (result, remaining)
            end
        | [] => (result, remaining)
        end in
      (* what is left becomes community / street name *)
      match remaining with
      | [] => result
      | [c] => set_community c result
      | [s; c] =>
          let result :=
            if negb (Py.otruthy (street_name result))
            then set_street_name s result else result in
          set_community c result
      | _ =>
          let result :=
            if negb (Py.otruthy (street_name result))
            then set_street_name (Py.join ", " (removelast remaining)) result
            else result in
          set_community (last remaining "") result
      end
  end.

Definition parse_address (raw : string) : ParsedAddress :=
  let result := empty_address raw in
  let trimmed := Py.strip raw in
  if negb (Py.truthy trimmed) then result
  else
    let segments := map Py.strip (Py.split "," trimmed) in
    let '(result, parish_idx) := parse_pass1 (rev segments) result in
    let remaining :=
      if 0 <=? parish_idx then firstn (Z.to_nat parish_idx) segments
      else segments in
    parse_pass2 remaining result.

Definition sector_truthy (o : option Z) : bool :=
  match o with Some n => negb (n =? 0) | None => false end.

Definition opt_str (o : option string) : string :=
  match o with Some s => s | None => "None" end.

(** [parts.append(p)] *)
Definition append (parts : list string) (p : string) : list string :=
  (parts ++ [p])%list.

Definition normalize_address (parsed : ParsedAddress) : string :=
  let parts : list string := [] in
  let parts :=
    if Py.otruthy (unit parsed) then append parts (opt_str (unit parsed)) else parts in
  let parts :=
    if Py.otruthy (street_number parsed) && Py.otruthy (street_name parsed)
    then append parts (opt_str (street_number parsed) ++ " " ++ opt_str (street_name parsed))
    else if Py.otruthy (street_name parsed)
         then append parts (opt_str (street_name parsed)) else parts in
  let parts :=
    if Py.otruthy (community parsed)
    then append parts (opt_str (community parsed)) else parts in
  let parts :=
    if Py.otruthy (district parsed)
    then append parts ("District of " ++ opt_str (district parsed)) else parts in
  let parts :=
    if Py.otruthy (parish parsed)
    then
      if sector_truthy (kingston_sector parsed)
      then append parts (opt_str (parish parsed) ++ " "
                         ++ match kingston_sector parsed with
                            | Some n => Py.str_of_int n | None => "None" end)
      else append parts (opt_str (parish parsed))
    else parts in
  Py.join ", " parts.

(** The fallback scans of [extract_parish]. *)
Fixpoint first_name_in (names : list string) (lower_addr : string) : option string :=
  match names with
  | [] => None
  | name :: rest =>
      if Py.contains (Py.lower name) lower_addr then Some name
      else first_name_in rest lower_addr
  end.

Fixpoint first_short_alias (items : list (string * string)) (trimmed : string)
  : option string :=
  match items with
  | [] => None
  | (alias, canonical) :: rest =>
      if (String.length alias <=? 5)%nat
      then
        let pattern := Cat Bnd (Cat (_escape_regex alias) Bnd) in
        match Re.search true pattern trimmed with
        | Some _ => Some canonical
        | None => first_short_alias rest trimmed
        end
      else first_short_alias rest trimmed
  end.

Fixpoint first_resolved (segs : list string) : option string :=
  match segs with
  | [] => None
  | seg :: rest =>
      match _resolve_parish seg with
      | Some resolved => if Py.truthy resolved then Some resolved else first_resolved rest
      | None => first_resolved rest
      end
  end.

Definition extract_parish (address : string) : option string :=
  let trimmed := Py.strip address in
  if negb (Py.truthy trimmed) then None
  else
    match Re.search true _KINGSTON_SECTOR_RE trimmed with
    | Some _ => Some "Kingston"
    | None =>
        let segments := map Py.strip (Py.split "," trimmed) in
        match first_resolved (rev segments) with
        | Some resolved => Some resolved
        | None =>
            let lower_addr := Py.lower trimmed in
            match first_name_in PARISH_NAMES lower_addr with
            | Some name => Some name
            | None => first_short_alias PARISH_ALIASES trimmed
            end
        end
    end.

Definition is_kingston_address (address : string) : bool :=
  match extract_parish address with
  | Some p => String.eqb p "Kingston" || String.eqb p "St. Andrew"
  | None => false
  end.

Definition get_kingston_sector (address : string) : option Z :=
  match Re.search true _KINGSTON_SECTOR_RE address with
  | None => None
  | Some m =>
      let sector := Py.int_of_digits (group_or_empty 1 m) in
      if (sector <? 1) || (sector >? 20) then None else Some sector
  end.

Definition format_address (parsed : ParsedAddress) : string :=
  normalize_address parsed.

Definition list_truthy (parts : list string) : bool :=
  match parts with [] => false | _ => true end.

Definition to_normalized_address (parsed : ParsedAddress) : NormalizedAddress :=
  let parts1 : list string := [] in
  let parts1 :=
    if Py.otruthy (unit parsed) then append parts1 (opt_str (unit parsed))
    else parts1 in
  let parts1 :=
    if Py.otruthy (street_number parsed) && Py.otruthy (street_name parsed)
    then append parts1 (opt_str (street_number parsed) ++ " "
                        ++ opt_str (street_name parsed))
    else if Py.otruthy (street_name parsed)
         then append parts1 (opt_str (street_name parsed)) else parts1 in
  let line1 :=
    if list_truthy parts1 then Py.join ", " parts1
    else if Py.otruthy (community parsed) then opt_str (community parsed)
         else raw parsed in
  let parts2 : list string := [] in
  let parts2 :=
    if list_truthy parts1 && Py.otruthy (community parsed)
    then append parts2 (opt_str (community parsed)) else parts2 in
  let parts2 :=
    if Py.otruthy (district parsed)
    then append parts2 ("District of " ++ opt_str (district parsed)) else parts2 in
  let line2 := if list_truthy parts2 then Some (Py.join ", " parts2) else None in
  let parish := if Py.otruthy (parish parsed) then opt_str (parish parsed)
                else "Unknown" in
  let formatted := normalize_address parsed in
  {| line1 := line1; n_parish := parish; line2 := line2;
     n_kingston_sector := kingston_sector parsed; formatted := formatted |}.

End Addresses.

(* ------------------------------------------------------------------ *)
(** ** jamaica-trn *)
(* ------------------------------------------------------------------ *)

Module Trn.

Import Re.
Local Open Scope string_scope.
Local Open Scope Z_scope.

Definition _WEIGHTS : list Z := [3; 7; 1; 3; 7; 1; 3; 7].

(** [^\d{9}$] *)
Definition _RAW_PATTERN : regex := Cat Bol (Cat (Times 9 (Class Py.isdigit)) Eol).

(** [^\d{8}$] *)
Definition _EIGHT_DIGITS : regex := Cat Bol (Cat (Times 8 (Class Py.isdigit)) Eol).

Definition unformat_trn (trn : string) : string :=
  Py.remove_char "-" (Py.strip trn).

(** [None] stands for the [ValueError] the source raises. *)
Definition format_trn (trn : string) : option string :=
  let raw := unformat_trn trn in
  match Re.rmatch false _RAW_PATTERN raw with
  | None => None
  | Some _ =>
      Some (Py.take 3 raw ++ "-" ++ Py.take 3 (Py.drop 3 raw) ++ "-"
            ++ Py.take 3 (Py.drop 6 raw))%string
  end.

(** [sum(int(d) * w for d, w in zip(digits, _WEIGHTS))] *)
Definition weighted_sum (digits : string) : Z :=
  fold_left Z.add
            (map (fun dw => Py.digit_val (fst dw) * snd dw)
                 (combine (list_ascii_of_string digits) _WEIGHTS)) 0.

Definition get_trn_check_digit (digits : string) : option Z :=
  match Re.rmatch false _EIGHT_DIGITS digits with
  | None => None
  | Some _ =>
      let total := weighted_sum digits in
      let remainder := total mod 11 in
      let check := if remainder =? 0 then 0 else 11 - remainder in
      if check =? 10 then None else Some check
  end.

Definition is_valid_trn (trn : string) : bool :=
  let raw := unformat_trn trn in
  match Re.rmatch false _RAW_PATTERN raw with
  | None => false
  | Some _ =>
      let prefix := Py.take 8 raw in
      let provided := Py.int_of_digits (Py.take 1 (Py.drop 8 raw)) in
      match get_trn_check_digit prefix with
      | Some expected => provided =? expected
      | None => false
      end
  end.

(** The random generator is the list of the values its next calls of
    [random.randint(0, 9)] return; a call takes the head and leaves the
    tail. *)
Definition rng := list Z.

Fixpoint draw_digits (n : nat) (g : rng) : option (string * rng) :=
  match n with
  | O => Some ("", g)
  | S n' =>
      match g with
      | [] => None
      | d :: g' =>
          match draw_digits n' g' with
          | Some (s, g'') => Some ((Py.str_of_int d ++ s)%string, g'')
          | None => None
          end
      end
  end.

(** The loop [while check is None], one prefix of 8 draws per round; [None]
    when the generator has no more draws to give. *)
Fixpoint generate_loop (fuel : nat) (g : rng) : option (string * rng) :=
  match fuel with
  | O => None
  | S f =>
      match draw_digits 8 g with
      | None => None
      | Some (prefix, g') =>
          match get_trn_check_digit prefix with
          | Some check => Some ((prefix ++ Py.str_of_int check)%string, g')
          | None => generate_loop f g'
          end
      end
  end.

Definition generate_test_trn (g : rng) : option (string * rng) :=
  generate_loop (S (List.length g)) g.

End Trn.

(* ------------------------------------------------------------------ *)
(** ** Python's [datetime.date] *)
(* ------------------------------------------------------------------ *)

Module Datetime.

Local Open Scope string_scope.
Local Open Scope Z_scope.

Record date : Type := mkdate { year : Z; month : Z; day : Z }.

Definition MINYEAR : Z := 1.
Definition MAXYEAR : Z := 9999.
Definition _MAXORDINAL : Z := 3652059.

(** [year % 4 == 0 and (year % 100 != 0 or year % 400 == 0)], with the
    short circuits of [and] and [or]. *)
Definition _is_leap (y : Z) : bool :=
  if y mod 4 =? 0
  then (if y mod 100 =? 0 then y mod 400 =? 0 else true)
  else false.

Definition _DAYS_IN_MONTH : list Z :=
  [-1; 31; 28; 31; 30; 31; 30; 31; 31; 30; 31; 30; 31].

Definition _DAYS_BEFORE_MONTH : list Z :=
  [-1; 0; 31; 59; 90; 120; 151; 181; 212; 243; 273; 304; 334].

Definition index (l : list Z) (i : Z) : Z := nth (Z.to_nat i) l 0.

Definition _days_before_year (y : Z) : Z :=
  let y := y - 1 in y * 365 + y / 4 - y / 100 + y / 400.

Definition _days_in_month (y m : Z) : Z :=
  if (if m =? 2 then _is_leap y else false) then 29 else index _DAYS_IN_MONTH m.

Definition _days_before_month (y m : Z) : Z :=
  index _DAYS_BEFORE_MONTH m + (if (if m >? 2 then _is_leap y else false) then 1 else 0).

Definition _ymd2ord (y m d : Z) : Z :=
  _days_before_year y + _days_before_month y m + d.

Definition _DI400Y : Z := Eval cbv in _days_before_year 401.
Definition _DI100Y : Z := Eval cbv in _days_before_year 101.
Definition _DI4Y : Z := Eval cbv in _days_before_year 5.

(** [divmod] is [Z.div_eucl]. *)
Definition _ord2ymd (n : Z) : date :=
  let n := n - 1 in
  let '(n400, n) := Z.div_eucl n _DI400Y in
  let year := n400 * 400 + 1 in
  let '(n100, n) := Z.div_eucl n _DI100Y in
  let '(n4, n) := Z.div_eucl n _DI4Y in
  let '(n1, n) := Z.div_eucl n 365 in
  let year := year + n100 * 100 + n4 * 4 + n1 in
  if (n1 =? 4) || (n100 =? 4) then mkdate (year - 1) 12 31
  else
    let leapyear := (n1 =? 3) && (negb (n4 =? 24) || (n100 =? 3)) in
    let month := Z.shiftr (n + 50) 5 in
    let preceding :=
      index _DAYS_BEFORE_MONTH month + (if (month >? 2) && leapyear then 1 else 0) in
    let '(month, preceding) :=
      if preceding >? n
      then (month - 1,
            preceding - (index _DAYS_IN_MONTH (month - 1)
                         + (if (month - 1 =? 2) && leapyear then 1 else 0)))
      else (month, preceding) in
    mkdate year month (n - preceding + 1).

(** [date(year, month, day)]; [None] stands for its [ValueError]. *)
Definition new (y m d : Z) : option date :=
  if (MINYEAR <=? y) && (y <=? MAXYEAR) && (1 <=? m) && (m <=? 12)
     && (1 <=? d) && (d <=? _days_in_month y m)
  then Some (mkdate y m d) else None.

Definition toordinal (d : date) : Z := _ymd2ord (year d) (month d) (day d).

(** Monday is 0 and Sunday is 6. *)
Definition weekday (d : date) : Z := (toordinal d + 6) mod 7.

(** [d + timedelta(days=n)]; [None] stands for its [OverflowError]. *)
Definition add_days (d : date) (n : Z) : option date :=
  let o := toordinal d + n in
  if (0 <? o) && (o <=? _MAXORDINAL) then Some (_ord2ymd o) else None.

(** [d.isoformat()], that is ["%04d-%02d-%02d"]. *)
Definition isoformat (d : date) : string :=
  Py.zfill 4 (year d) ++ "-" ++ Py.zfill 2 (month d) ++ "-" ++ Py.zfill 2 (day d).

(** [date.fromisoformat(s)] on the extended form [YYYY-MM-DD], the one this
    package writes; [None] stands for its [ValueError]. *)
Definition fromisoformat (s : string) : option date :=
  match list_ascii_of_string s with
  | [y1; y2; y3; y4; "-"%char; m1; m2; "-"%char; d1; d2] =>
      match Py.digit_of y1, Py.digit_of y2, Py.digit_of y3, Py.digit_of y4,
            Py.digit_of m1, Py.digit_of m2, Py.digit_of d1, Py.digit_of d2 with
      | Some y1, Some y2, Some y3, Some y4, Some m1, Some m2, Some d1, Some d2 =>
          new (1000 * y1 + 100 * y2 + 10 * y3 + y4) (10 * m1 + m2) (10 * d1 + d2)
      | _, _, _, _, _, _, _, _ => None
      end
  | _ => None
  end.

(** [a < b] on dates: the comparison of [(year, month, day)]. *)
Definition ltb (a b : date) : bool :=
  (year a <? year b)
  || ((year a =? year b)
      && ((month a <? month b) || ((month a =? month b) && (day a <? day b)))).

(** [a == b] on dates. *)
Definition eqb (a b : date) : bool :=
  (year a =? year b) && (month a =? month b) && (day a =? day b).

End Datetime.

(* ------------------------------------------------------------------ *)
(** ** jamaica-holidays *)
(* ------------------------------------------------------------------ *)

Module Holidays.

Import Datetime.
Local Open Scope string_scope.
Local Open Scope Z_scope.

Record Holiday : Type := mkHoliday {
  date : string;
  name : string;
  moveable : bool;
  note : option string
}.

Import Err Err.Notations.

Definition _compute_easter_sunday (year : Z) : option Datetime.date :=
  let a := year mod 19 in
  let b := year / 100 in
  let c := year mod 100 in
  let d := b / 4 in
  let e := b mod 4 in
  let f := (b + 8) / 25 in
  let g := (b - f + 1) / 3 in
  let h := (19 * a + b - d - g + 15) mod 30 in
  let i := c / 4 in
  let k := c mod 4 in
  let l := (32 + 2 * e + 2 * i - h - k) mod 7 in
  let m := (a + 11 * h + 22 * l) / 451 in
  let month := (h + l - 7 * m + 114) / 31 in
  let day := ((h + l - 7 * m + 114) mod 31) + 1 in
  Datetime.new year month day.

Definition _nth_weekday (year month weekday n : Z) : option Datetime.date :=
  first <- Datetime.new year month 1 ;;
  let day := 1 + ((weekday - Datetime.weekday first) mod 7) in
  let day := day + (n - 1) * 7 in
  Datetime.new year month day.

Definition _fmt (d : Datetime.date) : string := Datetime.isoformat d.

Definition _parse (s : string) : option Datetime.date := Datetime.fromisoformat s.

Definition _fixed_holidays (year : Z) : list Holiday :=
  let y := Py.str_of_int year in
  [ mkHoliday (y ++ "-01-01") "New Year's Day" false None;
    mkHoliday (y ++ "-05-23") "Labour Day" false None;
    mkHoliday (y ++ "-08-01") "Emancipation Day" false None;
    mkHoliday (y ++ "-08-06") "Independence Day" false None;
    mkHoliday (y ++ "-12-25") "Christmas Day" false None;
    mkHoliday (y ++ "-12-26") "Boxing Day" false None ].

Definition _moveable_holidays (year : Z) : option (list Holiday) :=
  easter <- _compute_easter_sunday year ;;
  ash_wednesday <- Datetime.add_days easter (-46) ;;
  good_friday <- Datetime.add_days easter (-2) ;;
  easter_monday <- Datetime.add_days easter 1 ;;
  heroes_day <- _nth_weekday year 10 0 3 ;;
  Some [ mkHoliday (_fmt ash_wednesday) "Ash Wednesday" true None;
         mkHoliday (_fmt good_friday) "Good Friday" true None;
         mkHoliday (_fmt easter_monday) "Easter Monday" true None;
         mkHoliday (_fmt heroes_day) "National Heroes Day" true
                   (Some "Third Monday of October") ].

(** [sorted(holidays, key=lambda h: h.date)]: a stable sort on the date
    strings. *)
Fixpoint insert_by_date (h : Holiday) (l : list Holiday) : list Holiday :=
  match l with
  | [] => [h]
  | x :: l' =>
      if Py.str_ltb (date h) (date x) then h :: l
      else x :: insert_by_date h l'
  end.

Definition sorted_by_date (l : list Holiday) : list Holiday :=
  fold_left (fun acc h => insert_by_date h acc) l [].

Definition in_dates (s : string) (observed : list string) : bool :=
  existsb (String.eqb s) observed.

(** [while _fmt(substitute) in observed_dates: substitute += timedelta(days=1)].
    Every round leaves one observed date behind, so one round more than
    there are observed dates is enough. *)
Fixpoint next_free (fuel : nat) (substitute : Datetime.date)
         (observed_dates : list string) : option Datetime.date :=
  if in_dates (_fmt substitute) observed_dates
  then match fuel with
       | O => None
       | S f =>
           s' <- Datetime.add_days substitute 1 ;;
           next_free f s' observed_dates
       end
  else Some substitute.

(** One round of the loop of [_apply_sunday_substitution]: the holiday as
    observed, given the dates observed so far. *)
Definition observe (h : Holiday) (observed_dates : list string) : option Holiday :=
  d <- _parse (date h) ;;
  if Datetime.weekday d =? 6 then
    s0 <- Datetime.add_days d 1 ;;
    substitute <- next_free (List.length observed_dates) s0 observed_dates ;;
    Some (mkHoliday (_fmt substitute) (name h) (moveable h)
                    (Some ("Observed (substitute for " ++ date h ++ ")")))
  else if in_dates (date h) observed_dates then
    s0 <- Datetime.add_days d 1 ;;
    substitute <- next_free (List.length observed_dates) s0 observed_dates ;;
    Some (mkHoliday (_fmt substitute) (name h) (moveable h)
                    (Some ("Observed (shifted due to conflict on " ++ date h ++ ")")))
  else Some h.

Fixpoint substitution_loop (hs : list Holiday) (observed_dates : list string)
         (result : list Holiday) : option (list Holiday) :=
  match hs with
  | [] => Some result
  | h :: rest =>
      h' <- observe h observed_dates ;;
      substitution_loop rest (date h' :: observed_dates) (result ++ [h'])%list
  end.

Definition _apply_sunday_substitution (holidays : list Holiday)
  : option (list Holiday) :=
  substitution_loop (sorted_by_date holidays) [] [].

Definition get_holidays (year : Z) : option (list Holiday) :=
  fixed <- _apply_sunday_substitution (_fixed_holidays year) ;;
  moveable <- _moveable_holidays year ;;
  Some (sorted_by_date (fixed ++ moveable)%list).

Definition get_easter_sunday (year : Z) : option string :=
  d <- _compute_easter_sunday year ;;
  Some (_fmt d).

(** The argument [from_date: date | str | None]. *)
Inductive date_arg : Type :=
| ADate (d : Datetime.date)
| AStr (s : string).

Definition to_date (a : date_arg) : option Datetime.date :=
  match a with ADate d => Some d | AStr s => _parse s end.

Definition is_public_holiday (a : date_arg) : option bool :=
  d <- to_date a ;;
  let ds := _fmt d in
  hs <- get_holidays (Datetime.year d) ;;
  Some (existsb (fun h => String.eqb (date h) ds) hs).

(** [get_next_holiday]: [today] is what [date.today()] returns when the
    call is made; the outer [option] is an exception, the inner one the
    [Holiday | None] of the source. *)
Definition get_next_holiday (today : Datetime.date) (from_date : option date_arg)
  : option (option Holiday) :=
  from_date <- match from_date with
               | None => Some today
               | Some a => to_date a
               end ;;
  let ds := _fmt from_date in
  hs <- get_holidays (Datetime.year from_date) ;;
  match find (fun h => Py.str_ltb ds (date h)) hs with
  | Some h => Some (Some h)
  | None =>
      next_year <- get_holidays (Datetime.year from_date + 1) ;;
      Some (List.hd_error next_year)
  end.

Definition is_business_day (a : date_arg) : option bool :=
  d <- to_date a ;;
  if Datetime.weekday d >=? 5 then Some false
  else
    p <- is_public_holiday (ADate d) ;;
    Some (negb p).

(** The loop [while current < to_date] of [get_working_days]. Every round
    moves [current] one day on, so the number of days from [from_date] to
    [to_date] is fuel enough; the [None] at no fuel is never reached from
    [get_working_days]. *)
Fixpoint working_days_loop (fuel : nat) (current to_date : Datetime.date)
         (count : Z) : option Z :=
  if Datetime.ltb current to_date
  then match fuel with
       | O => None
       | S f =>
           b <- is_business_day (ADate current) ;;
           let count := if b then count + 1 else count in
           current <- Datetime.add_days current 1 ;;
           working_days_loop f current to_date count
       end
  else Some count.

Definition get_working_days (from_date to_date : date_arg) : option Z :=
  from_date <- Holidays.to_date from_date ;;
  to_date <- Holidays.to_date to_date ;;
  working_days_loop
    (Z.to_nat (Datetime.toordinal to_date - Datetime.toordinal from_date))
    from_date to_date 0.

End Holidays.

(* ------------------------------------------------------------------ *)
(** ** Python floats: conversions the source relies on *)
(* ------------------------------------------------------------------ *)

Module PyFloat.

Local Open Scope Z_scope.

Definition sf_of_int (n : Z) : spec_float :=
  match n with
  | Z0 => S754_zero false
  | Zpos p => S754_finite false p 0
  | Zneg p => S754_finite true p 0
  end.

(** [float(n)] for an [int], rounded to nearest even; [None] stands for
    its [OverflowError]. *)
Definition of_int (n : Z) : option float :=
  match binary_normalize prec emax n 0 false with
  | S754_infinity _ => None
  | sf => Some (SF2Prim sf)
  end.

(** [math.floor(x)]; [None] stands for the error it raises on an infinity
    or a NaN. *)
Definition floor (x : float) : option Z :=
  match Prim2SF x with
  | S754_zero _ => Some 0
  | S754_finite s m e =>
      let v := if s then Zneg m else Zpos m in
      Some (if 0 <=? e then v * 2 ^ e else v / 2 ^ (- e))
  | S754_infinity _ | S754_nan => None
  end.

(** [a / b] on two [int]s, correctly rounded; [None] stands for
    [ZeroDivisionError] and [OverflowError]. *)
Definition int_truediv (a b : Z) : option float :=
  if b =? 0 then None
  else match SFdiv prec emax (sf_of_int a) (sf_of_int b) with
       | S754_infinity _ => None
       | sf => Some (SF2Prim sf)
       end.

(** The integer nearest to [num / den], ties to even ([den > 0]). *)
Definition round_half_even (num den : Z) : Z :=
  let q := num / den in
  let r := num mod den in
  if (den <? 2 * r) || ((den =? 2 * r) && Z.odd q) then q + 1 else q.

Local Open Scope string_scope.

(** The digits of [q] with a point before the last [d] of them. *)
Definition fixed_digits (q : Z) (d : nat) : string :=
  let s := Py.zfill (S d) q in
  let n := (String.length s - d)%nat in
  match d with
  | O => s
  | _ => Py.take n s ++ "." ++ Py.drop n s
  end.

(** [f"{x:.{d}f}"]: the exact value of [x] rounded to [d] decimals, ties to
    even. *)
Definition format_fixed (x : float) (d : nat) : string :=
  match Prim2SF x with
  | S754_nan => "nan"
  | S754_infinity s => if s then "-inf" else "inf"
  | S754_zero s => (if s then "-" else "") ++ fixed_digits 0 d
  | S754_finite s m e =>
      let num := Zpos m * 10 ^ Z.of_nat d in
      let q := if (0 <=? e)%Z then (num * 2 ^ e)%Z
               else round_half_even num (2 ^ (- e)) in
      (if s then "-" else "") ++ fixed_digits q d
  end.

(** [float(s)] for [s] made of digits with at most one point among them,
    as the pattern [\d+(\.\d+)?] leaves it: the nearest binary64. *)
Definition of_decimal (s : string) : float :=
  let s := Py.strip s in
  match Py.split "." s with
  | [i] => SF2Prim (binary_normalize prec emax (Py.int_of_digits i) 0 false)
  | i :: f :: _ =>
      SF2Prim (SFdiv prec emax (sf_of_int (Py.int_of_digits (i ++ f)))
                     (sf_of_int (10 ^ Z.of_nat (String.length f))))
  | [] => PrimFloat.zero
  end.

(** [a / b] on two [float]s; [None] stands for [ZeroDivisionError]. *)
Definition truediv (a b : float) : option float :=
  if (b =? 0)%float then None else Some (a / b)%float.

(** [round(x, d)] for a [float] [x] and [d >= 0]: a NaN or an infinity is
    returned as it is; a finite [x] is rounded on its exact value to [d]
    decimals, ties to even, and the decimal is read back as the nearest
    binary64, with the sign of [x]. *)
Definition round_ndigits (x : float) (d : nat) : float :=
  match Prim2SF x with
  | S754_finite s m e =>
      let num := (Zpos m * 10 ^ Z.of_nat d)%Z in
      let q := if (0 <=? e)%Z then (num * 2 ^ e)%Z
               else round_half_even num (2 ^ (- e)) in
      let r := SFdiv prec emax (sf_of_int q) (sf_of_int (10 ^ Z.of_nat d)) in
      SF2Prim (if s then SFopp r else r)
  | _ => x
  end.

(** [f"{n:,}"] for a non-negative [int]: the digits in groups of three. *)
Fixpoint group_digits (rev_chars : list ascii) (i : Z) (grouped : string) : string :=
  match rev_chars with
  | [] => grouped
  | ch :: rest =>
      let grouped :=
        if ((0 <? i) && (i mod 3 =? 0))%Z then "," ++ grouped else grouped in
      group_digits rest (i + 1)%Z (String ch grouped)
  end.

Definition format_grouped (n : Z) : string :=
  group_digits (rev (list_ascii_of_string (Py.str_of_nonneg n))) 0%Z "".

End PyFloat.

(* ------------------------------------------------------------------ *)
(** ** jamaica-currency *)
(* ------------------------------------------------------------------ *)

Module Currency.

Import Re Err Err.Notations.
Local Open Scope string_scope.
Local Open Scope Z_scope.

(** 0.15, as the nearest binary64 *)
Definition GCT_RATE : float := 0x1.3333333333333p-3%float.
Definition TELECOM_GCT_RATE : float := 0.25%float.

Record FormatOptions : Type := {
  show_symbol : bool;
  decimals : Z;
  use_grouping : bool
}.

(** [FormatOptions()] *)
Definition default_options : FormatOptions :=
  {| show_symbol := true; decimals := 2; use_grouping := true |}.

(** [None] stands for the [ValueError] on negative [decimals] and for the
    [OverflowError] of [math.floor] and of the conversions. *)
Definition _round_to (value : float) (decimals : Z) : option float :=
  if decimals <? 0 then None
  else
    let factor := 10 ^ decimals in
    f <- PyFloat.of_int factor ;;
    n <- PyFloat.floor (value * f + 0.5)%float ;;
    PyFloat.int_truediv n factor.

(** The loop [for i, ch in enumerate(reversed(int_part))]. *)
Fixpoint group_loop (rev_chars : list ascii) (i : Z) (grouped : string) : string :=
  match rev_chars with
  | [] => grouped
  | ch :: rest =>
      let grouped :=
        if (0 <? i) && (i mod 3 =? 0) then "," ++ grouped else grouped in
      group_loop rest (i + 1) (String ch grouped)
  end.

Definition _format_absolute (abs_value : float) (decimals : Z) (use_grouping : bool)
  : option string :=
  rounded <- _round_to abs_value decimals ;;
  let fixed := PyFloat.format_fixed rounded (Z.to_nat decimals) in
  if negb use_grouping then Some fixed
  else
    match Py.split "." fixed with
    | [] => Some fixed
    | int_part :: dec_parts =>
        let grouped := group_loop (rev (list_ascii_of_string int_part)) 0 "" in
        match dec_parts with
        | d :: _ => Some (grouped ++ "." ++ d)
        | [] => Some grouped
        end
    end.

Definition format_jmd (amount : float) (options : option FormatOptions)
  : option string :=
  let options := match options with Some o => o | None => default_options end in
  let is_negative := (amount <? 0)%float in
  let abs_val := PrimFloat.abs amount in
  formatted <- _format_absolute abs_val (decimals options) (use_grouping options) ;;
  let symbol := if show_symbol options then "J$" else "" in
  let sign := if is_negative then "-" else "" in
  Some (sign ++ symbol ++ formatted).

(** [^\d+(\.\d+)?$] *)
Definition _NUMBER_RE : regex :=
  Cat Bol
      (Cat (Plus (Class Py.isdigit))
           (Cat (Opt (Grp 1 (Cat (Lit ".") (Plus (Class Py.isdigit))))) Eol)).

Definition parse_jmd (formatted : option string) : option float :=
  match formatted with
  | None => None
  | Some formatted =>
      let s := Py.strip formatted in
      if negb (Py.truthy s) then None
      else
        let '(negative, s) :=
          if Py.startswith "-" s then (true, Py.strip (Py.drop 1 s))
          else (false, s) in
        let s := if Py.startswith "J$" s then Py.strip (Py.drop 2 s) else s in
        if negb (Py.truthy s) then None
        else
          let s := Py.remove_char "," s in
          match Re.rmatch false _NUMBER_RE s with
          | None => None
          | Some _ =>
              let value := PyFloat.of_decimal s in
              Some (if negative then (- value)%float else value)
          end
  end.

Definition format_usd (amount : float) : option string :=
  let is_negative := (amount <? 0)%float in
  let abs_val := PrimFloat.abs amount in
  formatted <- _format_absolute abs_val 2 true ;;
  let sign := if is_negative then "-" else "" in
  Some (sign ++ "US$" ++ formatted).

(** 155.47, as the nearest binary64 *)
Definition DEFAULT_EXCHANGE_RATE : float := 0x1.36f0a3d70a3d7p+7%float.

(** The default of a keyword argument. *)
Definition or_default (A : Type) (o : option A) (d : A) : A :=
  match o with Some a => a | None => d end.

Definition jmd_to_usd (jmd : float) (rate : option float) : option float :=
  let rate := or_default rate DEFAULT_EXCHANGE_RATE in
  q <- PyFloat.truediv jmd rate ;;
  _round_to q 3.

Definition usd_to_jmd (usd : float) (rate : option float) : option float :=
  let rate := or_default rate DEFAULT_EXCHANGE_RATE in
  _round_to (usd * rate)%float 2.

Definition add_gct (amount : float) (rate : option float) : float :=
  let rate := or_default rate GCT_RATE in
  (amount * (1 + rate))%float.

Definition remove_gct (amount_with_gct : float) (rate : option float) : option float :=
  let rate := or_default rate GCT_RATE in
  PyFloat.truediv amount_with_gct (1 + rate)%float.

Definition add_telecom_gct (amount : float) : float :=
  (amount * (1 + TELECOM_GCT_RATE))%float.

Record GCTBreakdown : Type := {
  base : string;
  gct : string;
  total : string
}.

Definition format_with_gct (amount : float) : option GCTBreakdown :=
  gct_amount <- _round_to (amount * GCT_RATE)%float 2 ;;
  total_amount <- _round_to (amount + gct_amount)%float 2 ;;
  base_text <- format_jmd amount None ;;
  gct_text <- format_jmd gct_amount None ;;
  total_text <- format_jmd total_amount None ;;
  Some {| base := base_text; gct := gct_text; total := total_text |}.

End Currency.

(* ------------------------------------------------------------------ *)
(** ** addressing-api: parish_lookup *)
(* ------------------------------------------------------------------ *)

Module ParishLookup.

Import Err Err.Notations.
Local Open Scope float_scope.

Definition _EARTH_RADIUS_KM : float := 6371.0.

(** [math.sqrt]; [None] stands for the [ValueError] on a negative
    argument. *)
Definition math_sqrt (x : float) : option float :=
  if x <? 0 then None else Some (PrimFloat.sqrt x).

(** [math.radians(x)], that is [x * (pi / 180)]. *)
Definition math_radians (x : float) : float := x * 0x1.1df46a2529d39p-6.

Section WithData.

(** The C library's [sin], [cos], [atan2] and [pow], which [math.sin],
    [math.cos], [math.atan2] and the operator [**] call. *)
Variables libm_sin libm_cos : float -> float.
Variables libm_atan2 libm_pow : float -> float -> float.

(** CPython's wrapper [math_1] around a C function of one argument: a
    NaN for an argument that is none, or an infinity for a finite
    argument, is raised as an error ([None]). *)
Definition math_1 (func : float -> float) (x : float) : option float :=
  let r := func x in
  if is_nan r && negb (is_nan x) then None
  else if is_infinity r && is_finite x then None
  else Some r.

(** CPython's wrapper [math_2] around a C function of two arguments. *)
Definition math_2 (func : float -> float -> float) (x y : float) : option float :=
  let r := func x y in
  if is_nan r && negb (is_nan x) && negb (is_nan y) then None
  else if is_infinity r && is_finite x && is_finite y then None
  else Some r.

(** [math.sin] and [math.cos]: C's [sin] and [cos] give a NaN at an
    infinity, which is the [ValueError] of [math_1]. *)
Definition math_sin (x : float) : option float :=
  if is_infinity x then None else math_1 libm_sin x.

Definition math_cos (x : float) : option float :=
  if is_infinity x then None else math_1 libm_cos x.

Definition math_atan2 (y x : float) : option float := math_2 libm_atan2 y x.

(** [x ** 2] on a float, that is CPython's [float_pow] at the exponent
    2.0: a NaN, an infinity, a zero and 1 are settled there, the rest is
    the C library's [pow] on the absolute value; [None] stands for the
    [OverflowError] on an infinite result. *)
Definition float_pow_2 (iv : float) : option float :=
  if is_nan iv then Some iv
  else if is_infinity iv then Some (PrimFloat.abs iv)
  else if iv =? 0 then Some 0
  else
    let iv := if iv <? 0 then - iv else iv in
    if iv =? 1 then Some 1
    else
      let ix := libm_pow iv 2 in
      if is_infinity ix then None else Some ix.

(** A record of [parishes.json], with what [find_parish] reads of it:
    [parish["coordinates"]["lat"]] and [parish["coordinates"]["lng"]]. *)
Variable parish : Type.
Variables coord_lat coord_lng : parish -> float.

(** What [_load_parishes()] returns: [data["parishes"]], in file order. *)
Variable _load_parishes : list parish.

(** [None] stands for the [ValueError] of [math.sin], [math.cos] and
    [math.sqrt] and for the errors of [**] and [math.atan2]. *)
Definition _haversine (lat1 lng1 lat2 lng2 : float) : option float :=
  let lat1_r := math_radians lat1 in
  let lat2_r := math_radians lat2 in
  let dlat := math_radians (lat2 - lat1) in
  let dlng := math_radians (lng2 - lng1) in
  sin_dlat <- math_sin (dlat / 2) ;;
  sin_dlat_2 <- float_pow_2 sin_dlat ;;
  cos_lat1 <- math_cos lat1_r ;;
  cos_lat2 <- math_cos lat2_r ;;
  sin_dlng <- math_sin (dlng / 2) ;;
  sin_dlng_2 <- float_pow_2 sin_dlng ;;
  let a := sin_dlat_2 + cos_lat1 * cos_lat2 * sin_dlng_2 in
  sa <- math_sqrt a ;;
  sb <- math_sqrt (1 - a) ;;
  angle <- math_atan2 sa sb ;;
  Some (_EARTH_RADIUS_KM * 2 * angle).

(** The loop [for parish in parishes] on the pair [(best, best_dist)];
    [None] when [_haversine] raises. *)
Fixpoint find_loop (lat lng : float) (parishes : list parish)
         (best : option parish) (best_dist : float)
  : option (option parish * float) :=
  match parishes with
  | [] => Some (best, best_dist)
  | p :: rest =>
      dist <- _haversine lat lng (coord_lat p) (coord_lng p) ;;
      if dist <? best_dist
      then find_loop lat lng rest (Some p) dist
      else find_loop lat lng rest best best_dist
  end.

Definition find_parish (lat lng : float) : option (option parish) :=
  r <- find_loop lat lng _load_parishes None infinity ;;
  let '(best, best_dist) := r in
  if 150 <? best_dist then Some None else Some best.

(** [parish["code"]] of a record, and Python's [str.upper]. *)
Variable code : parish -> string.
Variable str_upper : string -> string.

(** The loop [for parish in _load_parishes()] of [get_parish_by_code]. *)
Fixpoint code_loop (code_upper : string) (parishes : list parish) : option parish :=
  match parishes with
  | [] => None
  | p :: rest =>
      if String.eqb (str_upper (code p)) code_upper then Some p
      else code_loop code_upper rest
  end.

Definition get_parish_by_code (c : string) : option parish :=
  let code_upper := str_upper c in
  code_loop code_upper _load_parishes.

Definition get_all_parishes : list parish := _load_parishes.

End WithData.

End ParishLookup.

(* ------------------------------------------------------------------ *)
(** ** jamaica-tax *)
(* ------------------------------------------------------------------ *)

Module Tax.

Import Err Err.Notations.
Local Open Scope string_scope.
Local Open Scope float_scope.

(** A Python number: an [int] or a [float]. The arguments of the
    operations are [float]s, as annotated; an [int] comes in with the
    constants of the source. *)
Inductive number : Type :=
| Int (n : Z)
| Float (x : float).

(** [float(n)] for the [int] constants of the source, all below 2^53. *)
Definition of_int (n : Z) : float :=
  SF2Prim (binary_normalize prec emax n 0 false).

Definition to_float (v : number) : float :=
  match v with Int n => of_int n | Float x => x end.

Definition TAX_YEAR : Z := 2024.
Definition ANNUAL_THRESHOLD : Z := 1500096.
Definition MONTHLY_THRESHOLD : Z := 125008.

(** 0.03, 0.02, 0.0225, 0.035 and 0.3, as the nearest binary64 *)
Definition NIS_EMPLOYEE_RATE : float := 0x1.eb851eb851eb8p-6.
Definition NIS_EMPLOYER_RATE : float := 0x1.eb851eb851eb8p-6.
Definition NIS_ANNUAL_CEILING : Z := 5000000.
Definition NIS_WEEKLY_CEILING : Z := 96154.
Definition NHT_EMPLOYEE_RATE : float := 0x1.47ae147ae147bp-6.
Definition NHT_EMPLOYER_RATE : float := 0x1.eb851eb851eb8p-6.
Definition EDUCATION_TAX_EMPLOYEE_RATE : float := 0x1.70a3d70a3d70ap-6.
Definition EDUCATION_TAX_EMPLOYER_RATE : float := 0x1.1eb851eb851ecp-5.
Definition HEART_NTA_RATE : float := 0x1.eb851eb851eb8p-6.
Definition rate_25 : float := 0.25.
Definition rate_30 : float := 0x1.3333333333333p-2.

Definition _PERIODS_PER_YEAR : list (string * Z) :=
  [("annual", 1%Z); ("monthly", 12%Z); ("fortnightly", 26%Z); ("weekly", 52%Z)].

(** [d[k]]; [None] stands for [KeyError]. *)
Fixpoint dict_item (k : string) (d : list (string * Z)) : option Z :=
  match d with
  | [] => None
  | (k', v) :: rest => if String.eqb k k' then Some v else dict_item k rest
  end.

(** [round(value, 2)]: an [int] is returned as it is. *)
Definition _round2 (value : number) : number :=
  match value with
  | Int n => Int n
  | Float x => Float (PyFloat.round_ndigits x 2)
  end.

Definition round2 (x : float) : float := PyFloat.round_ndigits x 2.

(** [_assert_non_negative] on a [float]; [None] stands for its
    [ValueError]. *)
Definition _assert_non_negative (value : float) : option unit :=
  if negb (value =? value) || (value <? 0) then None
  else if (value =? infinity) || (value =? neg_infinity) then None
  else Some tt.

(** [max(a, b)] and [min(a, b)] on two arguments: the first one unless the
    second is greater (less). *)
Definition py_max (a b : float) : float := if a <? b then b else a.

Definition py_min (a : float) (b : Z) : number :=
  if of_int b <? a then Int b else Float a.

Record TaxBracket : Type := {
  min : number;
  max : option number;
  rate : number;
  label : string
}.

(** [tax] of a [BracketDetail] is [bracket_tax] here. *)
Record BracketDetail : Type := {
  bracket : string;
  taxable_in_this_bracket : number;
  bracket_tax : float
}.

Record IncomeTaxBreakdown : Type := {
  annual_income : float;
  threshold : Z;
  taxable_income : float;
  tax : float;
  effective_rate : float;
  brackets : list BracketDetail
}.

(** [employee], [employer] and [total] of a [NISContribution] carry the
    prefix [nis_] here. *)
Record NISContribution : Type := {
  nis_employee : float;
  nis_employer : float;
  nis_total : float;
  at_ceiling : bool
}.

Record StatutoryContribution : Type := {
  employee : float;
  employer : float;
  total : float
}.

Record PayrollBreakdown : Type := {
  period : string;
  gross_pay : float;
  annualized : float;
  income_tax : float;
  nis : float;
  nht : float;
  education_tax : float;
  total_deductions : float;
  net_pay : float;
  employer_nis : float;
  employer_nht : float;
  employer_education_tax : float;
  employer_heart : float;
  total_employer_contributions : float;
  total_cost_to_employer : float
}.

Definition get_income_tax_brackets : list TaxBracket :=
  [ {| min := Int 0;
       max := Some (Int ANNUAL_THRESHOLD);
       rate := Int 0;
       label := "0 - " ++ PyFloat.format_grouped ANNUAL_THRESHOLD ++ " (Threshold)" |};
    {| min := Int ANNUAL_THRESHOLD;
       max := Some (Int (ANNUAL_THRESHOLD + 6000000));
       rate := Float rate_25;
       label := PyFloat.format_grouped (ANNUAL_THRESHOLD + 1) ++ " - "
                ++ PyFloat.format_grouped (ANNUAL_THRESHOLD + 6000000) ++ " (25%)" |};
    {| min := Int (ANNUAL_THRESHOLD + 6000000);
       max := None;
       rate := Float rate_30;
       label := "Above " ++ PyFloat.format_grouped (ANNUAL_THRESHOLD + 6000000)
                ++ " (30%)" |} ].

Definition get_tax_threshold : Z := ANNUAL_THRESHOLD.

Definition calculate_income_tax (annual_income : float) : option IncomeTaxBreakdown :=
  _ <- _assert_non_negative annual_income ;;
  let threshold := ANNUAL_THRESHOLD in
  let taxable_income := py_max 0 (annual_income - of_int threshold) in
  let bracket_details : list BracketDetail := [] in
  let remaining := taxable_income in
  let total_tax := 0 in
  let first_bracket_max := 6000000%Z in
  let in_first := py_min remaining first_bracket_max in
  let first_tax := round2 (to_float in_first * rate_25) in
  let bracket_details :=
    if 0 <? to_float in_first
    then (bracket_details
          ++ [ {| bracket := "25%";
                  taxable_in_this_bracket := _round2 in_first;
                  bracket_tax := first_tax |} ])%list
    else bracket_details in
  let total_tax := total_tax + first_tax in
  let remaining := remaining - to_float in_first in
  let '(bracket_details, total_tax) :=
    if 0 <? remaining
    then
      let second_tax := round2 (remaining * rate_30) in
      ((bracket_details
        ++ [ {| bracket := "30%";
                taxable_in_this_bracket := _round2 (Float remaining);
                bracket_tax := second_tax |} ])%list,
       total_tax + second_tax)
    else (bracket_details, total_tax) in
  let total_tax := round2 total_tax in
  let effective_rate :=
    if 0 <? annual_income then round2 (total_tax / annual_income) else 0 in
  Some {| annual_income := round2 annual_income;
          threshold := threshold;
          taxable_income := round2 taxable_income;
          tax := total_tax;
          effective_rate := round2 effective_rate;
          brackets := bracket_details |}.

Definition calculate_nis (annual_gross : float) : option NISContribution :=
  _ <- _assert_non_negative annual_gross ;;
  let capped := py_min annual_gross NIS_ANNUAL_CEILING in
  let employee := round2 (to_float capped * NIS_EMPLOYEE_RATE) in
  let employer := round2 (to_float capped * NIS_EMPLOYER_RATE) in
  let at_ceiling := of_int NIS_ANNUAL_CEILING <=? annual_gross in
  Some {| nis_employee := employee;
          nis_employer := employer;
          nis_total := round2 (employee + employer);
          at_ceiling := at_ceiling |}.

Definition calculate_nht (gross_pay : float) : option StatutoryContribution :=
  _ <- _assert_non_negative gross_pay ;;
  let employee := round2 (gross_pay * NHT_EMPLOYEE_RATE) in
  let employer := round2 (gross_pay * NHT_EMPLOYER_RATE) in
  Some {| employee := employee;
          employer := employer;
          total := round2 (employee + employer) |}.

Definition calculate_education_tax (gross_pay : float) : option StatutoryContribution :=
  _ <- _assert_non_negative gross_pay ;;
  let employee := round2 (gross_pay * EDUCATION_TAX_EMPLOYEE_RATE) in
  let employer := round2 (gross_pay * EDUCATION_TAX_EMPLOYER_RATE) in
  Some {| employee := employee;
          employer := employer;
          total := round2 (employee + employer) |}.

Definition calculate_heart (gross_pay : float) : option float :=
  _ <- _assert_non_negative gross_pay ;;
  Some (round2 (gross_pay * HEART_NTA_RATE)).

Definition calculate_payroll (gross_pay : float) (period : option string)
  : option PayrollBreakdown :=
  let period := match period with Some p => p | None => "monthly" end in
  _ <- _assert_non_negative gross_pay ;;
  periods_per_year <- dict_item period _PERIODS_PER_YEAR ;;
  let annualized := round2 (gross_pay * of_int periods_per_year) in
  it_result <- calculate_income_tax annualized ;;
  let income_tax := round2 (tax it_result / of_int periods_per_year) in
  nis_result <- calculate_nis annualized ;;
  let nis := round2 (nis_employee nis_result / of_int periods_per_year) in
  let employer_nis := round2 (nis_employer nis_result / of_int periods_per_year) in
  nht_result <- calculate_nht gross_pay ;;
  let nht := employee nht_result in
  let employer_nht := employer nht_result in
  ed_result <- calculate_education_tax gross_pay ;;
  let education_tax := employee ed_result in
  let employer_education_tax := employer ed_result in
  employer_heart <- calculate_heart gross_pay ;;
  let total_deductions := round2 (income_tax + nis + nht + education_tax) in
  let net_pay := round2 (gross_pay - total_deductions) in
  let total_employer_contributions :=
    round2 (employer_nis + employer_nht + employer_education_tax + employer_heart) in
  let total_cost_to_employer := round2 (gross_pay + total_employer_contributions) in
  Some {| period := period;
          gross_pay := round2 gross_pay;
          annualized := annualized;
          income_tax := income_tax;
          nis := nis;
          nht := nht;
          education_tax := education_tax;
          total_deductions := total_deductions;
          net_pay := net_pay;
          employer_nis := employer_nis;
          employer_nht := employer_nht;
          employer_education_tax := employer_education_tax;
          employer_heart := employer_heart;
          total_employer_contributions := total_employer_contributions;
          total_cost_to_employer := total_cost_to_employer |}.

End Tax.

(* ------------------------------------------------------------------ *)
(** ** jamaica-phone *)
(* ------------------------------------------------------------------ *)

Module Phone.

Import Re Err Err.Notations.
Local Open Scope string_scope.
Local Open Scope Z_scope.

Record ParsedPhone : Type := {
  country_code : string;
  area_code : string;
  local_number : string;
  is_valid : bool
}.

Definition _VALID_AREA_CODES : list string := ["876"; "658"].

(** [\D] *)
Definition _NON_DIGIT_RE : regex := Class (fun c => negb (Py.isdigit c)).

Definition in_codes (x : string) (codes : list string) : bool :=
  existsb (String.eqb x) codes.

Definition _strip_to_digits (phone : string) : string * bool :=
  let trimmed := Py.strip phone in
  let has_plus := Py.startswith "+" trimmed in
  let digits := Re.sub false _NON_DIGIT_RE "" trimmed in
  (digits, has_plus).

Definition len (s : string) : Z := Z.of_nat (String.length s).

Definition _extract_ten_digits (phone : string) : option string :=
  let '(digits, has_plus) := _strip_to_digits phone in
  let ten : option string :=
    if has_plus
    then
      if (len digits =? 11) && Py.startswith "1" digits
      then Some (Py.drop 1 digits) else None
    else if len digits =? 10 then Some digits
    else if (len digits =? 11) && Py.startswith "1" digits
         then Some (Py.drop 1 digits)
         else None in
  match ten with
  | None => None
  | Some ten =>
      let area_code := Py.take 3 ten in
      if negb (in_codes area_code _VALID_AREA_CODES) then None
      else
        (* [ten[3]], in range since [ten] has ten characters *)
        let exchange_digit := Py.take 1 (Py.drop 3 ten) in
        if Py.str_ltb exchange_digit "2" || Py.str_ltb "9" exchange_digit
        then None
        else Some ten
  end.

Definition is_valid_jamaican_number (phone : string) : bool :=
  match _extract_ten_digits phone with Some _ => true | None => false end.

Definition parse_phone (phone : string) : option ParsedPhone :=
  match _extract_ten_digits phone with
  | None => None
  | Some ten =>
      Some {| country_code := "1";
              area_code := Py.take 3 ten;
              local_number := Py.drop 3 ten;
              is_valid := true |}
  end.

(** In the four formatters [None] stands for the [ValueError]. *)
Definition format_local (phone : string) : option string :=
  parsed <- parse_phone phone ;;
  let ln := local_number parsed in
  Some (Py.take 3 ln ++ "-" ++ Py.drop 3 ln).

Definition format_national (phone : string) : option string :=
  parsed <- parse_phone phone ;;
  let ln := local_number parsed in
  Some ("(" ++ area_code parsed ++ ") " ++ Py.take 3 ln ++ "-" ++ Py.drop 3 ln).

Definition format_e164 (phone : string) : option string :=
  parsed <- parse_phone phone ;;
  Some ("+" ++ country_code parsed ++ area_code parsed ++ local_number parsed).

Definition format_international (phone : string) : option string :=
  parsed <- parse_phone phone ;;
  let ln := local_number parsed in
  Some ("+" ++ country_code parsed ++ " (" ++ area_code parsed ++ ") "
        ++ Py.take 3 ln ++ "-" ++ Py.drop 3 ln).

Definition in_ints (x : Z) (l : list Z) : bool := existsb (Z.eqb x) l.

Definition get_carrier (phone : string) : string :=
  match parse_phone phone with
  | None => "unknown"
  | Some parsed =>
      if String.eqb (area_code parsed) "658" then "unknown"
      else
        let exchange := Py.int_of_digits (Py.take 3 (local_number parsed)) in
        let first_digit := exchange / 100 in
        if in_ints first_digit [6; 7; 9] then "landline"
        else if in_ints first_digit [2; 8] then "digicel"
        else if first_digit =? 3
             then
               let second_digit := (exchange mod 100) / 10 in
               if second_digit >=? 5 then "digicel" else "flow"
             else if in_ints first_digit [4; 5] then "flow"
                  else "unknown"
  end.

Definition is_area_code_876 (phone : string) : bool :=
  match parse_phone phone with
  | Some parsed => String.eqb (area_code parsed) "876"
  | None => false
  end.

Definition is_area_code_658 (phone : string) : bool :=
  match parse_phone phone with
  | Some parsed => String.eqb (area_code parsed) "658"
  | None => false
  end.

Definition is_mobile (phone : string) : bool :=
  let carrier := get_carrier phone in
  if in_codes carrier ["flow"; "digicel"] then true
  else
    match parse_phone phone with
    | None => false
    | Some parsed => if String.eqb (area_code parsed) "658" then true else false
    end.

End Phone.

(* ------------------------------------------------------------------ *)
(** ** The exported operations of the five formula packages *)
(* ------------------------------------------------------------------ *)

Module Toolkit.

(** The state outside the arguments that the packages reach: the system
    clock behind [date.today()] and the process-wide generator behind
    [random.randint]. Of what the five packages import, [random] (in
    [jamaica_trn]) and [date] (in [jamaica_holidays]) are the only modules
    with state that a result depends on; the module-level names of the
    packages are assigned once, at import, and stand as constants; the
    pattern cache of [re], which changes no result, is left out. *)
Record world : Type := {
  clock : Datetime.date;
  generator : Trn.rng
}.

(** A call of an exported operation with its arguments: the functions that
    [__all__] of [jamaica_currency], [jamaica_tax], [jamaica_phone] and
    [jamaica_trn] lists, and the public functions of [jamaica_holidays]. *)
Inductive call : Type :=
| call_format_jmd (amount : float) (options : option Currency.FormatOptions)
| call_parse_jmd (formatted : option string)
| call_format_usd (amount : float)
| call_jmd_to_usd (jmd : float) (rate : option float)
| call_usd_to_jmd (usd : float) (rate : option float)
| call_add_gct (amount : float) (rate : option float)
| call_remove_gct (amount_with_gct : float) (rate : option float)
| call_add_telecom_gct (amount : float)
| call_format_with_gct (amount : float)
| call_get_income_tax_brackets
| call_get_tax_threshold
| call_calculate_income_tax (annual_income : float)
| call_calculate_nis (annual_gross : float)
| call_calculate_nht (gross_pay : float)
| call_calculate_education_tax (gross_pay : float)
| call_calculate_heart (gross_pay : float)
| call_calculate_payroll (gross_pay : float) (period : option string)
| call_is_valid_jamaican_number (phone : string)
| call_parse_phone (phone : string)
| call_format_local (phone : string)
| call_format_national (phone : string)
| call_format_e164 (phone : string)
| call_format_international (phone : string)
| call_get_carrier (phone : string)
| call_is_area_code_876 (phone : string)
| call_is_area_code_658 (phone : string)
| call_is_mobile (phone : string)
| call_is_valid_trn (trn : string)
| call_format_trn (trn : string)
| call_unformat_trn (trn : string)
| call_generate_test_trn
| call_get_trn_check_digit (digits : string)
| call_get_holidays (year : Z)
| call_is_public_holiday (d : Holidays.date_arg)
| call_get_next_holiday (from_date : option Holidays.date_arg)
| call_is_business_day (d : Holidays.date_arg)
| call_get_working_days (from_date to_date : Holidays.date_arg)
| call_get_easter_sunday (year : Z).

(** What a call returns. *)
Definition result (c : call) : Type :=
  match c with
  | call_format_jmd _ _ => string
  | call_parse_jmd _ => option float
  | call_format_usd _ => string
  | call_jmd_to_usd _ _ => float
  | call_usd_to_jmd _ _ => float
  | call_add_gct _ _ => float
  | call_remove_gct _ _ => float
  | call_add_telecom_gct _ => float
  | call_format_with_gct _ => Currency.GCTBreakdown
  | call_get_income_tax_brackets => list Tax.TaxBracket
  | call_get_tax_threshold => Z
  | call_calculate_income_tax _ => Tax.IncomeTaxBreakdown
  | call_calculate_nis _ => Tax.NISContribution
  | call_calculate_nht _ => Tax.StatutoryContribution
  | call_calculate_education_tax _ => Tax.StatutoryContribution
  | call_calculate_heart _ => float
  | call_calculate_payroll _ _ => Tax.PayrollBreakdown
  | call_is_valid_jamaican_number _ => bool
  | call_parse_phone _ => option Phone.ParsedPhone
  | call_format_local _ => string
  | call_format_national _ => string
  | call_format_e164 _ => string
  | call_format_international _ => string
  | call_get_carrier _ => string
  | call_is_area_code_876 _ => bool
  | call_is_area_code_658 _ => bool
  | call_is_mobile _ => bool
  | call_is_valid_trn _ => bool
  | call_format_trn _ => string
  | call_unformat_trn _ => string
  | call_generate_test_trn => string
  | call_get_trn_check_digit _ => option Z
  | call_get_holidays _ => list Holidays.Holiday
  | call_is_public_holiday _ => bool
  | call_get_next_holiday _ => option Holidays.Holiday
  | call_is_business_day _ => bool
  | call_get_working_days _ _ => Z
  | call_get_easter_sunday _ => string
  end.

(** A call is run in a world and leaves a world; [None] stands for an
    exception. [generate_test_trn] is the one function that calls
    [random.randint], and it takes its draws from the generator;
    [get_next_holiday] is the one function that calls [date.today()], and
    it is handed the clock; the bodies of the other functions name nothing
    of the world. *)
Definition run (c : call) (w : world) : option (result c) * world :=
  match c as c' return option (result c') * world with
  | call_format_jmd amount options => (Currency.format_jmd amount options, w)
  | call_parse_jmd formatted => (Some (Currency.parse_jmd formatted), w)
  | call_format_usd amount => (Currency.format_usd amount, w)
  | call_jmd_to_usd jmd rate => (Currency.jmd_to_usd jmd rate, w)
  | call_usd_to_jmd usd rate => (Currency.usd_to_jmd usd rate, w)
  | call_add_gct amount rate => (Some (Currency.add_gct amount rate), w)
  | call_remove_gct amount rate => (Currency.remove_gct amount rate, w)
  | call_add_telecom_gct amount => (Some (Currency.add_telecom_gct amount), w)
  | call_format_with_gct amount => (Currency.format_with_gct amount, w)
  | call_get_income_tax_brackets => (Some Tax.get_income_tax_brackets, w)
  | call_get_tax_threshold => (Some Tax.get_tax_threshold, w)
  | call_calculate_income_tax x => (Tax.calculate_income_tax x, w)
  | call_calculate_nis x => (Tax.calculate_nis x, w)
  | call_calculate_nht x => (Tax.calculate_nht x, w)
  | call_calculate_education_tax x => (Tax.calculate_education_tax x, w)
  | call_calculate_heart x => (Tax.calculate_heart x, w)
  | call_calculate_payroll x period => (Tax.calculate_payroll x period, w)
  | call_is_valid_jamaican_number phone =>
      (Some (Phone.is_valid_jamaican_number phone), w)
  | call_parse_phone phone => (Some (Phone.parse_phone phone), w)
  | call_format_local phone => (Phone.format_local phone, w)
  | call_format_national phone => (Phone.format_national phone, w)
  | call_format_e164 phone => (Phone.format_e164 phone, w)
  | call_format_international phone => (Phone.format_international phone, w)
  | call_get_carrier phone => (Some (Phone.get_carrier phone), w)
  | call_is_area_code_876 phone => (Some (Phone.is_area_code_876 phone), w)
  | call_is_area_code_658 phone => (Some (Phone.is_area_code_658 phone), w)
  | call_is_mobile phone => (Some (Phone.is_mobile phone), w)
  | call_is_valid_trn trn => (Some (Trn.is_valid_trn trn), w)
  | call_format_trn trn => (Trn.format_trn trn, w)
  | call_unformat_trn trn => (Some (Trn.unformat_trn trn), w)
  | call_generate_test_trn =>
      match Trn.generate_test_trn (generator w) with
      | Some (trn, g) => (Some trn, {| clock := clock w; generator := g |})
      | None => (None, w)
      end
  | call_get_trn_check_digit digits => (Some (Trn.get_trn_check_digit digits), w)
  | call_get_holidays year => (Holidays.get_holidays year, w)
  | call_is_public_holiday d => (Holidays.is_public_holiday d, w)
  | call_get_next_holiday from_date =>
      (Holidays.get_next_holiday (clock w) from_date, w)
  | call_is_business_day d => (Holidays.is_business_day d, w)
  | call_get_working_days from_date to_date =>
      (Holidays.get_working_days from_date to_date, w)
  | call_get_easter_sunday year => (Holidays.get_easter_sunday year, w)
  end.

End Toolkit.

(* ================================================================== *)
(** * Theorems *)
(* ================================================================== *)

Unset Implicit Arguments.

Local Open Scope string_scope.
Local Open Scope Z_scope.

(* ------------------------------------------------------------------ *)
(** ** Formatting entry points of jamaica-addresses *)
(* ------------------------------------------------------------------ *)

(** C8: for every [ParsedAddress] value [p], [format_address p] equals
    [normalize_address p]; the two public formatting entry points are the
    same function. *)
Theorem format_address_is_normalize_address :
  forall p : Addresses.ParsedAddress,
    Addresses.format_address p = Addresses.normalize_address p.
Proof. intro p. unfold Addresses.format_address. reflexivity. Qed.

(* ------------------------------------------------------------------ *)
(** ** Easter Sunday *)
(* ------------------------------------------------------------------ *)

Section Easter.

Import Holidays.

(** The bounds of the intermediate values of the Computus. *)
Lemma computus_in_calendar (y : Z) :
  1 <= y ->
  let a := y mod 19 in
  let b := y / 100 in
  let c := y mod 100 in
  let d := b / 4 in
  let e := b mod 4 in
  let f := (b + 8) / 25 in
  let g := (b - f + 1) / 3 in
  let h := (19 * a + b - d - g + 15) mod 30 in
  let i := c / 4 in
  let k := c mod 4 in
  let l := (32 + 2 * e + 2 * i - h - k) mod 7 in
  let m := (a + 11 * h + 22 * l) / 451 in
  let n := h + l - 7 * m + 114 in
  (n / 31 = 3 /\ 22 <= n mod 31 + 1 <= 31) \/ (n / 31 = 4 /\ 1 <= n mod 31 + 1 <= 25).
Proof.
  intros Hy a b c d e f g h i k l m n.
  assert (Hh : 0 <= h < 30) by (apply Z.mod_pos_bound; lia).
  assert (Hl : 0 <= l < 7) by (apply Z.mod_pos_bound; lia).
  assert (Ha : 0 <= a < 19) by (apply Z.mod_pos_bound; lia).
  subst n. clearbody h l a. clear - Hh Hl Ha m.
  subst m.
  pose proof (Z.div_mod (a + 11 * h + 22 * l) 451 ltac:(lia)) as Hm.
  pose proof (Z.mod_pos_bound (a + 11 * h + 22 * l) 451 ltac:(lia)) as Hm'.
  set (m := (a + 11 * h + 22 * l) / 451) in *.
  assert (Hm01 : m = 0 \/ m = 1) by lia.
  pose proof (Z.div_mod (h + l - 7 * m + 114) 31 ltac:(lia)) as Hn.
  pose proof (Z.mod_pos_bound (h + l - 7 * m + 114) 31 ltac:(lia)) as Hn'.
  lia.
Qed.

(** C5: for every year [y] that [datetime.date] supports,
    [get_easter_sunday y] is the date of the anonymous Gregorian Computus
    (month [(h+l-7m+114) div 31], day [((h+l-7m+114) mod 31) + 1] of year
    [y]) in ISO form [YYYY-MM-DD]; the date always lies between 22 March
    and 25 April. *)
Theorem get_easter_sunday_is_computus (y : Z) :
  1 <= y <= 9999 ->
  let a := y mod 19 in
  let b := y / 100 in
  let c := y mod 100 in
  let d := b / 4 in
  let e := b mod 4 in
  let f := (b + 8) / 25 in
  let g := (b - f + 1) / 3 in
  let h := (19 * a + b - d - g + 15) mod 30 in
  let i := c / 4 in
  let k := c mod 4 in
  let l := (32 + 2 * e + 2 * i - h - k) mod 7 in
  let m := (a + 11 * h + 22 * l) / 451 in
  let month := (h + l - 7 * m + 114) / 31 in
  let day := (h + l - 7 * m + 114) mod 31 + 1 in
  get_easter_sunday y
  = Some (Py.zfill 4 y ++ "-" ++ Py.zfill 2 month ++ "-" ++ Py.zfill 2 day)
  /\ ((month = 3 /\ 22 <= day <= 31) \/ (month = 4 /\ 1 <= day <= 25)).
Proof.
  intros Hy a b c d e f g h i k l m month day.
  pose proof (computus_in_calendar y ltac:(lia)) as Hcal.
  cbv zeta in Hcal.
  fold a b c d e f g h i k l m in Hcal. fold month day in Hcal.
  split; [|exact Hcal].
  unfold get_easter_sunday, _compute_easter_sunday.
  fold a b c d e f g h i k l m. fold month day.
  assert (Hnew : Datetime.new y month day = Some (Datetime.mkdate y month day)).
  { unfold Datetime.new, Datetime.MINYEAR, Datetime.MAXYEAR.
    clearbody month day.
    assert (H3 : Datetime._days_in_month y 3 = 31) by reflexivity.
    assert (H4 : Datetime._days_in_month y 4 = 30) by reflexivity.
    destruct Hcal as [[-> Hd] | [-> Hd]]; [rewrite H3 | rewrite H4];
      repeat match goal with
             | |- context [?x <=? ?y] =>
                 let E := fresh in
                 destruct (Z.leb_spec x y) as [E | E]; try lia
             end; reflexivity. }
  rewrite Hnew. reflexivity.
Qed.

(** A witness of C5's theorem: Easter Sunday of 2025 is 20 April. *)
Lemma get_easter_sunday_is_computus_witness :
  get_easter_sunday 2025 = Some "2025-04-20".
Proof.
  assert (H : 1 <= 2025 <= 9999) by lia.
  exact (proj1 (get_easter_sunday_is_computus 2025 H)).
Defined.

End Easter.

(* ------------------------------------------------------------------ *)
(** ** Parish extraction *)
(* ------------------------------------------------------------------ *)

Section ExtractParish.

Import Addresses.

Lemma dict_get_in (k : string) (d : list (string * string)) (v : string) :
  dict_get k d = Some v -> In v (map snd d).
Proof.
  induction d as [| [k' v'] d IH]; simpl; [discriminate |].
  destruct (String.eqb k k').
  - intros [= ->]. now left.
  - intros H. right. now apply IH.
Qed.

Lemma in_set_In (x : string) (l : list string) :
  in_set x l = true -> In x l.
Proof.
  unfold in_set. rewrite existsb_exists. intros [y [Hy Heq]].
  apply String.eqb_eq in Heq. now subst.
Qed.

Lemma lower_map_values : map snd _PARISH_LOWER_MAP = PARISH_NAMES.
Proof. reflexivity. Qed.

Lemma alias_values (v : string) :
  In v (map snd PARISH_ALIASES) -> In v PARISH_NAMES.
Proof.
  assert (H : forallb (fun v => in_set v PARISH_NAMES) (map snd PARISH_ALIASES) = true)
    by reflexivity.
  rewrite forallb_forall in H. intros Hv. apply in_set_In. now apply H.
Qed.

Lemma _resolve_parish_canonical (text p : string) :
  _resolve_parish text = Some p -> In p PARISH_NAMES.
Proof.
  unfold _resolve_parish.
  destruct (in_set _ _PARISH_LOWER_SET).
  - intros H. apply dict_get_in in H. now rewrite lower_map_values in H.
  - destruct (dict_get (Py.lower (Py.strip text)) PARISH_ALIASES) as [alias |] eqn:E;
      [| discriminate].
    destruct (Py.truthy alias); [| discriminate].
    intros [= <-]. apply alias_values. eapply dict_get_in; eassumption.
Qed.

Lemma first_resolved_canonical (segs : list string) (p : string) :
  first_resolved segs = Some p -> In p PARISH_NAMES.
Proof.
  induction segs as [| seg rest IH]; simpl; [discriminate |].
  destruct (_resolve_parish seg) as [r |] eqn:E; [| exact IH].
  destruct (Py.truthy r); [| exact IH].
  intros [= <-]. eapply _resolve_parish_canonical; eassumption.
Qed.

Lemma first_name_in_member (names : list string) (lower_addr p : string) :
  first_name_in names lower_addr = Some p -> In p names.
Proof.
  induction names as [| n rest IH]; simpl; [discriminate |].
  destruct (Py.contains (Py.lower n) lower_addr).
  - intros [= <-]. now left.
  - intros H. right. now apply IH.
Qed.

Lemma first_short_alias_member (items : list (string * string)) (trimmed p : string) :
  first_short_alias items trimmed = Some p -> In p (map snd items).
Proof.
  induction items as [| [alias canonical] rest IH]; simpl; [discriminate |].
  destruct (String.length alias <=? 5)%nat.
  - destruct (Re.search _ _ trimmed).
    + intros [= <-]. now left.
    + intros H. right. now apply IH.
  - intros H. right. now apply IH.
Qed.

Lemma extract_parish_member (address p : string) :
  extract_parish address = Some p -> In p PARISH_NAMES.
Proof.
  unfold extract_parish.
  destruct (negb (Py.truthy (Py.strip address))); [discriminate |].
  destruct (Re.search true _KINGSTON_SECTOR_RE (Py.strip address)).
  { intros [= <-]. simpl. now left. }
  destruct (first_resolved _) as [r |] eqn:E1.
  { intros [= <-]. eapply first_resolved_canonical; eassumption. }
  destruct (first_name_in PARISH_NAMES _) as [n |] eqn:E2.
  { intros [= <-]. eapply first_name_in_member; eassumption. }
  intros H. apply alias_values. eapply first_short_alias_member; eassumption.
Qed.

(** C1: for every input string, [extract_parish] returns [None] or one of
    the 14 canonical names of [PARISH_NAMES]; for every canonical name
    [St. X] the variants [Saint X] and [St X] give [St. X]; the aliases
    [mobay] and [mo bay] give [St. James], [ochi] gives [St. Ann], and [sav]
    and [savanna-la-mar] give [Westmoreland]. *)
Theorem extract_parish_canonical :
  (forall address : string,
      extract_parish address = None
      \/ exists p, In p PARISH_NAMES /\ extract_parish address = Some p)
  /\ List.length PARISH_NAMES = 14%nat
  /\ (forall x : string,
         In ("St. " ++ x) PARISH_NAMES ->
         extract_parish ("Saint " ++ x) = Some ("St. " ++ x)
         /\ extract_parish ("St " ++ x) = Some ("St. " ++ x))
  /\ extract_parish "mobay" = Some "St. James"
  /\ extract_parish "mo bay" = Some "St. James"
  /\ extract_parish "ochi" = Some "St. Ann"
  /\ extract_parish "sav" = Some "Westmoreland"
  /\ extract_parish "savanna-la-mar" = Some "Westmoreland".
Proof.
  split; [| split; [reflexivity | split]].
  - intros address. destruct (extract_parish address) as [p |] eqn:E.
    + right. exists p. split; [| reflexivity]. now apply (extract_parish_member address).
    + now left.
  - intros x Hx. simpl in Hx.
    repeat (destruct Hx as [Hx | Hx];
            [try discriminate Hx; injection Hx as <-; split; vm_compute; reflexivity |]).
    contradiction.
  - repeat split; vm_compute; reflexivity.
Qed.

End ExtractParish.

(* ------------------------------------------------------------------ *)
(** ** Decimal digits as characters *)
(* ------------------------------------------------------------------ *)

Section Digits.

Definition is_digit (d : Z) : Prop := 0 <= d <= 9.

Lemma digit_cases (d : Z) :
  is_digit d ->
  d = 0 \/ d = 1 \/ d = 2 \/ d = 3 \/ d = 4 \/ d = 5 \/ d = 6 \/ d = 7 \/ d = 8 \/ d = 9.
Proof. unfold is_digit. lia. Qed.

Ltac by_digit H :=
  apply digit_cases in H;
  repeat (destruct H as [H | H]; [subst; reflexivity |]); subst; reflexivity.

Lemma isdigit_digit_char (d : Z) : is_digit d -> Py.isdigit (Py.digit_char d) = true.
Proof. intros H. by_digit H. Qed.

Lemma isspace_digit_char (d : Z) : is_digit d -> Py.isspace (Py.digit_char d) = false.
Proof. intros H. by_digit H. Qed.

Lemma digit_val_digit_char (d : Z) : is_digit d -> Py.digit_val (Py.digit_char d) = d.
Proof. intros H. by_digit H. Qed.

Lemma digit_char_not_dash (d : Z) :
  is_digit d -> Ascii.eqb (Py.digit_char d) "-" = false.
Proof. intros H. by_digit H. Qed.


End Digits.

(* ------------------------------------------------------------------ *)
(** ** Tax Registration Numbers *)
(* ------------------------------------------------------------------ *)

Section TrnFacts.

Import Trn.

(** The string of the digits [ds]. *)
Fixpoint digit_string (ds : list Z) : string :=
  match ds with
  | [] => ""
  | d :: ds' => String (Py.digit_char d) (digit_string ds')
  end.

(** The check digit the documentation describes, for the weighted sum
    [total]. *)
Definition check_digit_of_total (total : Z) : option Z :=
  let r := total mod 11 in
  if r =? 0 then Some 0 else if 11 - r =? 10 then None else Some (11 - r).

Ltac digits_known :=
  repeat match goal with
         | H : is_digit ?d |- context [Py.isdigit (Py.digit_char ?d)] =>
             rewrite (isdigit_digit_char d H)
         | H : is_digit ?d |- context [Py.isspace (Py.digit_char ?d)] =>
             rewrite (isspace_digit_char d H)
         | H : is_digit ?d |- context [Py.digit_val (Py.digit_char ?d)] =>
             rewrite (digit_val_digit_char d H)
         | H : is_digit ?d |- context [Ascii.eqb (Py.digit_char ?d) "-"] =>
             rewrite (digit_char_not_dash d H)
         end.

Lemma eight_digits_match (d1 d2 d3 d4 d5 d6 d7 d8 : Z) :
  is_digit d1 -> is_digit d2 -> is_digit d3 -> is_digit d4 ->
  is_digit d5 -> is_digit d6 -> is_digit d7 -> is_digit d8 ->
  exists m, Re.rmatch false _EIGHT_DIGITS
                      (digit_string [d1; d2; d3; d4; d5; d6; d7; d8]) = Some m.
Proof.
  intros H1 H2 H3 H4 H5 H6 H7 H8.
  unfold Re.rmatch, _EIGHT_DIGITS.
  cbn [Re.run Re.Times digit_string].
  digits_known. eexists. reflexivity.
Qed.

Lemma nine_digits_match (d1 d2 d3 d4 d5 d6 d7 d8 d9 : Z) :
  is_digit d1 -> is_digit d2 -> is_digit d3 -> is_digit d4 ->
  is_digit d5 -> is_digit d6 -> is_digit d7 -> is_digit d8 -> is_digit d9 ->
  exists m, Re.rmatch false _RAW_PATTERN
                      (digit_string [d1; d2; d3; d4; d5; d6; d7; d8; d9]) = Some m.
Proof.
  intros H1 H2 H3 H4 H5 H6 H7 H8 H9.
  unfold Re.rmatch, _RAW_PATTERN.
  cbn [Re.run Re.Times digit_string].
  digits_known. eexists. reflexivity.
Qed.

(** On a string of exactly 8 decimal digits the function computes the
    documented check digit. *)
Lemma get_trn_check_digit_formula (d1 d2 d3 d4 d5 d6 d7 d8 : Z) :
  is_digit d1 -> is_digit d2 -> is_digit d3 -> is_digit d4 ->
  is_digit d5 -> is_digit d6 -> is_digit d7 -> is_digit d8 ->
  get_trn_check_digit (digit_string [d1; d2; d3; d4; d5; d6; d7; d8])
  = check_digit_of_total
      (3 * d1 + 7 * d2 + 1 * d3 + 3 * d4 + 7 * d5 + 1 * d6 + 3 * d7 + 7 * d8).
Proof.
  intros H1 H2 H3 H4 H5 H6 H7 H8.
  unfold get_trn_check_digit.
  destruct (eight_digits_match d1 d2 d3 d4 d5 d6 d7 d8) as [m ->]; try assumption.
  unfold weighted_sum, _WEIGHTS.
  cbn [digit_string list_ascii_of_string combine map fold_left fst snd].
  digits_known.
  unfold check_digit_of_total.
  replace (0 + d1 * 3 + d2 * 7 + d3 * 1 + d4 * 3 + d5 * 7 + d6 * 1 + d7 * 3 + d8 * 7)
    with (3 * d1 + 7 * d2 + 1 * d3 + 3 * d4 + 7 * d5 + 1 * d6 + 3 * d7 + 7 * d8) by ring.
  set (r := _ mod 11).
  destruct (r =? 0); [reflexivity |].
  destruct (11 - r =? 10); reflexivity.
Qed.

Lemma check_digit_is_digit (total c : Z) :
  check_digit_of_total total = Some c -> is_digit c.
Proof.
  unfold check_digit_of_total, is_digit. cbv zeta.
  pose proof (Z.mod_pos_bound total 11 ltac:(lia)) as Hr.
  destruct (Z.eqb_spec (total mod 11) 0); [intros [= <-]; lia |].
  destruct (Z.eqb_spec (11 - total mod 11) 10); [discriminate |].
  intros H. assert (Hc : c = 11 - total mod 11) by congruence. lia.
Qed.


(** C4 (divergence): [get_trn_check_digit] returns the check digit 0 on
    eight digits followed by a newline, an input that is not exactly 8
    digits and for which the documented result is [None]; for the same
    reason [is_valid_trn] accepts a text that [unformat_trn] leaves as nine
    digits and a newline. *)
Theorem trn_patterns_accept_trailing_newline :
  let newline := String "010"%char "" in
  get_trn_check_digit ("00000000" ++ newline) = Some 0
  /\ unformat_trn ("000000000" ++ newline ++ "-") = "000000000" ++ newline
  /\ is_valid_trn ("000000000" ++ newline ++ "-") = true.
Proof. repeat split. Qed.



End TrnFacts.

(* ------------------------------------------------------------------ *)
(** ** Operations that are not functions of their arguments *)
(* ------------------------------------------------------------------ *)

Section Effects.

Import Trn Holidays Toolkit.





End Effects.

(* ------------------------------------------------------------------ *)
(** ** Examples from the docstrings and the tests *)
(* ------------------------------------------------------------------ *)

Section DocumentedExamples.

Local Open Scope string_scope.

(** The example in the docstring of [format_with_gct]. *)
Example format_with_gct_docstring :
  Currency.format_with_gct 1000
  = Some {| Currency.base := "J$1,000.00";
            Currency.gct := "J$150.00";
            Currency.total := "J$1,150.00" |}.
Proof. vm_compute. reflexivity. Qed.

(** [test_parse_invalid_returns_none], [test_raises_for_invalid],
    [test_unknown_for_invalid] and [test_invalid_returns_false] of
    [test_phone.py]. *)
Example phone_tests_on_invalid_text :
  Phone.parse_phone "not-a-number" = None
  /\ Phone.format_local "invalid" = None
  /\ Phone.get_carrier "invalid" = "unknown"
  /\ Phone.is_area_code_876 "invalid" = false
  /\ Phone.is_area_code_658 "invalid" = false
  /\ Phone.is_mobile "invalid" = false.
Proof. repeat split. Qed.

(** The four forms in the docstrings of the formatters. *)
Example phone_formats :
  Phone.format_local "+1 (876) 555-1234" = Some "555-1234"
  /\ Phone.format_national "8765551234" = Some "(876) 555-1234"
  /\ Phone.format_e164 "876-555-1234" = Some "+18765551234"
  /\ Phone.format_international "18765551234" = Some "+1 (876) 555-1234".
Proof. repeat split. Qed.

(** The labels of the three income-tax brackets. *)
Example get_income_tax_brackets_labels :
  map Tax.label Tax.get_income_tax_brackets
  = ["0 - 1,500,096 (Threshold)"; "1,500,097 - 7,500,096 (25%)";
     "Above 7,500,096 (30%)"].
Proof. reflexivity. Qed.

End DocumentedExamples.

(* ------------------------------------------------------------------ *)
(** ** The order of binary64 numbers *)
(* ------------------------------------------------------------------ *)

Section FloatOrder.

(** [x] is not a NaN: Python's [x == x]. *)
Definition is_number (x : float) : Prop := (x =? x)%float = true.

(** A key whose lexicographic order is the order of the numbers. *)
Definition sf_key (f : spec_float) : Z * Z * Z :=
  match f with
  | S754_nan => (0, 0, 0)
  | S754_zero _ => (0, 0, 0)
  | S754_infinity s => (if s then -2 else 2, 0, 0)
  | S754_finite s m e =>
      if s then (-1, - e, Zneg m) else (1, e, Zpos m)
  end.

Definition key_lt (a b : Z * Z * Z) : Prop :=
  let '(a1, a2, a3) := a in
  let '(b1, b2, b3) := b in
  a1 < b1 \/ (a1 = b1 /\ (a2 < b2 \/ (a2 = b2 /\ a3 < b3))).

Definition key_le (a b : Z * Z * Z) : Prop :=
  let '(a1, a2, a3) := a in
  let '(b1, b2, b3) := b in
  a1 < b1 \/ (a1 = b1 /\ (a2 < b2 \/ (a2 = b2 /\ a3 <= b3))).

Definition key (x : float) : Z * Z * Z := sf_key (Prim2SF x).

Lemma is_number_not_nan (x : float) : is_number x -> Prim2SF x <> S754_nan.
Proof.
  unfold is_number. rewrite eqb_spec. intros H E. rewrite E in H. discriminate H.
Qed.

Ltac compare_cases :=
  repeat match goal with
         | |- context [Z.compare ?a ?b] =>
             let E := fresh "E" in destruct (Z.compare_spec a b) as [E | E | E]
         | |- context [Pos.compare_cont Eq ?a ?b] =>
             change (Pos.compare_cont Eq a b) with (Pos.compare a b);
             let E := fresh "E" in destruct (Pos.compare_spec a b) as [E | E | E]
         end.

Lemma SFltb_key (f1 f2 : spec_float) :
  f1 <> S754_nan -> f2 <> S754_nan ->
  (SFltb f1 f2 = true <-> key_lt (sf_key f1) (sf_key f2)).
Proof.
  intros H1 H2. unfold SFltb, SFcompare.
  destruct f1 as [s1 | s1 | | s1 m1 e1]; destruct f2 as [s2 | s2 | | s2 m2 e2];
    try congruence;
    try destruct s1; try destruct s2; cbn [sf_key key_lt];
    compare_cases; cbn [CompOpp];
    split; intros H; try discriminate H; try reflexivity; try lia.
Qed.

Lemma SFleb_key (f1 f2 : spec_float) :
  f1 <> S754_nan -> f2 <> S754_nan ->
  (SFleb f1 f2 = true <-> key_le (sf_key f1) (sf_key f2)).
Proof.
  intros H1 H2. unfold SFleb, SFcompare.
  destruct f1 as [s1 | s1 | | s1 m1 e1]; destruct f2 as [s2 | s2 | | s2 m2 e2];
    try congruence;
    try destruct s1; try destruct s2; cbn [sf_key key_le];
    compare_cases; cbn [CompOpp];
    split; intros H; try discriminate H; try reflexivity; try lia.
Qed.

Lemma ltb_key (x y : float) :
  is_number x -> is_number y ->
  ((x <? y)%float = true <-> key_lt (key x) (key y)).
Proof.
  intros Hx Hy. rewrite ltb_spec.
  apply SFltb_key; now apply is_number_not_nan.
Qed.

Lemma leb_key (x y : float) :
  is_number x -> is_number y ->
  ((x <=? y)%float = true <-> key_le (key x) (key y)).
Proof.
  intros Hx Hy. rewrite leb_spec.
  apply SFleb_key; now apply is_number_not_nan.
Qed.

Lemma key_total (a b : Z * Z * Z) : key_lt a b \/ key_le b a.
Proof. destruct a as [[a1 a2] a3], b as [[b1 b2] b3]. cbn. lia. Qed.

Lemma key_lt_le_trans (a b c : Z * Z * Z) : key_lt a b -> key_le b c -> key_lt a c.
Proof.
  destruct a as [[a1 a2] a3], b as [[b1 b2] b3], c as [[c1 c2] c3]. cbn. lia.
Qed.

Lemma key_le_lt_trans (a b c : Z * Z * Z) : key_le a b -> key_lt b c -> key_lt a c.
Proof.
  destruct a as [[a1 a2] a3], b as [[b1 b2] b3], c as [[c1 c2] c3]. cbn. lia.
Qed.

Lemma key_le_trans (a b c : Z * Z * Z) : key_le a b -> key_le b c -> key_le a c.
Proof.
  destruct a as [[a1 a2] a3], b as [[b1 b2] b3], c as [[c1 c2] c3]. cbn. lia.
Qed.

Lemma key_lt_le (a b : Z * Z * Z) : key_lt a b -> key_le a b.
Proof. destruct a as [[a1 a2] a3], b as [[b1 b2] b3]. cbn. lia. Qed.

Lemma key_lt_not_le (a b : Z * Z * Z) : key_lt a b -> key_le b a -> False.
Proof. destruct a as [[a1 a2] a3], b as [[b1 b2] b3]. cbn. lia. Qed.

Lemma key_le_refl (a : Z * Z * Z) : key_le a a.
Proof. destruct a as [[a1 a2] a3]. cbn. lia. Qed.

Lemma ltb_false_le (x y : float) :
  is_number x -> is_number y -> (x <? y)%float = false -> key_le (key y) (key x).
Proof.
  intros Hx Hy H. destruct (key_total (key x) (key y)) as [Hlt | Hle]; [| exact Hle].
  apply (ltb_key x y Hx Hy) in Hlt. congruence.
Qed.

Lemma is_number_infinity : is_number infinity.
Proof. reflexivity. Qed.

Lemma key_le_infinity (x : float) : is_number x -> key_le (key x) (key infinity).
Proof.
  intros Hx. apply is_number_not_nan in Hx. unfold key.
  change (Prim2SF infinity) with (S754_infinity false).
  destruct (Prim2SF x) as [s | s | | s m e]; try congruence;
    try destruct s; cbn; lia.
Qed.

End FloatOrder.

(* ------------------------------------------------------------------ *)
(** ** Nearest parish *)
(* ------------------------------------------------------------------ *)

Section FindParish.

Import ParishLookup.

Variables libm_sin libm_cos : float -> float.
Variables libm_atan2 libm_pow : float -> float -> float.
Variable parish : Type.
Variables coord_lat coord_lng : parish -> float.
Variable parishes : list parish.
Variables lat lng : float.

(** The distance from [(lat, lng)] to the centre of [p]. *)
Definition centre_distance (p : parish) : option float :=
  _haversine libm_sin libm_cos libm_atan2 libm_pow lat lng (coord_lat p) (coord_lng p).

(** [p], the [i]-th record, is at distance [d], no record is nearer, and
    every record before it in data order is strictly farther. *)
Definition nearest_at (i : nat) (p : parish) (d : float) : Prop :=
  nth_error parishes i = Some p
  /\ centre_distance p = Some d
  /\ (forall j q dq,
         nth_error parishes j = Some q -> centre_distance q = Some dq ->
         (d <=? dq)%float = true)
  /\ (forall j q dq,
         (j < i)%nat ->
         nth_error parishes j = Some q -> centre_distance q = Some dq ->
         (d <? dq)%float = true).

(** Every distance is computed (no exception) and is a number. *)
Definition distances_defined : Prop :=
  forall p, In p parishes ->
            exists d, centre_distance p = Some d /\ is_number d.

(** The state of the loop after the records [pre]. *)
Definition loop_inv (pre : list parish) (best : option parish) (bd : float) : Prop :=
  is_number bd
  /\ (forall q dq, In q pre -> centre_distance q = Some dq -> key_le (key bd) (key dq))
  /\ match best with
     | None => bd = infinity
     | Some p =>
         exists i, nth_error pre i = Some p
                   /\ centre_distance p = Some bd
                   /\ forall j q dq,
                       (j < i)%nat -> nth_error pre j = Some q ->
                       centre_distance q = Some dq -> key_lt (key bd) (key dq)
     end.

Lemma find_loop_inv (rest : list parish) :
  distances_defined ->
  forall pre best bd,
    parishes = (pre ++ rest)%list ->
    loop_inv pre best bd ->
    exists best' bd',
      find_loop libm_sin libm_cos libm_atan2 libm_pow coord_lat coord_lng lat lng rest best bd
      = Some (best', bd')
      /\ loop_inv parishes best' bd'.
Proof.
  intros Hdef. induction rest as [| p rest IH]; intros pre best bd Heq Hinv.
  - rewrite app_nil_r in Heq. subst pre. exists best, bd. split; [reflexivity | exact Hinv].
  - destruct (Hdef p) as [d [Hd Hnum]].
    { rewrite Heq. apply in_or_app. right. now left. }
    cbn [find_loop]. fold (centre_distance p). rewrite Hd. cbn [Err.bind].
    destruct Hinv as (Hbd & Hall & Hbest).
    assert (Heq' : parishes = ((pre ++ [p]) ++ rest)%list)
      by (rewrite <- app_assoc; exact Heq).
    destruct (d <? bd)%float eqn:Hlt.
    + apply (ltb_key d bd Hnum Hbd) in Hlt.
      apply (IH (pre ++ [p])%list (Some p) d Heq').
      split; [exact Hnum | split].
      * intros q dq Hq Hdq. apply in_app_or in Hq. destruct Hq as [Hq | [<- | []]].
        -- apply key_lt_le. eapply key_lt_le_trans; [exact Hlt | eauto].
        -- assert (dq = d) by congruence. subst dq. apply key_le_refl.
      * exists (List.length pre). split; [| split; [exact Hd |]].
        -- rewrite nth_error_app2 by lia. now rewrite Nat.sub_diag.
        -- intros j q dq Hj Hq Hdq. rewrite nth_error_app1 in Hq by exact Hj.
           eapply key_lt_le_trans; [exact Hlt |].
           eapply Hall; [eapply nth_error_In; exact Hq | exact Hdq].
    + apply (ltb_false_le d bd Hnum Hbd) in Hlt.
      apply (IH (pre ++ [p])%list best bd Heq').
      split; [exact Hbd | split].
      * intros q dq Hq Hdq. apply in_app_or in Hq. destruct Hq as [Hq | [<- | []]].
        -- eauto.
        -- assert (dq = d) by congruence. now subst dq.
      * destruct best as [b |]; [| exact Hbest].
        destruct Hbest as (i & Hi & Hb & Hbefore).
        assert (Hlen : (i < List.length pre)%nat)
          by (apply nth_error_Some; congruence).
        exists i. split; [| split; [exact Hb |]].
        -- now rewrite nth_error_app1 by exact Hlen.
        -- intros j q dq Hj Hq Hdq. rewrite nth_error_app1 in Hq by lia.
           eapply Hbefore; eassumption.
Qed.

Lemma nearest_number (i : nat) (p : parish) (d : float) :
  distances_defined -> nearest_at i p d -> is_number d.
Proof.
  intros Hdef (Hi & Hd & _). destruct (Hdef p) as [d' [Hd' Hnum]].
  - eapply nth_error_In; exact Hi.
  - congruence.
Qed.

(** X28: when the distance to every centre is computed (nothing raises)
    and is no NaN, [find_parish] returns the record at the minimum
    haversine distance (earth radius 6371 km), the earliest one in data
    order among those at that distance, and returns [None] exactly when
    that minimum distance exceeds 150 km; such a record exists as soon as
    there is a record at all. *)
Theorem find_parish_nearest :
  distances_defined ->
  (forall i p d,
      nearest_at i p d ->
      find_parish libm_sin libm_cos libm_atan2 libm_pow coord_lat coord_lng parishes lat lng
      = Some (if (150 <? d)%float then None else Some p))
  /\ (parishes <> [] -> exists i p d, nearest_at i p d)
  /\ (parishes = [] ->
      find_parish libm_sin libm_cos libm_atan2 libm_pow coord_lat coord_lng parishes lat lng
      = Some None).
Proof.
  intros Hdef.
  destruct (find_loop_inv parishes Hdef [] None infinity eq_refl)
    as (best & bd & Hloop & Hbd & Hall & Hbest).
  { split; [exact is_number_infinity | split; [| reflexivity]].
    intros q dq []. }
  assert (H150 : is_number 150%float) by reflexivity.
  split; [| split].
  - intros i p d Hnear.
    pose proof (nearest_number i p d Hdef Hnear) as Hd.
    destruct Hnear as (Hi & Hdist & Hmin & Hfirst).
    unfold find_parish. rewrite Hloop. cbn [Err.bind].
    assert (Hle : key_le (key bd) (key d))
      by (eapply Hall; [eapply nth_error_In; exact Hi | exact Hdist]).
    destruct best as [b |].
    + destruct Hbest as (i' & Hi' & Hb & Hbefore).
      assert (Hge : key_le (key d) (key bd))
        by (apply (leb_key d bd Hd Hbd); exact (Hmin i' b bd Hi' Hb)).
      assert (Hii : i = i').
      { destruct (Nat.lt_trichotomy i i') as [Hlt | [Heq | Hgt]]; [| exact Heq |].
        - exfalso. eapply key_lt_not_le; [| exact Hge].
          exact (Hbefore i p d Hlt Hi Hdist).
        - exfalso. eapply key_lt_not_le; [| exact Hle].
          apply (ltb_key d bd Hd Hbd). exact (Hfirst i' b bd Hgt Hi' Hb). }
      subst i'. assert (b = p) by congruence. subst b.
      assert (Hsame : (150 <? bd)%float = (150 <? d)%float).
      { destruct (150 <? d)%float eqn:E1; destruct (150 <? bd)%float eqn:E2;
          try reflexivity; exfalso.
        - apply (ltb_key _ _ H150 Hd) in E1.
          apply (ltb_false_le _ _ H150 Hbd) in E2.
          eapply key_lt_not_le; [exact E1 |].
          eapply key_le_trans; eassumption.
        - apply (ltb_key _ _ H150 Hbd) in E2.
          apply (ltb_false_le _ _ H150 Hd) in E1.
          eapply key_lt_not_le; [exact E2 |].
          eapply key_le_trans; eassumption. }
      rewrite Hsame. destruct (150 <? d)%float; reflexivity.
    + subst bd. change (150 <? infinity)%float with true. cbn match.
      assert (E : (150 <? d)%float = true).
      { apply (ltb_key _ _ H150 Hd).
        eapply key_lt_le_trans; [| exact Hle].
        apply (ltb_key _ _ H150 is_number_infinity). reflexivity. }
      now rewrite E.
  - intros Hne. destruct best as [b |].
    + destruct Hbest as (i & Hi & Hb & Hbefore).
      exists i, b, bd. split; [exact Hi | split; [exact Hb | split]].
      * intros j q dq Hq Hdq.
        destruct (Hdef q) as [dq' [Hdq' Hnum]]; [eapply nth_error_In; exact Hq |].
        assert (dq' = dq) by congruence. subst dq'.
        apply (leb_key bd dq Hbd Hnum). eapply Hall; [eapply nth_error_In |]; eassumption.
      * intros j q dq Hj Hq Hdq.
        destruct (Hdef q) as [dq' [Hdq' Hnum]]; [eapply nth_error_In; exact Hq |].
        assert (dq' = dq) by congruence. subst dq'.
        apply (ltb_key bd dq Hbd Hnum). eapply Hbefore; eassumption.
    + (* every distance is infinite: the first record is the nearest *)
      assert (H0 : exists p0, nth_error parishes 0 = Some p0).
      { clear - Hne. destruct parishes as [| p0 rest]; [congruence |].
        exists p0. reflexivity. }
      destruct H0 as [p0 Hp0].
      destruct (Hdef p0) as [d0 [Hd0 Hn0]]; [eapply nth_error_In; exact Hp0 |].
      exists 0%nat, p0, d0.
      split; [exact Hp0 | split; [exact Hd0 | split]].
      * intros j q dq Hq Hdq.
        destruct (Hdef q) as [dq' [Hdq' Hnum]]; [eapply nth_error_In; exact Hq |].
        assert (dq' = dq) by congruence. subst dq'.
        apply (leb_key d0 dq Hn0 Hnum).
        eapply key_le_trans; [apply key_le_infinity; exact Hn0 |].
        subst bd. eapply Hall; [eapply nth_error_In |]; eassumption.
      * intros j q dq Hj. lia.
  - intros Hnil. unfold find_parish. rewrite Hnil. reflexivity.
Qed.

(** The loop raises as soon as the distance to one centre raises. *)
Lemma find_loop_raises (p : parish) (l : list parish) :
  In p l -> centre_distance p = None ->
  forall best bd,
    find_loop libm_sin libm_cos libm_atan2 libm_pow coord_lat coord_lng lat lng l best bd
    = None.
Proof.
  intros Hin Hp. induction l as [| q l IH]; intros best bd; [contradiction |].
  cbn [find_loop]. fold (centre_distance q).
  destruct Hin as [-> | Hin].
  - rewrite Hp. reflexivity.
  - destruct (centre_distance q) as [d |]; [| reflexivity].
    cbn [Err.bind]. destruct (d <? bd)%float; apply IH; exact Hin.
Qed.

Lemma is_infinity_of (x : float) (s : bool) :
  Prim2SF x = S754_infinity s -> is_infinity x = true.
Proof.
  intros H. unfold is_infinity. rewrite eqb_spec, abs_spec, H. reflexivity.
Qed.

(** On an infinite latitude [math.sin] raises, and so does [find_parish],
    as soon as the data has a record with a finite latitude. *)
Lemma find_parish_raises_at_infinity (p : parish) :
  In p parishes -> is_finite (coord_lat p) = true -> Prim2SF lat = S754_infinity false ->
  find_parish libm_sin libm_cos libm_atan2 libm_pow coord_lat coord_lng parishes lat lng
  = None.
Proof.
  intros Hin Hfin Hlat. unfold find_parish.
  rewrite (find_loop_raises p parishes Hin); [reflexivity |].
  unfold centre_distance, _haversine. cbv zeta.
  assert (Hinf : is_infinity (math_radians (coord_lat p - lat) / 2) = true).
  { apply (is_infinity_of _ true).
    unfold math_radians. rewrite div_spec, mul_spec, sub_spec, Hlat.
    unfold is_finite, is_nan, is_infinity in Hfin.
    rewrite !eqb_spec, abs_spec in Hfin.
    destruct (Prim2SF (coord_lat p)) as [sg | sg | | sg m e];
      try discriminate Hfin; try reflexivity.
    destruct sg; discriminate Hfin. }
  unfold math_sin at 1. rewrite Hinf. reflexivity.
Qed.

End FindParish.

(** Two records and small-angle stand-ins for the C library's functions,
    to run [find_parish] on. *)
Definition sample_parishes : list (float * float) :=
  [(18, -76.75)%float; (18.5, -77.875)%float].

Definition sample_find_parish (lat lng : float) : option (option (float * float)) :=
  ParishLookup.find_parish (fun x => x) (fun _ => 1%float) PrimFloat.div
                           (fun x _ => (x * x)%float)
                           fst snd sample_parishes lat lng.

(** A witness of X28: at the centre of the first record the hypothesis
    holds and that record is returned. *)
Lemma find_parish_nearest_witness :
  sample_find_parish 18 (-76.75) = Some (Some (18, -76.75)%float).
Proof.
  assert (Hdef : distances_defined (fun x => x) (fun _ => 1%float) PrimFloat.div
                                   (fun x _ => (x * x)%float)
                                   (float * float) fst snd sample_parishes
                                   18 (-76.75)).
  { intros p [<- | [<- | []]]; eexists; (split; [vm_compute; reflexivity | reflexivity]). }
  assert (Hnear : nearest_at (fun x => x) (fun _ => 1%float) PrimFloat.div
                             (fun x _ => (x * x)%float)
                             (float * float) fst snd sample_parishes
                             18 (-76.75) 0 (18, -76.75)%float 0%float).
  { split; [reflexivity | split; [reflexivity | split]].
    - intros [| [| j]] q dq Hq Hdq; cbn in Hq.
      + injection Hq as <-. vm_compute in Hdq. injection Hdq as <-. reflexivity.
      + injection Hq as <-. vm_compute in Hdq. injection Hdq as <-. reflexivity.
      + destruct j; discriminate Hq.
    - intros j q dq Hj. inversion Hj. }
  exact (proj1 (find_parish_nearest (fun x => x) (fun _ => 1%float) PrimFloat.div
                                    (fun x _ => (x * x)%float)
                                    (float * float) fst snd sample_parishes
                                    18 (-76.75) Hdef)
               0%nat (18, -76.75)%float 0%float Hnear).
Defined.

(* ------------------------------------------------------------------ *)
(** ** A coordinate near the antipode of a centre *)
(* ------------------------------------------------------------------ *)

Section NearAntipode.

Import ParishLookup.

Local Open Scope float_scope.

(** The coordinate pair (-18.017900030724114, 103.19010060118042), a
    latitude and a longitude as [POST /reverse] accepts them, and the
    centre (18.0179, -76.8099) of a parish record. *)
Definition far_lat : float := -0x1.2049518ae8eb6p+4.
Definition far_lng : float := 0x1.9cc2a9bb64145p+6.
Definition centre_lat : float := 0x1.20495182a9931p+4.
Definition centre_lng : float := -0x1.333d566cf41f2p+6.

(** What the C library (glibc 2.36, x86-64) returns for [sin], [cos] and
    [pow] at the arguments that [_haversine] passes on this input. *)
Definition sin_half_dlat : float := 0x1.3cbcd60fce031p-2.
Definition sin_half_dlat_squared : float := 0x1.87e2bbc21ecc9p-4.
Definition cos_far_lat : float := 0x1.e6e438417343bp-1.
Definition cos_centre_lat : float := 0x1.e6e43842e001cp-1.
Definition sin_half_dlng : float := -1.

Definition observed (libm_sin libm_cos : float -> float)
           (libm_pow : float -> float -> float) : Prop :=
  libm_sin (math_radians (centre_lat - far_lat) / 2) = sin_half_dlat
  /\ libm_pow sin_half_dlat 2 = sin_half_dlat_squared
  /\ libm_cos (math_radians far_lat) = cos_far_lat
  /\ libm_cos (math_radians centre_lat) = cos_centre_lat
  /\ libm_sin (math_radians (centre_lng - far_lng) / 2) = sin_half_dlng.

Variables libm_sin libm_cos : float -> float.
Variables libm_atan2 libm_pow : float -> float -> float.
Variable parish : Type.
Variables coord_lat coord_lng : parish -> float.

(** C2 (divergence): the coordinate pair (-18.017900030724114,
    103.19010060118042) lies some 20,000 km from the centre (18.0179,
    -76.8099), so the nearest-parish rule and the docstring of
    [find_parish] give [None] for it (as long as the other centres are
    more than 150 km away); but the term [a] of [_haversine] comes out as
    1.0000000000000002, [math.sqrt(1 - a)] raises [ValueError], and
    [find_parish] raises instead of returning, whatever the other records
    are. *)
Theorem find_parish_raises_near_antipode (parishes : list parish) (p : parish) :
  observed libm_sin libm_cos libm_pow ->
  In p parishes -> coord_lat p = centre_lat -> coord_lng p = centre_lng ->
  find_parish libm_sin libm_cos libm_atan2 libm_pow coord_lat coord_lng parishes
              far_lat far_lng
  = None.
Proof.
  intros (Hs1 & Hp1 & Hc1 & Hc2 & Hs2) Hin Hlat Hlng.
  unfold find_parish.
  rewrite (find_loop_raises libm_sin libm_cos libm_atan2 libm_pow parish
                            coord_lat coord_lng far_lat far_lng p parishes Hin);
    [reflexivity |].
  assert (E1 : math_sin libm_sin (math_radians (centre_lat - far_lat) / 2)
               = Some sin_half_dlat)
    by (unfold math_sin, math_1; rewrite Hs1; reflexivity).
  assert (E2 : float_pow_2 libm_pow sin_half_dlat = Some sin_half_dlat_squared).
  { unfold float_pow_2. cbv zeta.
    change (if sin_half_dlat <? 0 then - sin_half_dlat else sin_half_dlat)
      with sin_half_dlat.
    rewrite Hp1. reflexivity. }
  assert (E3 : math_cos libm_cos (math_radians far_lat) = Some cos_far_lat)
    by (unfold math_cos, math_1; rewrite Hc1; reflexivity).
  assert (E4 : math_cos libm_cos (math_radians centre_lat) = Some cos_centre_lat)
    by (unfold math_cos, math_1; rewrite Hc2; reflexivity).
  assert (E5 : math_sin libm_sin (math_radians (centre_lng - far_lng) / 2)
               = Some sin_half_dlng)
    by (unfold math_sin, math_1; rewrite Hs2; reflexivity).
  assert (E6 : float_pow_2 libm_pow sin_half_dlng = Some 1) by reflexivity.
  unfold centre_distance, _haversine. cbv zeta.
  rewrite Hlat, Hlng, E1. cbn [Err.bind]. rewrite E2. cbn [Err.bind].
  rewrite E3. cbn [Err.bind]. rewrite E4. cbn [Err.bind].
  rewrite E5. cbn [Err.bind]. rewrite E6. cbn [Err.bind].
  reflexivity.
Qed.

End NearAntipode.

(** Stand-ins for the C library's functions that return, at the arguments
    of this input, what the C library returns there. *)
Definition observed_sin (x : float) : float :=
  if (x <? 0)%float then sin_half_dlng else sin_half_dlat.

Definition observed_cos (x : float) : float :=
  if (x <? 0)%float then cos_far_lat else cos_centre_lat.

Definition observed_pow (x y : float) : float := sin_half_dlat_squared.

(** A witness of C2's theorem: the data of one record. *)
Lemma find_parish_raises_near_antipode_witness :
  ParishLookup.find_parish observed_sin observed_cos PrimFloat.div observed_pow
                           fst snd [(centre_lat, centre_lng)] far_lat far_lng
  = None.
Proof.
  apply (find_parish_raises_near_antipode
           observed_sin observed_cos PrimFloat.div observed_pow
           (float * float) fst snd [(centre_lat, centre_lng)] (centre_lat, centre_lng)).
  - repeat split; vm_compute; reflexivity.
  - left. reflexivity.
  - reflexivity.
  - reflexivity.
Defined.

(* ------------------------------------------------------------------ *)
(** ** Currency round trip *)
(* ------------------------------------------------------------------ *)

Section CurrencyRoundTrip.

Import Currency.

(** The exact value of [x] rounded to 2 decimal places, half away from
    zero, in hundredths: [sign x * floor (|x| * 100 + 1/2)]. *)
Definition exact_hundredths_half_away (x : float) : option Z :=
  match Prim2SF x with
  | S754_zero _ => Some 0
  | S754_finite s m e =>
      let num := Zpos m * 100 in
      let c := if 0 <=? e then num * 2 ^ e
               else (2 * num + 2 ^ (- e)) / (2 * 2 ^ (- e)) in
      Some (if s then - c else c)
  | S754_infinity _ | S754_nan => None
  end.

(** The binary64 numbers written 0.004999999999999999, 0.01, 2.675 and
    1e307 in Python. *)
Definition just_below_half_cent : float := 0x1.47ae147ae147ap-8%float.
Definition one_cent : float := 0x1.47ae147ae147bp-7%float.
Definition two_675 : float := 0x1.5666666666666p+1%float.
Definition ten_pow_307 : float := 0x1.c7b1f3cac7433p+1019%float.

(** C9 (divergence): the amount 0.004999999999999999 lies below half a
    cent, so rounded to 2 decimal places half away from zero it is 0.00,
    but [format_jmd] prints it as J$0.01 and the round trip returns 0.01;
    likewise 2.675, whose binary64 value lies below 2.675, comes back as
    2.68 and not 2.67; and on the finite amount 1e307 [format_jmd] raises
    instead of returning. *)
Theorem jmd_round_trip_is_not_exact_rounding :
  exact_hundredths_half_away just_below_half_cent = Some 0
  /\ format_jmd just_below_half_cent None = Some "J$0.01"
  /\ parse_jmd (format_jmd just_below_half_cent None) = Some one_cent
  /\ exact_hundredths_half_away two_675 = Some 267
  /\ format_jmd two_675 None = Some "J$2.68"
  /\ format_jmd ten_pow_307 None = None.
Proof. repeat split; vm_compute; reflexivity. Qed.

End CurrencyRoundTrip.

(* ------------------------------------------------------------------ *)
(** ** Public holidays: the Sunday rule *)
(* ------------------------------------------------------------------ *)

Section HolidayRule.

Import Holidays.

(** The observed date [o] of a holiday of calendar date [c], given the
    dates [occupied] by the holidays observed before it: [c] itself when
    [c] is no Sunday and is free, and otherwise the first free date after
    [c]. *)
Inductive observed_for (occupied : list Datetime.date) (c : Datetime.date)
  : Datetime.date -> Prop :=
| observed_keep :
    Datetime.weekday c <> 6 -> ~ In c occupied -> observed_for occupied c c
| observed_shift (k : Z) (o : Datetime.date) :
    Datetime.weekday c = 6 \/ In c occupied ->
    1 <= k ->
    Datetime.add_days c k = Some o ->
    ~ In o occupied ->
    (forall j, 1 <= j < k ->
               exists o', Datetime.add_days c j = Some o' /\ In o' occupied) ->
    observed_for occupied c o.

(** The holidays of calendar dates [calendar], taken in order, are
    observed on the dates [observed]; [occupied] are the dates observed
    before them. *)
Inductive observance
  : list Datetime.date -> list Datetime.date -> list Datetime.date -> Prop :=
| observance_nil occupied : observance occupied [] []
| observance_cons occupied c calendar o observed :
    observed_for occupied c o ->
    observance (o :: occupied) calendar observed ->
    observance occupied (c :: calendar) (o :: observed).

(** *** Deciding the rule *)

Lemma date_eqb_eq (a b : Datetime.date) : Datetime.eqb a b = true <-> a = b.
Proof.
  destruct a as [ya ma da], b as [yb mb db]. unfold Datetime.eqb. cbn.
  rewrite !andb_true_iff, !Z.eqb_eq. split.
  - intros [[-> ->] ->]. reflexivity.
  - intros [= -> -> ->]. repeat split.
Qed.

Definition mem_date (d : Datetime.date) (l : list Datetime.date) : bool :=
  existsb (Datetime.eqb d) l.

Lemma mem_date_In (d : Datetime.date) (l : list Datetime.date) :
  mem_date d l = true <-> In d l.
Proof.
  unfold mem_date. rewrite existsb_exists. split.
  - intros [x [Hx Heq]]. apply date_eqb_eq in Heq. now subst.
  - intros H. exists d. split; [exact H | now apply date_eqb_eq].
Qed.

Lemma mem_date_not_In (d : Datetime.date) (l : list Datetime.date) :
  mem_date d l = false -> ~ In d l.
Proof. intros H Hin. apply mem_date_In in Hin. congruence. Qed.

(** The first free date [k], [k + 1], ... days after [c]. *)
Fixpoint shift_search (fuel : nat) (k : Z) (c : Datetime.date)
         (occupied : list Datetime.date) : option (Z * Datetime.date) :=
  match fuel with
  | O => None
  | S f =>
      match Datetime.add_days c k with
      | None => None
      | Some o =>
          if mem_date o occupied then shift_search f (k + 1) c occupied
          else Some (k, o)
      end
  end.

Lemma shift_search_sound (fuel : nat) :
  forall k0 c occupied k o,
    shift_search fuel k0 c occupied = Some (k, o) ->
    k0 <= k
    /\ Datetime.add_days c k = Some o
    /\ ~ In o occupied
    /\ forall j, k0 <= j < k ->
                 exists o', Datetime.add_days c j = Some o' /\ In o' occupied.
Proof.
  induction fuel as [| fuel IH]; intros k0 c occupied k o H; [discriminate H |].
  cbn [shift_search] in H.
  destruct (Datetime.add_days c k0) as [o0 |] eqn:Hadd; [| discriminate H].
  destruct (mem_date o0 occupied) eqn:Hmem.
  - destruct (IH _ _ _ _ _ H) as (Hk & Ho & Hfree & Hbefore).
    split; [lia | split; [exact Ho | split; [exact Hfree |]]].
    intros j Hj. destruct (Z.eq_dec j k0) as [-> | Hne].
    + exists o0. split; [exact Hadd | now apply mem_date_In].
    + apply Hbefore. lia.
  - injection H as <- <-.
    split; [lia | split; [exact Hadd | split; [now apply mem_date_not_In |]]].
    intros j Hj. lia.
Qed.

Definition observed_for_b (occupied : list Datetime.date) (c o : Datetime.date)
  : bool :=
  if (Datetime.weekday c =? 6) || mem_date c occupied
  then match shift_search 8 1 c occupied with
       | Some (_, o') => Datetime.eqb o' o
       | None => false
       end
  else Datetime.eqb o c.

Lemma observed_for_b_sound (occupied : list Datetime.date) (c o : Datetime.date) :
  observed_for_b occupied c o = true -> observed_for occupied c o.
Proof.
  unfold observed_for_b.
  destruct (Z.eqb_spec (Datetime.weekday c) 6) as [Hsun | Hsun];
    destruct (mem_date c occupied) eqn:Hmem; cbn [orb].
  4: { intros H. apply date_eqb_eq in H. subst o.
       apply observed_keep; [exact Hsun | now apply mem_date_not_In]. }
  all: destruct (shift_search 8 1 c occupied) as [[k o'] |] eqn:Hs;
    [| discriminate];
    intros H; apply date_eqb_eq in H; subst o';
    destruct (shift_search_sound _ _ _ _ _ _ Hs) as (Hk & Ho & Hfree & Hbefore);
    apply (observed_shift occupied c k o); try assumption.
  - now left.
  - now left.
  - right. now apply mem_date_In.
Qed.

Fixpoint observance_b (occupied calendar observed : list Datetime.date) : bool :=
  match calendar, observed with
  | [], [] => true
  | c :: calendar', o :: observed' =>
      observed_for_b occupied c o && observance_b (o :: occupied) calendar' observed'
  | _, _ => false
  end.

Lemma observance_b_sound (calendar : list Datetime.date) :
  forall occupied observed,
    observance_b occupied calendar observed = true ->
    observance occupied calendar observed.
Proof.
  induction calendar as [| c calendar IH]; intros occupied [| o observed] H;
    cbn [observance_b] in H; try discriminate H.
  - constructor.
  - apply andb_true_iff in H. destruct H as [H1 H2].
    constructor; [now apply observed_for_b_sound | now apply IH].
Qed.

(** *** Dates in increasing order *)

Definition date_lt (a b : Datetime.date) : Prop :=
  Datetime.year a < Datetime.year b
  \/ (Datetime.year a = Datetime.year b
      /\ (Datetime.month a < Datetime.month b
          \/ (Datetime.month a = Datetime.month b
              /\ Datetime.day a < Datetime.day b))).

Lemma date_ltb_lt (a b : Datetime.date) : Datetime.ltb a b = true <-> date_lt a b.
Proof.
  unfold Datetime.ltb, date_lt.
  rewrite !orb_true_iff, !andb_true_iff, !orb_true_iff, !andb_true_iff,
    !Z.ltb_lt, !Z.eqb_eq.
  reflexivity.
Qed.

Fixpoint increasing (ds : list Datetime.date) : bool :=
  match ds with
  | a :: (b :: _) as rest => Datetime.ltb a b && increasing rest
  | _ => true
  end.

Lemma increasing_sorted (ds : list Datetime.date) :
  increasing ds = true ->
  StronglySorted (fun a b => Datetime.ltb a b = true) ds.
Proof.
  intros H. apply Sorted_StronglySorted.
  - intros a b c Hab Hbc. apply date_ltb_lt in Hab, Hbc. apply date_ltb_lt.
    unfold date_lt in *. lia.
  - induction ds as [| a [| b rest] IH]; [constructor | repeat constructor |].
    cbn [increasing] in H. apply andb_true_iff in H. destruct H as [Hab Hrest].
    constructor; [now apply IH | constructor; exact Hab].
Qed.

Lemma strongly_sorted_NoDup (ds : list Datetime.date) :
  StronglySorted (fun a b => Datetime.ltb a b = true) ds -> NoDup ds.
Proof.
  induction 1 as [| a l Hs IH Hall]; constructor; [| exact IH].
  intros Hin. rewrite Forall_forall in Hall. specialize (Hall a Hin).
  apply date_ltb_lt in Hall. unfold date_lt in Hall. lia.
Qed.

Lemma NoDup_map_Some {A : Type} (l : list A) : NoDup l -> NoDup (map Some l).
Proof.
  induction 1 as [| a l Hin Hnd IH]; cbn [map]; constructor; [| exact IH].
  intros H. apply in_map_iff in H. destruct H as [z [[= ->] Hz]]. contradiction.
Qed.

(** *** Parsing a list of date strings *)

Fixpoint parse_all (l : list string) : option (list Datetime.date) :=
  match l with
  | [] => Some []
  | s :: l' =>
      match _parse s, parse_all l' with
      | Some d, Some ds => Some (d :: ds)
      | _, _ => None
      end
  end.

Lemma parse_all_map (l : list string) (ds : list Datetime.date) :
  parse_all l = Some ds -> map _parse l = map Some ds.
Proof.
  revert ds. induction l as [| s l IH]; intros ds H; cbn [parse_all] in H.
  - injection H as <-. reflexivity.
  - destruct (_parse s) as [d |] eqn:Hd; [| discriminate H].
    destruct (parse_all l) as [ds' |]; [| discriminate H].
    injection H as <-. cbn [map]. rewrite Hd. f_equal. now apply IH.
Qed.

(** *** What the sort keeps *)

Lemma In_insert_by_date (h x : Holiday) (l : list Holiday) :
  In h (insert_by_date x l) <-> h = x \/ In h l.
Proof.
  induction l as [| a l IH]; cbn [insert_by_date].
  - cbn. intuition congruence.
  - destruct (Py.str_ltb (date x) (date a)); cbn [In]; [intuition congruence |].
    rewrite IH. intuition congruence.
Qed.

Lemma In_fold_insert (h : Holiday) (l acc : list Holiday) :
  In h (fold_left (fun acc h => insert_by_date h acc) l acc) <-> In h l \/ In h acc.
Proof.
  revert acc. induction l as [| a l IH]; intros acc; cbn [fold_left].
  - cbn. tauto.
  - rewrite IH, In_insert_by_date. cbn [In]. intuition congruence.
Qed.

Lemma In_sorted_by_date (h : Holiday) (l : list Holiday) :
  In h (sorted_by_date l) <-> In h l.
Proof. unfold sorted_by_date. rewrite In_fold_insert. cbn. tauto. Qed.

Lemma get_holidays_parts (y : Z) (l : list Holiday) :
  get_holidays y = Some l ->
  exists fixed moveable_hs,
    _apply_sunday_substitution (_fixed_holidays y) = Some fixed
    /\ _moveable_holidays y = Some moveable_hs
    /\ l = sorted_by_date (fixed ++ moveable_hs)%list.
Proof.
  unfold get_holidays, Err.bind.
  destruct (_apply_sunday_substitution (_fixed_holidays y)) as [fixed |];
    [| discriminate].
  destruct (_moveable_holidays y) as [mv |]; [| discriminate].
  intros [= <-]. exists fixed, mv. repeat split.
Qed.

Lemma _moveable_holidays_four (y : Z) (moveable_hs : list Holiday) :
  _moveable_holidays y = Some moveable_hs ->
  List.length moveable_hs = 4%nat
  /\ Forall (fun h => moveable h = true) moveable_hs.
Proof.
  unfold _moveable_holidays, Err.bind.
  destruct (_compute_easter_sunday y); [| discriminate].
  repeat match goal with
         | |- context [match ?x with Some _ => _ | None => None end] =>
             destruct x; [| discriminate]
         end.
  intros [= <-]. split; [reflexivity | repeat constructor].
Qed.

(** *** One year, and every year *)

Definition holiday_names : list string :=
  [ "New Year's Day"; "Ash Wednesday"; "Good Friday"; "Easter Monday";
    "Labour Day"; "Emancipation Day"; "Independence Day";
    "National Heroes Day"; "Christmas Day"; "Boxing Day" ].

Definition moveable_flags : list bool :=
  [false; true; true; true; false; false; false; true; false; false].

Fixpoint list_eqb {A : Type} (eqb : A -> A -> bool) (l1 l2 : list A) : bool :=
  match l1, l2 with
  | [], [] => true
  | a :: l1', b :: l2' => eqb a b && list_eqb eqb l1' l2'
  | _, _ => false
  end.

Lemma list_eqb_eq {A : Type} (eqb : A -> A -> bool) :
  (forall a b, eqb a b = true -> a = b) ->
  forall l1 l2, list_eqb eqb l1 l2 = true -> l1 = l2.
Proof.
  intros Heq. induction l1 as [| a l1 IH]; intros [| b l2] H;
    cbn [list_eqb] in H; try discriminate H; [reflexivity |].
  apply andb_true_iff in H. destruct H as [H1 H2].
  f_equal; [now apply Heq | now apply IH].
Qed.

(** The dates of the holidays whose flag [moveable] is off. *)
Fixpoint fixed_dates (flags : list bool) (ds : list Datetime.date)
  : list Datetime.date :=
  match flags, ds with
  | f :: flags', d :: ds' =>
      if f then fixed_dates flags' ds' else d :: fixed_dates flags' ds'
  | _, _ => []
  end.

Definition year_ok (y : Z) : bool :=
  match get_holidays y, parse_all (map date (_fixed_holidays y)) with
  | Some l, Some calendar =>
      match parse_all (map date l) with
      | Some ds =>
          list_eqb String.eqb (map name l) holiday_names
          && list_eqb Bool.eqb (map moveable l) moveable_flags
          && increasing ds
          && observance_b [] calendar (fixed_dates (map moveable l) ds)
      | None => false
      end
  | _, _ => false
  end.

Fixpoint all_from (n : nat) (y : Z) (p : Z -> bool) : bool :=
  match n with
  | O => true
  | S n' => p y && all_from n' (y + 1) p
  end.

Lemma all_from_spec (p : Z -> bool) (n : nat) :
  forall y0, all_from n y0 p = true ->
             forall y, y0 <= y < y0 + Z.of_nat n -> p y = true.
Proof.
  induction n as [| n IH]; intros y0 H y Hy; [lia |].
  cbn [all_from] in H. apply andb_true_iff in H. destruct H as [H0 Hrest].
  destruct (Z.eq_dec y y0) as [-> | Hne]; [exact H0 |].
  apply (IH (y0 + 1) Hrest). lia.
Qed.

(** The number of years from 1000 to 9999. *)
Definition year_count : nat := Z.to_nat 9000.

(** Every year from 1000 to 9999 is checked by evaluation. *)
Lemma all_years_ok : all_from year_count 1000 year_ok = true.
Proof. vm_compute. reflexivity. Qed.

Lemma year_ok_facts (y : Z) :
  1000 <= y <= 9999 ->
  exists l calendar ds,
    get_holidays y = Some l
    /\ parse_all (map date (_fixed_holidays y)) = Some calendar
    /\ parse_all (map date l) = Some ds
    /\ map name l = holiday_names
    /\ map moveable l = moveable_flags
    /\ increasing ds = true
    /\ observance_b [] calendar (fixed_dates (map moveable l) ds) = true.
Proof.
  intros Hy.
  assert (H : year_ok y = true).
  { apply (all_from_spec year_ok year_count 1000 all_years_ok).
    unfold year_count. rewrite Z2Nat.id; lia. }
  unfold year_ok in H.
  destruct (get_holidays y) as [l |] eqn:E1; [| discriminate H].
  destruct (parse_all (map date (_fixed_holidays y))) as [calendar |] eqn:E2;
    [| discriminate H].
  destruct (parse_all (map date l)) as [ds |] eqn:E3; [| discriminate H].
  apply andb_true_iff in H. destruct H as [H H4].
  apply andb_true_iff in H. destruct H as [H H3].
  apply andb_true_iff in H. destruct H as [H1 H2].
  exists l, calendar, ds.
  do 3 (split; [first [reflexivity | assumption] |]).
  split; [| split; [| split; assumption]].
  - apply (list_eqb_eq String.eqb); [| exact H1].
    intros a b E. now apply String.eqb_eq.
  - apply (list_eqb_eq Bool.eqb); [| exact H2].
    intros a b E. now apply Bool.eqb_prop.
Qed.

(** The list of a year, split by the flag [moveable]. *)
Lemma fixed_part (l : list Holiday) (ds : list Datetime.date) :
  map name l = holiday_names ->
  map moveable l = moveable_flags ->
  map (fun h => _parse (date h)) l = map Some ds ->
  List.length l = 10%nat
  /\ List.length (filter (fun h => negb (moveable h)) l) = 6%nat
  /\ List.length (filter moveable l) = 4%nat
  /\ map name (filter (fun h => negb (moveable h)) l)
     = [ "New Year's Day"; "Labour Day"; "Emancipation Day"; "Independence Day";
         "Christmas Day"; "Boxing Day" ]
  /\ map (fun h => _parse (date h)) (filter (fun h => negb (moveable h)) l)
     = map Some (fixed_dates (map moveable l) ds).
Proof.
  intros Hn Hf Hp.
  do 10 (destruct l as [| ? l]; [discriminate Hn |]).
  destruct l; [| discriminate Hn].
  do 10 (destruct ds as [| ? ds]; [discriminate Hp |]).
  destruct ds; [| discriminate Hp].
  cbn [map] in Hn, Hf, Hp |- *.
  injection Hn as N1 N2 N3 N4 N5 N6 N7 N8 N9 N10.
  injection Hf as F1 F2 F3 F4 F5 F6 F7 F8 F9 F10.
  injection Hp as P1 P2 P3 P4 P5 P6 P7 P8 P9 P10.
  cbn [filter]. rewrite F1, F2, F3, F4, F5, F6, F7, F8, F9, F10.
  cbn [negb map fixed_dates List.length].
  rewrite N1, N5, N6, N7, N9, N10, P1, P5, P6, P7, P9, P10.
  repeat split.
Qed.

(** C10 (counterexample): for the year 999 [get_holidays] returns no
    list: the date string "999-01-01" that [_fixed_holidays] writes is
    rejected by [date.fromisoformat]; the same holds for the year 10000,
    which [datetime.date] does not represent. *)
Lemma get_holidays_no_list_outside_1000_9999 :
  ~ (exists l, get_holidays 999 = Some l /\ List.length l = 10%nat)
  /\ ~ (exists l, get_holidays 10000 = Some l /\ List.length l = 10%nat).
Proof.
  split; intros [l [H _]]; vm_compute in H; discriminate H.
Qed.

(** C10 (amended): for every year from 1000 to 9999, the list has exactly
    10 holidays, 6 of them fixed and 4 moveable; their dates are in
    increasing calendar order, so the list is sorted and the observed
    dates are pairwise distinct. *)
Theorem get_holidays_ten_sorted_distinct (y : Z) :
  1000 <= y <= 9999 ->
  exists l ds,
    get_holidays y = Some l
    /\ List.length l = 10%nat
    /\ List.length (filter (fun h => negb (moveable h)) l) = 6%nat
    /\ List.length (filter moveable l) = 4%nat
    /\ map (fun h => _parse (date h)) l = map Some ds
    /\ StronglySorted (fun a b => Datetime.ltb a b = true) ds
    /\ NoDup (map date l).
Proof.
  intros Hy.
  destruct (year_ok_facts y Hy)
    as (l & calendar & ds & Hl & Hcal & Hds & Hnames & Hflags & Hinc & Hobs).
  apply parse_all_map in Hds.
  assert (Hp : map (fun h => _parse (date h)) l = map Some ds)
    by (rewrite <- Hds; symmetry; apply map_map).
  destruct (fixed_part l ds Hnames Hflags Hp) as (H10 & H6 & H4 & _ & _).
  pose proof (increasing_sorted ds Hinc) as Hsorted.
  exists l, ds. repeat (split; [assumption |]).
  apply (NoDup_map_inv _parse). rewrite Hds.
  apply NoDup_map_Some. now apply strongly_sorted_NoDup.
Qed.

(** A witness of C10's theorem: the year 2023. *)
Lemma get_holidays_ten_sorted_distinct_witness :
  exists l, get_holidays 2023 = Some l /\ List.length l = 10%nat.
Proof.
  assert (Hy : 1000 <= 2023 <= 9999) by lia.
  destruct (get_holidays_ten_sorted_distinct 2023 Hy) as (l & ds & Hl & Hlen & _).
  exists l. split; assumption.
Defined.

(** C6 (counterexample): for the year 999 the Sunday rule is applied to
    nothing, because [_apply_sunday_substitution] raises on the first
    fixed holiday, whose date string "999-01-01" does not parse; so does
    it for the year 10000. *)
Lemma sunday_rule_raises_outside_1000_9999 :
  _parse "999-01-01" = None
  /\ _apply_sunday_substitution (_fixed_holidays 999) = None
  /\ get_holidays 999 = None
  /\ _apply_sunday_substitution (_fixed_holidays 10000) = None
  /\ get_holidays 10000 = None.
Proof. repeat split. Qed.

(** C6 (amended): for every year from 1000 to 9999, the six fixed
    holidays, taken in calendar order, are returned on the dates the
    Sunday rule gives: a
    holiday that falls on no Sunday and on a free date keeps its date, and
    one that falls on a Sunday, or on a date an earlier holiday is observed
    on, moves to the first free date after its own (the Monday after a
    Sunday when that Monday is free); the four moveable holidays are
    returned as [_moveable_holidays] computes them. *)
Theorem get_holidays_sunday_rule (y : Z) :
  1000 <= y <= 9999 ->
  exists l calendar observed moveable_hs,
    get_holidays y = Some l
    /\ map (fun h => _parse (date h)) (_fixed_holidays y) = map Some calendar
    /\ observance [] calendar observed
    /\ map name (filter (fun h => negb (moveable h)) l)
       = map name (_fixed_holidays y)
    /\ map (fun h => _parse (date h)) (filter (fun h => negb (moveable h)) l)
       = map Some observed
    /\ _moveable_holidays y = Some moveable_hs
    /\ List.length moveable_hs = 4%nat
    /\ (forall h, In h moveable_hs -> moveable h = true /\ In h l).
Proof.
  intros Hy.
  destruct (year_ok_facts y Hy)
    as (l & calendar & ds & Hl & Hcal & Hds & Hnames & Hflags & Hinc & Hobs).
  apply parse_all_map in Hds, Hcal.
  assert (Hp : map (fun h => _parse (date h)) l = map Some ds)
    by (rewrite <- Hds; symmetry; apply map_map).
  destruct (fixed_part l ds Hnames Hflags Hp) as (_ & _ & _ & Hfn & Hfd).
  destruct (get_holidays_parts y l Hl) as (fixed & mv & Hfixed & Hmv & Hsort).
  destruct (_moveable_holidays_four y mv Hmv) as [Hfour Hall].
  exists l, calendar, (fixed_dates (map moveable l) ds), mv.
  split; [exact Hl |].
  split; [rewrite <- Hcal; symmetry; apply map_map |].
  split; [now apply observance_b_sound |].
  split; [exact Hfn |].
  split; [exact Hfd |].
  split; [exact Hmv |].
  split; [exact Hfour |].
  intros h Hh. split.
  - rewrite Forall_forall in Hall. now apply Hall.
  - rewrite Hsort. apply In_sorted_by_date. apply in_or_app. now right.
Qed.

(** A witness of C6's theorem: in 2023 New Year's Day, a Sunday, is
    observed on Monday 2 January. *)
Lemma get_holidays_sunday_rule_witness :
  exists l h, get_holidays 2023 = Some l
              /\ In h l /\ name h = "New Year's Day" /\ date h = "2023-01-02".
Proof.
  assert (Hy : 1000 <= 2023 <= 9999) by lia.
  destruct (get_holidays_sunday_rule 2023 Hy) as (l & _ & _ & _ & Hl & _).
  exists l. vm_compute in Hl. injection Hl as <-.
  eexists. split; [reflexivity |]. split; [left; reflexivity |].
  split; reflexivity.
Defined.

End HolidayRule.

(* ------------------------------------------------------------------ *)
(** ** Kingston sectors *)
(* ------------------------------------------------------------------ *)

Section CharacterClasses.

Ltac by_character a :=
  destruct a as [[] [] [] [] [] [] [] []]; try reflexivity; intros H; discriminate H.

Lemma isspace_not_isdigit (a : ascii) : Py.isspace a = true -> Py.isdigit a = false.
Proof. by_character a. Qed.

Lemma isdigit_isword (a : ascii) : Py.isdigit a = true -> Py.isword a = true.
Proof. by_character a. Qed.

Lemma isword_lower_char (a : ascii) : Py.isword (Py.lower_char a) = Py.isword a.
Proof. destruct a as [[] [] [] [] [] [] [] []]; reflexivity. Qed.

End CharacterClasses.

Section RegexFacts.

Import Re.

Variable A : Type.
Variable ic : bool.

(** Matching the literal text [lit] at a position: what is left. *)
Fixpoint match_literal (lit : string) (prev : option ascii) (s : string)
  : option (option ascii * string) :=
  match lit with
  | EmptyString => Some (prev, s)
  | String c lit' =>
      match s with
      | String a s' =>
          if lit_eqb ic c a then match_literal lit' (Some a) s' else None
      | EmptyString => None
      end
  end.

Lemma run_Str (lit : string) :
  forall prev s g (k : cont A),
    run ic (Str lit) prev s g k
    = match match_literal lit prev s with
      | Some (p, s') => k p s' g
      | None => None
      end.
Proof.
  induction lit as [| c lit IH]; intros prev s g k; [reflexivity |].
  destruct lit as [| c' lit].
  - cbn [Str run match_literal]. destruct s as [| a s]; [reflexivity |].
    destruct (lit_eqb ic c a); reflexivity.
  - change (Str (String c (String c' lit))) with (Cat (Lit c) (Str (String c' lit))).
    cbn [run]. destruct s as [| a s]; [reflexivity |].
    cbn [match_literal]. destruct (lit_eqb ic c a); [| reflexivity].
    rewrite IH. reflexivity.
Qed.

Lemma run_Cat (r1 r2 : regex) prev s g (k : cont A) :
  run ic (Cat r1 r2) prev s g k
  = run ic r1 prev s g (fun p' s' g' => run ic r2 p' s' g' k).
Proof. reflexivity. Qed.

Lemma run_Bnd prev s g (k : cont A) :
  run ic Bnd prev s g k
  = if xorb (word_at prev) (word_at (head s)) then k prev s g else None.
Proof. reflexivity. Qed.

(** A greedy run of one class, when what follows cannot start with a
    character of the class: the whole run is taken. *)
Fixpoint skip (p : ascii -> bool) (prev : option ascii) (s : string)
  : option ascii * string :=
  match s with
  | String a s' => if p a then skip p (Some a) s' else (prev, s)
  | EmptyString => (prev, s)
  end.

Lemma run_Star_Class_nil (p : ascii -> bool) prev g (k : cont A) :
  run ic (Star (Class p)) prev EmptyString g k = k prev EmptyString g.
Proof. reflexivity. Qed.

Lemma run_Star_Class_cons (p : ascii -> bool) prev a s g (k : cont A) :
  run ic (Star (Class p)) prev (String a s) g k
  = if p a
    then match run ic (Star (Class p)) (Some a) s g k with
         | Some x => Some x
         | None => k prev (String a s) g
         end
    else k prev (String a s) g.
Proof.
  cbn [run String.length].
  destruct (p a); [| reflexivity].
  assert (E : Nat.ltb (String.length s) (S (String.length s)) = true)
    by (apply Nat.ltb_lt; lia).
  rewrite E. reflexivity.
Qed.

Lemma run_Star_Class (p : ascii -> bool) (k : cont A) :
  (forall prev a s g, p a = true -> k prev (String a s) g = None) ->
  forall s prev g,
    run ic (Star (Class p)) prev s g k
    = k (fst (skip p prev s)) (snd (skip p prev s)) g.
Proof.
  intros Hk. induction s as [| a s IH]; intros prev g.
  - apply run_Star_Class_nil.
  - rewrite run_Star_Class_cons. cbn [skip].
    destruct (p a) eqn:Ha; [| reflexivity].
    rewrite IH, (Hk prev a s g Ha).
    destruct (k (fst (skip p (Some a) s)) (snd (skip p (Some a) s)) g); reflexivity.
Qed.

End RegexFacts.

Section KingstonSector.

Import Re Addresses.

(** The digits of a sector number at the start of [s]: one or two digits
    with a word boundary after them. *)
Definition digits_at (s : string) : option string :=
  match s with
  | String a s1 =>
      if Py.isdigit a
      then match s1 with
           | String b s2 =>
               if Py.isdigit b
               then if word_at (head s2) then None
                    else Some (String a (String b EmptyString))
               else if Py.isword b then None else Some (String a EmptyString)
           | EmptyString => Some (String a EmptyString)
           end
      else None
  | EmptyString => None
  end.

(** The pattern at one position: the character before it and the text
    from it on. *)
Definition sector_at (prev : option ascii) (s : string) : option string :=
  if xorb (word_at prev) (word_at (head s))
  then match match_literal true "Kingston" prev s with
       | Some (_, s1) => digits_at (Py.lstrip s1)
       | None => None
       end
  else None.

(** The leftmost position where the pattern is found. *)
Fixpoint sector_search (prev : option ascii) (s : string) : option string :=
  match sector_at prev s with
  | Some ds => Some ds
  | None =>
      match s with
      | EmptyString => None
      | String a s' => sector_search (Some a) s'
      end
  end.

(** [(\d{1,2})\b] *)
Definition sector_digits_re : regex :=
  Cat (Grp 1 (Cat (Class Py.isdigit) (Opt (Class Py.isdigit)))) Bnd.

Lemma run_sector_digits (prev : option ascii) (s : string) (g : captures) :
  option_map groups (run true sector_digits_re prev s g finish)
  = option_map (fun ds => (1%nat, ds) :: g) (digits_at s).
Proof.
  unfold sector_digits_re, Opt.
  destruct s as [| a s1]; [reflexivity |].
  cbn [run digits_at]. destruct (Py.isdigit a) eqn:Ha; [| reflexivity].
  pose proof (isdigit_isword a Ha) as Hwa.
  destruct s1 as [| b s2].
  - cbn [head word_at String.length Nat.sub Py.take]. rewrite Hwa. reflexivity.
  - destruct (Py.isdigit b) eqn:Hb.
    + pose proof (isdigit_isword b Hb) as Hwb.
      cbn [head word_at String.length]. rewrite Hwa, Hwb.
      replace (S (S (String.length s2)) - String.length s2)%nat with 2%nat by lia.
      cbn [Py.take xorb].
      destruct s2 as [| c s3]; [reflexivity |].
      cbn [head word_at]. destruct (Py.isword c); reflexivity.
    + cbn [head word_at String.length]. rewrite Hwa.
      replace (S (S (String.length s2)) - S (String.length s2))%nat with 1%nat by lia.
      cbn [Py.take xorb]. destruct (Py.isword b); reflexivity.
Qed.

Lemma skip_isspace (prev : option ascii) (s : string) :
  snd (skip Py.isspace prev s) = Py.lstrip s.
Proof.
  revert prev. induction s as [| a s IH]; intros prev; [reflexivity |].
  cbn [skip Py.lstrip]. destruct (Py.isspace a); [apply IH | reflexivity].
Qed.

(** The regular expression at one position is [sector_at]. *)
Lemma run_kingston_sector (prev : option ascii) (s : string) :
  option_map groups (run true _KINGSTON_SECTOR_RE prev s [] finish)
  = option_map (fun ds => [(1%nat, ds)]) (sector_at prev s).
Proof.
  unfold _KINGSTON_SECTOR_RE, sector_at.
  fold sector_digits_re.
  rewrite run_Cat, run_Bnd.
  destruct (xorb (word_at prev) (word_at (head s))); [| reflexivity].
  rewrite run_Cat, run_Str.
  destruct (match_literal true "Kingston" prev s) as [[p1 s1] |]; [| reflexivity].
  rewrite run_Cat, run_Star_Class.
  - rewrite skip_isspace. apply run_sector_digits.
  - intros p a s' g Ha. apply isspace_not_isdigit in Ha.
    unfold sector_digits_re. cbn [run]. rewrite Ha. reflexivity.
Qed.

Lemma search_kingston_sector (s : string) :
  forall prev,
    option_map groups (search_from true _KINGSTON_SECTOR_RE prev s)
    = option_map (fun ds => [(1%nat, ds)]) (sector_search prev s).
Proof.
  induction s as [| a s IH]; intros prev; cbn [search_from sector_search];
    pose proof (run_kingston_sector prev) as H.
  - specialize (H EmptyString).
    destruct (run true _KINGSTON_SECTOR_RE prev "" [] finish);
      destruct (sector_at prev ""); try discriminate H; [exact H | reflexivity].
  - specialize (H (String a s)).
    destruct (run true _KINGSTON_SECTOR_RE prev (String a s) [] finish);
      destruct (sector_at prev (String a s)); try discriminate H; [exact H | apply IH].
Qed.

(** [get_kingston_sector] in terms of the leftmost occurrence. *)
Lemma get_kingston_sector_search (s : string) :
  get_kingston_sector s
  = match sector_search None s with
    | None => None
    | Some ds =>
        let n := Py.int_of_digits ds in
        if (n <? 1) || (n >? 20) then None else Some n
    end.
Proof.
  unfold get_kingston_sector, search.
  pose proof (search_kingston_sector s None) as H.
  destruct (search_from true _KINGSTON_SECTOR_RE None s) as [m |];
    destruct (sector_search None s) as [ds |]; try discriminate H; [| reflexivity].
  cbn [option_map] in H. injection H as H.
  unfold group_or_empty. rewrite H. reflexivity.
Qed.

(** *** The occurrences of the pattern, in words *)

Fixpoint all_chars (p : ascii -> bool) (s : string) : bool :=
  match s with
  | EmptyString => true
  | String a s' => p a && all_chars p s'
  end.

(** The last character of [s], or [prev] when [s] is empty. *)
Fixpoint last_char (prev : option ascii) (s : string) : option ascii :=
  match s with
  | EmptyString => prev
  | String a s' => last_char (Some a) s'
  end.

(** [suffix] starts with "Kingston" in any case, then any white space,
    then the one or two digits [digits], and a word boundary lies on each
    side; [prev] is the character before [suffix]. *)
Definition sector_here (prev : option ascii) (suffix digits : string) : Prop :=
  exists kw ws post,
    suffix = kw ++ ws ++ digits ++ post
    /\ word_at prev = false
    /\ Py.lower kw = "kingston"
    /\ all_chars Py.isspace ws = true
    /\ all_chars Py.isdigit digits = true
    /\ (String.length digits = 1 \/ String.length digits = 2)%nat
    /\ word_at (head post) = false.

(** The pattern occurs in [s] after the prefix [pre], with digits
    [digits]. *)
Definition sector_occurrence (s pre digits : string) : Prop :=
  exists suffix, s = pre ++ suffix /\ sector_here (last_char None pre) suffix digits.

(** ... and no occurrence starts further left. *)
Definition first_sector_occurrence (s pre digits : string) : Prop :=
  sector_occurrence s pre digits
  /\ forall pre' digits',
      sector_occurrence s pre' digits' ->
      (String.length pre <= String.length pre')%nat.

Lemma match_literal_split (lit : string) :
  forall prev s p s1,
    match_literal true lit prev s = Some (p, s1) ->
    exists kw, s = kw ++ s1 /\ Py.lower kw = Py.lower lit.
Proof.
  induction lit as [| c lit IH]; intros prev s p s1 H; cbn [match_literal] in H.
  - injection H as _ <-. exists "". split; reflexivity.
  - destruct s as [| a s]; [discriminate H |].
    destruct (lit_eqb true c a) eqn:E; [| discriminate H].
    destruct (IH _ _ _ _ H) as [kw [-> Hl]].
    exists (String a kw). split; [reflexivity |].
    unfold lit_eqb in E. apply Ascii.eqb_eq in E.
    unfold Py.lower in *. cbn [Py.smap]. now rewrite Hl, E.
Qed.

Lemma match_literal_complete (lit : string) :
  forall kw prev s1,
    Py.lower kw = Py.lower lit ->
    exists p, match_literal true lit prev (kw ++ s1) = Some (p, s1).
Proof.
  induction lit as [| c lit IH]; intros kw prev s1 H;
    destruct kw as [| a kw]; try discriminate H.
  - exists prev. reflexivity.
  - unfold Py.lower in H. cbn [Py.smap] in H. injection H as Ha Hl.
    cbn [String.append match_literal]. unfold lit_eqb.
    rewrite Ha, Ascii.eqb_refl. now apply IH.
Qed.

Lemma lstrip_split (s : string) :
  exists ws, s = ws ++ Py.lstrip s /\ all_chars Py.isspace ws = true.
Proof.
  induction s as [| a s [ws [Hs Hws]]]; [exists ""; split; reflexivity |].
  cbn [Py.lstrip]. destruct (Py.isspace a) eqn:Ha.
  - exists (String a ws). cbn [String.append all_chars].
    rewrite Ha, Hws. split; [now rewrite <- Hs | reflexivity].
  - exists "". split; reflexivity.
Qed.

Lemma lstrip_app (ws t : string) :
  all_chars Py.isspace ws = true ->
  match t with String a _ => Py.isspace a = false | EmptyString => True end ->
  Py.lstrip (ws ++ t) = t.
Proof.
  intros Hws Ht. induction ws as [| a ws IH].
  - cbn [String.append]. destruct t as [| b t]; [reflexivity |].
    cbn [Py.lstrip]. now rewrite Ht.
  - cbn [all_chars] in Hws. apply andb_true_iff in Hws. destruct Hws as [Ha Hws].
    cbn [String.append Py.lstrip]. rewrite Ha. now apply IH.
Qed.

Lemma isdigit_not_isspace (a : ascii) : Py.isdigit a = true -> Py.isspace a = false.
Proof.
  intros H. destruct (Py.isspace a) eqn:E; [| reflexivity].
  apply isspace_not_isdigit in E. congruence.
Qed.

Lemma digits_at_spec (t ds : string) :
  digits_at t = Some ds
  <-> exists post,
      t = ds ++ post
      /\ all_chars Py.isdigit ds = true
      /\ (String.length ds = 1 \/ String.length ds = 2)%nat
      /\ word_at (head post) = false.
Proof.
  split.
  - unfold digits_at. destruct t as [| a s1]; [discriminate |].
    destruct (Py.isdigit a) eqn:Ha; [| discriminate].
    destruct s1 as [| b s2].
    + intros [= <-]. exists "". cbn. rewrite Ha. auto.
    + destruct (Py.isdigit b) eqn:Hb.
      * destruct (word_at (head s2)) eqn:Hw; [discriminate |].
        intros [= <-]. exists s2. cbn. rewrite Ha, Hb. auto.
      * destruct (Py.isword b) eqn:Hwb; [discriminate |].
        intros [= <-]. exists (String b s2). cbn. rewrite Ha, Hwb. auto.
  - intros (post & -> & Hd & Hlen & Hpost).
    destruct ds as [| a [| b [| c ds]]]; cbn in Hlen; try lia.
    + cbn in Hd. rewrite andb_true_r in Hd.
      cbn [String.append digits_at]. rewrite Hd.
      destruct post as [| b post]; [reflexivity |].
      cbn in Hpost. rewrite Hpost.
      destruct (Py.isdigit b) eqn:Hb; [| reflexivity].
      apply isdigit_isword in Hb. congruence.
    + cbn in Hd. rewrite andb_true_r in Hd. apply andb_true_iff in Hd.
      destruct Hd as [Ha Hb].
      cbn [String.append digits_at]. now rewrite Ha, Hb, Hpost.
Qed.

Lemma head_kingston_word (kw t : string) :
  Py.lower kw = "kingston" -> word_at (head (kw ++ t)) = true.
Proof.
  destruct kw as [| a kw]; [discriminate |].
  unfold Py.lower. cbn [Py.smap]. intros [= Ha _].
  cbn [String.append head word_at].
  rewrite <- isword_lower_char, Ha. reflexivity.
Qed.

(** [sector_at] finds the pattern at a position exactly when it is
    there. *)
Lemma sector_at_here (prev : option ascii) (suffix ds : string) :
  sector_at prev suffix = Some ds <-> sector_here prev suffix ds.
Proof.
  split.
  - unfold sector_at. destruct (xorb _ _) eqn:Hb; [| discriminate].
    destruct (match_literal true "Kingston" prev suffix) as [[p1 s1] |] eqn:Hm;
      [| discriminate].
    intros Hd.
    destruct (match_literal_split _ _ _ _ _ Hm) as [kw [-> Hkw]].
    change (Py.lower "Kingston") with "kingston" in Hkw.
    destruct (lstrip_split s1) as [ws [Hs1 Hws]].
    apply digits_at_spec in Hd. destruct Hd as (post & Hpost & Hds & Hlen & Hw).
    exists kw, ws, post.
    rewrite (head_kingston_word kw s1 Hkw) in Hb.
    repeat split; try assumption.
    + rewrite <- Hpost. now rewrite <- Hs1.
    + destruct (word_at prev); [discriminate Hb | reflexivity].
  - intros (kw & ws & post & -> & Hprev & Hkw & Hws & Hds & Hlen & Hw).
    unfold sector_at.
    rewrite (head_kingston_word kw _ Hkw), Hprev. cbn [xorb].
    destruct (match_literal_complete "Kingston" kw prev (ws ++ ds ++ post))
      as [p ->]; [exact Hkw |].
    rewrite lstrip_app; [| exact Hws |].
    + apply digits_at_spec. exists post. repeat split; assumption.
    + destruct ds as [| a ds]; [cbn in Hlen; lia |].
      cbn [String.append]. cbn [all_chars] in Hds.
      apply andb_true_iff in Hds. destruct Hds as [Ha _].
      now apply isdigit_not_isspace.
Qed.

(** [sector_search] returns the leftmost occurrence. *)
Lemma sector_search_some (s : string) :
  forall prev ds,
    sector_search prev s = Some ds
    <-> exists pre suffix,
        s = pre ++ suffix
        /\ sector_at (last_char prev pre) suffix = Some ds
        /\ forall pre' suffix',
            s = pre' ++ suffix' ->
            (String.length pre' < String.length pre)%nat ->
            sector_at (last_char prev pre') suffix' = None.
Proof.
  induction s as [| a s IH]; intros prev ds; cbn [sector_search]; split.
  - destruct (sector_at prev "") as [ds' |] eqn:E; [| discriminate].
    intros [= <-]. exists "", "". repeat split; [exact E |].
    intros pre' suffix' _ Hlt. cbn in Hlt. lia.
  - intros (pre & suffix & Hs & Hat & _).
    destruct pre; [| discriminate Hs]. cbn in Hs. subst suffix.
    cbn [last_char] in Hat. now rewrite Hat.
  - destruct (sector_at prev (String a s)) as [ds' |] eqn:E.
    + intros [= <-]. exists "", (String a s). repeat split; [exact E |].
      intros pre' suffix' _ Hlt. cbn in Hlt. lia.
    + intros H. apply IH in H. destruct H as (pre & suffix & -> & Hat & Hmin).
      exists (String a pre), suffix. repeat split; [exact Hat |].
      intros pre' suffix' Hs Hlt. destruct pre' as [| a' pre'].
      * cbn in Hs. subst suffix'. exact E.
      * cbn [String.append] in Hs. injection Hs as <- Hs.
        cbn [last_char]. apply Hmin; [exact Hs | cbn in Hlt; lia].
  - intros (pre & suffix & Hs & Hat & Hmin). destruct pre as [| a' pre].
    + cbn in Hs. subst suffix. cbn [last_char] in Hat. now rewrite Hat.
    + cbn [String.append] in Hs. injection Hs as <- Hs.
      assert (H0 : sector_at prev (String a s) = None).
      { apply (Hmin "" (String a s)); [now rewrite Hs | cbn; lia]. }
      rewrite H0. apply IH. exists pre, suffix. repeat split; [exact Hs | exact Hat |].
      intros pre' suffix' Hs' Hlt.
      apply (Hmin (String a pre') suffix'); [now rewrite Hs' | cbn; lia].
Qed.

Lemma sector_search_none (s : string) :
  forall prev,
    sector_search prev s = None
    <-> forall pre suffix,
        s = pre ++ suffix -> sector_at (last_char prev pre) suffix = None.
Proof.
  induction s as [| a s IH]; intros prev; cbn [sector_search]; split.
  - destruct (sector_at prev "") eqn:E; [discriminate |].
    intros _ pre suffix Hs. destruct pre; [| discriminate Hs].
    cbn in Hs. now subst suffix.
  - intros H. pose proof (H "" "" eq_refl) as H0. cbn [last_char] in H0.
    now rewrite H0.
  - destruct (sector_at prev (String a s)) eqn:E; [discriminate |].
    intros H pre suffix Hs. destruct pre as [| a' pre].
    + cbn in Hs. now subst suffix.
    + cbn [String.append] in Hs. injection Hs as <- Hs.
      cbn [last_char]. now apply (proj1 (IH (Some a))).
  - intros H. pose proof (H "" (String a s) eq_refl) as H0.
    cbn [last_char] in H0. rewrite H0.
    apply IH. intros pre suffix Hs.
    apply (H (String a pre) suffix). now rewrite Hs.
Qed.

Lemma search_first_occurrence (s ds : string) :
  sector_search None s = Some ds <-> exists pre, first_sector_occurrence s pre ds.
Proof.
  rewrite sector_search_some. split.
  - intros (pre & suffix & Hs & Hat & Hmin). exists pre. split.
    + exists suffix. split; [exact Hs | now apply sector_at_here].
    + intros pre' ds' (suffix' & Hs' & Hhere').
      destruct (Nat.le_gt_cases (String.length pre) (String.length pre'))
        as [Hle | Hgt]; [exact Hle | exfalso].
      apply sector_at_here in Hhere'.
      rewrite (Hmin pre' suffix' Hs' Hgt) in Hhere'. discriminate Hhere'.
  - intros (pre & (suffix & Hs & Hhere) & Hfirst).
    exists pre, suffix. split; [exact Hs | split; [now apply sector_at_here |]].
    intros pre' suffix' Hs' Hlt.
    destruct (sector_at (last_char None pre') suffix') as [ds' |] eqn:E;
      [exfalso | reflexivity].
    apply sector_at_here in E.
    assert (Hocc : sector_occurrence s pre' ds') by (exists suffix'; split; assumption).
    specialize (Hfirst pre' ds' Hocc). lia.
Qed.

Lemma search_no_occurrence (s : string) :
  sector_search None s = None <-> forall pre ds, ~ sector_occurrence s pre ds.
Proof.
  rewrite sector_search_none. split.
  - intros H pre ds (suffix & Hs & Hhere). apply sector_at_here in Hhere.
    rewrite (H pre suffix Hs) in Hhere. discriminate Hhere.
  - intros H pre suffix Hs.
    destruct (sector_at (last_char None pre) suffix) as [ds |] eqn:E; [| reflexivity].
    exfalso. apply (H pre ds). exists suffix. split; [exact Hs |].
    now apply sector_at_here.
Qed.

Lemma sector_in_range (n : Z) :
  (n <? 1) || (n >? 20) = false <-> 1 <= n <= 20.
Proof. rewrite orb_false_iff, Z.gtb_ltb, !Z.ltb_ge. lia. Qed.

Lemma sector_in_range' (n : Z) :
  (1 <=? n) && (n <=? 20) = negb ((n <? 1) || (n >? 20)).
Proof.
  rewrite Z.gtb_ltb.
  destruct (Z.leb_spec 1 n), (Z.leb_spec n 20), (Z.ltb_spec n 1), (Z.ltb_spec 20 n);
    try reflexivity; lia.
Qed.

(** *** parse_address *)

Lemma parse_pass2_keeps (remaining : list string) (r : ParsedAddress) :
  parish (parse_pass2 remaining r) = parish r
  /\ kingston_sector (parse_pass2 remaining r) = kingston_sector r.
Proof.
  unfold parse_pass2. destruct remaining as [| first rest]; [split; reflexivity |].
  cbn [tl].
  repeat (first
            [ match goal with
              | |- context [Re.rmatch ?c ?r ?s] => destruct (Re.rmatch c r s)
              end
            | match goal with
              | |- context [Py.otruthy ?x] => destruct (Py.otruthy x)
              end
            | match goal with
              | |- context [match ?l with [] => _ | _ :: _ => _ end] =>
                  is_var l; destruct l
              end ];
          cbv beta iota zeta; cbn [negb]);
    split; reflexivity.
Qed.

Lemma search_group (seg ds : string) :
  sector_search None seg = Some ds ->
  exists m, Re.search true _KINGSTON_SECTOR_RE seg = Some m
            /\ group_or_empty 1 m = ds.
Proof.
  intros H. pose proof (search_kingston_sector seg None) as E.
  rewrite H in E. unfold search.
  destruct (search_from true _KINGSTON_SECTOR_RE None seg) as [m |];
    [| discriminate E].
  exists m. split; [reflexivity |].
  cbn [option_map] in E. injection E as E.
  unfold group_or_empty. now rewrite E.
Qed.

Lemma parse_pass1_sector (rsegs : list string) :
  forall r0 n,
    kingston_sector r0 = None ->
    kingston_sector (fst (parse_pass1 rsegs r0)) = Some n ->
    1 <= n <= 20 /\ parish (fst (parse_pass1 rsegs r0)) = Some "Kingston".
Proof.
  induction rsegs as [| seg rest IH]; intros r0 n H0; cbn [parse_pass1].
  - cbn [fst]. congruence.
  - destruct (Re.search true _KINGSTON_SECTOR_RE seg) as [m |].
    + cbv zeta. destruct ((1 <=? _) && (_ <=? 20)) eqn:E; cbn; [| congruence].
      intros [= <-]. split; [| reflexivity].
      apply andb_true_iff in E. destruct E as [E1 E2].
      apply Z.leb_le in E1, E2. lia.
    + destruct (_resolve_parish seg) as [resolved |]; [| now apply IH].
      destruct (Py.truthy resolved); [| now apply IH].
      cbn. congruence.
Qed.

Lemma split_not_nil (sep : ascii) (s : string) : Py.split sep s <> [].
Proof.
  destruct s as [| c s]; cbn [Py.split]; [discriminate |].
  destruct (Ascii.eqb c sep); [discriminate |].
  destruct (Py.split sep s); discriminate.
Qed.

Lemma rev_last (A : Type) (l : list A) (d : A) :
  l <> [] -> rev l = last l d :: rev (removelast l).
Proof.
  intros H. rewrite (app_removelast_last d H) at 1.
  rewrite rev_app_distr. reflexivity.
Qed.

(** C3: [get_kingston_sector s] returns [n] exactly when the leftmost
    occurrence in [s] of "Kingston" (in any case, at a word boundary)
    followed by optional white space and a number of one or two digits
    ending at a word boundary has the number [n] with [1 <= n <= 20], and
    returns [None] exactly when there is no such occurrence or the number
    of the leftmost one lies outside 1..20; [parse_address] records a
    sector only within 1..20 and then with the parish "Kingston", and when
    the pattern occurs in the last segment the parish is "Kingston" whether
    or not the number is in range. *)
Theorem get_kingston_sector_first_occurrence :
  (forall (s : string) (n : Z),
      get_kingston_sector s = Some n
      <-> exists pre digits,
          first_sector_occurrence s pre digits
          /\ Py.int_of_digits digits = n /\ 1 <= n <= 20)
  /\ (forall s : string,
         get_kingston_sector s = None
         <-> (forall pre digits, ~ sector_occurrence s pre digits)
             \/ exists pre digits,
                 first_sector_occurrence s pre digits
                 /\ ~ 1 <= Py.int_of_digits digits <= 20)
  /\ (forall (raw : string) (n : Z),
         kingston_sector (parse_address raw) = Some n ->
         1 <= n <= 20 /\ parish (parse_address raw) = Some "Kingston")
  /\ (forall raw pre digits : string,
         Py.truthy (Py.strip raw) = true ->
         first_sector_occurrence
           (last (map Py.strip (Py.split "," (Py.strip raw))) "") pre digits ->
         parish (parse_address raw) = Some "Kingston"
         /\ kingston_sector (parse_address raw)
            = (let n := Py.int_of_digits digits in
               if (1 <=? n) && (n <=? 20) then Some n else None)).
Proof.
  split; [| split; [| split]].
  - intros s n. rewrite get_kingston_sector_search. split.
    + destruct (sector_search None s) as [ds |] eqn:E; [| discriminate].
      cbv zeta. destruct (_ || _) eqn:Hr; [discriminate |].
      intros [= <-]. apply search_first_occurrence in E. destruct E as [pre Hfirst].
      exists pre, ds. split; [exact Hfirst | split; [reflexivity |]].
      now apply sector_in_range.
    + intros (pre & ds & Hfirst & <- & Hr).
      assert (E : sector_search None s = Some ds)
        by (apply search_first_occurrence; now exists pre).
      rewrite E. cbv zeta. apply sector_in_range in Hr. now rewrite Hr.
  - intros s. rewrite get_kingston_sector_search. split.
    + destruct (sector_search None s) as [ds |] eqn:E.
      * cbv zeta. destruct (_ || _) eqn:Hr; [| discriminate].
        intros _. right. apply search_first_occurrence in E. destruct E as [pre Hfirst].
        exists pre, ds. split; [exact Hfirst |].
        intros Hin. apply sector_in_range in Hin. congruence.
      * intros _. left. now apply search_no_occurrence.
    + intros [Hnone | (pre & ds & Hfirst & Hout)].
      * apply search_no_occurrence in Hnone. now rewrite Hnone.
      * assert (E : sector_search None s = Some ds)
          by (apply search_first_occurrence; now exists pre).
        rewrite E. cbv zeta. destruct (_ || _) eqn:Hr; [reflexivity |].
        apply sector_in_range in Hr. contradiction.
  - intros raw n. unfold parse_address. cbv zeta.
    destruct (negb (Py.truthy (Py.strip raw))); [cbn; discriminate |].
    pose proof (parse_pass1_sector
                  (rev (map Py.strip (Py.split "," (Py.strip raw))))
                  (empty_address raw) n eq_refl) as H1.
    destruct (parse_pass1 _ (empty_address raw)) as [r idx].
    cbn [fst] in H1.
    match goal with
    | |- context [parse_pass2 ?rem r] =>
        destruct (parse_pass2_keeps rem r) as [Hp Hk]; rewrite Hp, Hk
    end.
    exact H1.
  - intros raw pre digits Htruthy Hfirst.
    assert (E : sector_search None
                  (last (map Py.strip (Py.split "," (Py.strip raw))) "")
                = Some digits)
      by (apply search_first_occurrence; now exists pre).
    destruct (search_group _ _ E) as [m [Hm Hg]].
    unfold parse_address. cbv zeta. rewrite Htruthy. cbn [negb].
    rewrite (rev_last _ _ "").
    2: { intros Hnil. apply map_eq_nil in Hnil. now apply split_not_nil in Hnil. }
    cbn [parse_pass1]. rewrite Hm. cbv zeta. rewrite Hg.
    match goal with
    | |- context [parse_pass2 ?rem ?r] =>
        destruct (parse_pass2_keeps rem r) as [Hp Hk]; rewrite Hp, Hk
    end.
    destruct ((1 <=? Py.int_of_digits digits) && (Py.int_of_digits digits <=? 20));
      split; reflexivity.
Qed.

End KingstonSector.

Section TrnStructure.

Import Trn.

Definition newline : string := String "010"%char "".

Lemma isdigit_inv (a : ascii) :
  Py.isdigit a = true -> is_digit (Py.digit_val a) /\ a = Py.digit_char (Py.digit_val a).
Proof.
  destruct a as [[] [] [] [] [] [] [] []]; intros H; try discriminate H;
    (split; [unfold is_digit; cbv; split; discriminate | reflexivity]).
Qed.

(** The nine digits of a TRN and their weighted sum, check digit included
    with weight 1. *)
Record trn_digits : Type := Digits {
  trn1 : Z; trn2 : Z; trn3 : Z; trn4 : Z; trn5 : Z; trn6 : Z; trn7 : Z; trn8 : Z; trn9 : Z
}.

Definition digits_list (t : trn_digits) : list Z :=
  [trn1 t; trn2 t; trn3 t; trn4 t; trn5 t; trn6 t; trn7 t; trn8 t; trn9 t].

Definition all_digits (t : trn_digits) : Prop := Forall is_digit (digits_list t).

Definition checksum (t : trn_digits) : Z :=
  3 * trn1 t + 7 * trn2 t + 1 * trn3 t + 3 * trn4 t + 7 * trn5 t + 1 * trn6 t
  + 3 * trn7 t + 7 * trn8 t + trn9 t.

Definition raw_form (t : trn_digits) : string := digit_string (digits_list t).

Definition dashed_form (t : trn_digits) : string :=
  digit_string [trn1 t; trn2 t; trn3 t] ++ "-" ++ digit_string [trn4 t; trn5 t; trn6 t]
  ++ "-" ++ digit_string [trn7 t; trn8 t; trn9 t].

Ltac split_digits H :=
  unfold all_digits, digits_list in H;
  repeat match goal with
         | Hf : Forall is_digit (_ :: _) |- _ => inversion Hf; clear Hf; subst
         | Hf : Forall is_digit [] |- _ => clear Hf
         end.

Ltac use_digits :=
  repeat match goal with
         | Hd : is_digit ?d |- context [Py.isdigit (Py.digit_char ?d)] =>
             rewrite (isdigit_digit_char d Hd)
         | Hd : is_digit ?d |- context [Py.isspace (Py.digit_char ?d)] =>
             rewrite (isspace_digit_char d Hd)
         | Hd : is_digit ?d |- context [Py.digit_val (Py.digit_char ?d)] =>
             rewrite (digit_val_digit_char d Hd)
         | Hd : is_digit ?d |- context [Ascii.eqb (Py.digit_char ?d) "-"] =>
             rewrite (digit_char_not_dash d Hd)
         end.

(** What [^\d{9}$] accepts with [match]: nine digits, or nine digits and a
    final newline. *)
Lemma raw_pattern_inv (raw : string) (m : Re.matched) :
  Re.rmatch false _RAW_PATTERN raw = Some m ->
  exists t, all_digits t /\ (raw = raw_form t \/ raw = raw_form t ++ newline).
Proof.
  unfold Re.rmatch, _RAW_PATTERN. cbn [Re.run Re.Times]. intros H.
  do 9 (destruct raw as [| ? raw]; [discriminate H |];
        match type of H with
        | context [Py.isdigit ?a] =>
            let E := fresh "E" in
            destruct (Py.isdigit a) eqn:E; [apply isdigit_inv in E | discriminate H]
        end).
  repeat match goal with E : _ /\ _ |- _ => destruct E end.
  exists (Digits (Py.digit_val a) (Py.digit_val a0) (Py.digit_val a1)
                 (Py.digit_val a2) (Py.digit_val a3) (Py.digit_val a4)
                 (Py.digit_val a5) (Py.digit_val a6) (Py.digit_val a7)).
  split.
  - unfold all_digits, digits_list. cbn [trn1 trn2 trn3 trn4 trn5 trn6 trn7 trn8 trn9].
    repeat (apply Forall_cons; [assumption |]). apply Forall_nil.
  - unfold raw_form, digits_list. cbn [trn1 trn2 trn3 trn4 trn5 trn6 trn7 trn8 trn9 digit_string].
    repeat match goal with E : ?a = Py.digit_char _ |- _ => rewrite <- E; clear E end.
    destruct raw as [| c raw]; [left; reflexivity |].
    destruct raw as [| ? ?]; [| discriminate H].
    destruct (Ascii.eqb_spec c "010"%char) as [-> | ?]; [| discriminate H].
    right. reflexivity.
Qed.

Lemma raw_pattern_newline (t : trn_digits) :
  all_digits t ->
  exists m, Re.rmatch false _RAW_PATTERN (raw_form t ++ newline) = Some m.
Proof.
  intros H. destruct t. split_digits H.
  unfold Re.rmatch, _RAW_PATTERN, raw_form, digits_list.
  cbn [Re.run Re.Times digit_string trn1 trn2 trn3 trn4 trn5 trn6 trn7 trn8 trn9 String.append newline].
  use_digits. eexists. reflexivity.
Qed.

Lemma unformat_trn_raw_form (t : trn_digits) :
  all_digits t -> unformat_trn (raw_form t) = raw_form t.
Proof.
  intros H. destruct t. split_digits H.
  unfold unformat_trn, Py.strip, raw_form, digits_list.
  cbn [trn1 trn2 trn3 trn4 trn5 trn6 trn7 trn8 trn9 digit_string Py.rstrip]. use_digits.
  cbn [Py.lstrip]. use_digits.
  cbn [Py.remove_char]. use_digits. reflexivity.
Qed.

Lemma unformat_trn_dashed_form (t : trn_digits) :
  all_digits t -> unformat_trn (dashed_form t) = raw_form t.
Proof.
  intros H. destruct t. split_digits H.
  unfold unformat_trn, Py.strip, raw_form, dashed_form, digits_list.
  cbn [trn1 trn2 trn3 trn4 trn5 trn6 trn7 trn8 trn9 digit_string String.append Py.rstrip]. use_digits.
  cbn [Py.lstrip]. use_digits.
  cbn [Py.remove_char]. use_digits. reflexivity.
Qed.

(** The test of the ninth digit against the check digit is a test of the
    whole weighted sum modulo 11. *)
Lemma check_digit_test (total d : Z) :
  is_digit d ->
  match check_digit_of_total total with
  | Some expected => d =? expected
  | None => false
  end = ((total + d) mod 11 =? 0).
Proof.
  unfold check_digit_of_total, is_digit. cbv zeta. intros Hd.
  pose proof (Z.mod_pos_bound total 11 ltac:(lia)) as Hr.
  assert (E : (total + d) mod 11 = (total mod 11 + d) mod 11)
    by (rewrite Z.add_mod_idemp_l by lia; reflexivity).
  rewrite E. set (r := total mod 11) in *. clearbody r.
  destruct (Z.eqb_spec r 0) as [-> | Hr0].
  - cbn [Z.add]. rewrite Z.mod_small by lia. reflexivity.
  - destruct (Z.eqb_spec (11 - r) 10) as [E10 | E10].
    + assert (r = 1) by lia. subst r.
      symmetry. apply Z.eqb_neq. 
      assert (Hs : (1 + d) mod 11 = 1 + d) by (apply Z.mod_small; lia). lia.
    + destruct (Z.eqb_spec d (11 - r)) as [-> | Hne].
      * symmetry. apply Z.eqb_eq. replace (r + (11 - r)) with 11 by ring. reflexivity.
      * symmetry. apply Z.eqb_neq. intros Hm.
        assert (Hc : r + d < 11 \/ 11 <= r + d) by lia.
        destruct Hc as [Hc | Hc].
        -- rewrite Z.mod_small in Hm by lia. lia.
        -- assert (Hs : (r + d) mod 11 = r + d - 11).
           { symmetry. apply (Z.mod_unique (r + d) 11 1); lia. }
           lia.
Qed.

Lemma is_valid_trn_checksum (text : string) (t : trn_digits) :
  all_digits t ->
  unformat_trn text = raw_form t \/ unformat_trn text = raw_form t ++ newline ->
  is_valid_trn text = (checksum t mod 11 =? 0).
Proof.
  intros H Hraw.
  assert (H8 := get_trn_check_digit_formula (trn1 t) (trn2 t) (trn3 t) (trn4 t) (trn5 t)
                                            (trn6 t) (trn7 t) (trn8 t)).
  assert (Hm : exists m, Re.rmatch false _RAW_PATTERN (unformat_trn text) = Some m).
  { destruct Hraw as [-> | ->]; [| now apply raw_pattern_newline].
    pose proof H as H'. destruct t. split_digits H'.
    now apply nine_digits_match. }
  destruct Hm as [m Hm].
  assert (Hpre : Py.take 8 (unformat_trn text)
                 = digit_string [trn1 t; trn2 t; trn3 t; trn4 t; trn5 t; trn6 t; trn7 t; trn8 t]
                 /\ Py.take 1 (Py.drop 8 (unformat_trn text))
                    = digit_string [trn9 t]).
  { destruct Hraw as [-> | ->]; split; reflexivity. }
  destruct Hpre as [Hpre Hlast].
  unfold is_valid_trn. rewrite Hm, Hpre, Hlast.
  destruct t as [d1 d2 d3 d4 d5 d6 d7 d8 d9].
  cbn [trn1 trn2 trn3 trn4 trn5 trn6 trn7 trn8 trn9] in *. split_digits H.
  rewrite H8 by assumption.
  unfold Py.int_of_digits. cbn [digit_string list_ascii_of_string fold_left].
  use_digits. replace (10 * 0 + d9) with d9 by ring.
  unfold checksum. cbn [trn1 trn2 trn3 trn4 trn5 trn6 trn7 trn8 trn9].
  now apply check_digit_test.
Qed.

(** X1: [is_valid_trn] accepts a text exactly when [unformat_trn] leaves
    nine decimal digits of it (or nine digits and a final newline) whose
    values, weighted by 3, 7, 1, 3, 7, 1, 3, 7 and 1, add up to a multiple
    of 11. The decimal digits of the embedding's alphabet are the
    characters 0 to 9. *)
Theorem is_valid_trn_iff (text : string) :
  is_valid_trn text = true <->
  exists t, all_digits t
            /\ (unformat_trn text = raw_form t
                \/ unformat_trn text = raw_form t ++ newline)
            /\ checksum t mod 11 = 0.
Proof.
  split.
  - intros Hv.
    destruct (Re.rmatch false _RAW_PATTERN (unformat_trn text)) as [m |] eqn:Hm.
    + destruct (raw_pattern_inv _ _ Hm) as (t & Ht & Hraw).
      exists t. split; [exact Ht |]. split; [exact Hraw |].
      rewrite (is_valid_trn_checksum text t Ht Hraw) in Hv.
      now apply Z.eqb_eq.
    + unfold is_valid_trn in Hv. rewrite Hm in Hv. discriminate Hv.
  - intros (t & Ht & Hraw & Hsum).
    rewrite (is_valid_trn_checksum text t Ht Hraw). now apply Z.eqb_eq.
Qed.

Lemma format_trn_accepts (text : string) (t : trn_digits) :
  all_digits t ->
  unformat_trn text = raw_form t \/ unformat_trn text = raw_form t ++ newline ->
  format_trn text = Some (dashed_form t).
Proof.
  intros H Hraw.
  assert (Hm : exists m, Re.rmatch false _RAW_PATTERN (unformat_trn text) = Some m).
  { destruct Hraw as [-> | ->]; [| now apply raw_pattern_newline].
    pose proof H as H'. destruct t. split_digits H'.
    now apply nine_digits_match. }
  destruct Hm as [m Hm].
  unfold format_trn. rewrite Hm.
  destruct Hraw as [-> | ->]; reflexivity.
Qed.

(** X2: [format_trn] returns the form NNN-NNN-NNN of the nine digits that
    [unformat_trn] leaves, and raises ([None]) exactly when it does not
    leave nine digits (or nine digits and a final newline). *)
Theorem format_trn_result (text formatted : string) :
  format_trn text = Some formatted <->
  exists t, all_digits t
            /\ (unformat_trn text = raw_form t
                \/ unformat_trn text = raw_form t ++ newline)
            /\ formatted = dashed_form t.
Proof.
  split.
  - intros Hf.
    destruct (Re.rmatch false _RAW_PATTERN (unformat_trn text)) as [m |] eqn:Hm.
    + destruct (raw_pattern_inv _ _ Hm) as (t & Ht & Hraw).
      exists t. split; [exact Ht |]. split; [exact Hraw |].
      rewrite (format_trn_accepts text t Ht Hraw) in Hf. congruence.
    + unfold format_trn in Hf. rewrite Hm in Hf. discriminate Hf.
  - intros (t & Ht & Hraw & ->). now apply format_trn_accepts.
Qed.

(** X3: a formatted TRN is formatted as itself, [unformat_trn] followed
    by [format_trn] gives it back, and it is valid exactly when the
    original text is. *)
Theorem format_trn_stable (text formatted : string) :
  format_trn text = Some formatted ->
  format_trn formatted = Some formatted
  /\ format_trn (unformat_trn formatted) = Some formatted
  /\ is_valid_trn formatted = is_valid_trn text
  /\ is_valid_trn (unformat_trn formatted) = is_valid_trn text.
Proof.
  intros Hf.
  destruct (Re.rmatch false _RAW_PATTERN (unformat_trn text)) as [m |] eqn:Hm.
  2: { unfold format_trn in Hf. rewrite Hm in Hf. discriminate Hf. }
  destruct (raw_pattern_inv _ _ Hm) as (t & Ht & Hraw).
  rewrite (format_trn_accepts text t Ht Hraw) in Hf.
  assert (formatted = dashed_form t) by congruence. subst formatted.
  pose proof (unformat_trn_dashed_form t Ht) as Hd.
  pose proof (unformat_trn_raw_form t Ht) as Hr.
  rewrite Hd.
  rewrite (is_valid_trn_checksum text t Ht Hraw).
  repeat split.
  - apply format_trn_accepts; [exact Ht | now left].
  - apply format_trn_accepts; [exact Ht | now left].
  - apply is_valid_trn_checksum; [exact Ht | now left].
  - apply is_valid_trn_checksum; [exact Ht | now left].
Qed.

(** A witness of X3: the text " 123456784 ". *)
Lemma format_trn_stable_witness :
  format_trn "123-456-784" = Some "123-456-784"
  /\ format_trn (unformat_trn "123-456-784") = Some "123-456-784"
  /\ is_valid_trn "123-456-784" = is_valid_trn " 123456784 "
  /\ is_valid_trn (unformat_trn "123-456-784") = is_valid_trn " 123456784 ".
Proof. apply (format_trn_stable " 123456784 " "123-456-784"). reflexivity. Defined.

(** Two TRNs that differ in one digit, and two that differ by the
    exchange of two neighbouring digits. *)
Definition digit_at (i : nat) (t : trn_digits) : Z := nth i (digits_list t) 0.

Definition one_digit_changed (t t' : trn_digits) : Prop :=
  exists i, (i < 9)%nat
            /\ digit_at i t <> digit_at i t'
            /\ forall j, j <> i -> digit_at j t = digit_at j t'.

Definition neighbours_exchanged (t t' : trn_digits) : Prop :=
  exists i, (i < 8)%nat
            /\ digit_at i t <> digit_at (S i) t
            /\ digit_at i t' = digit_at (S i) t
            /\ digit_at (S i) t' = digit_at i t
            /\ forall j, j <> i -> j <> S i -> digit_at j t = digit_at j t'.

Ltac other_digits H :=
  pose proof (H 0%nat) as ?H0; pose proof (H 1%nat) as ?H1;
  pose proof (H 2%nat) as ?H2; pose proof (H 3%nat) as ?H3;
  pose proof (H 4%nat) as ?H4; pose proof (H 5%nat) as ?H5;
  pose proof (H 6%nat) as ?H6; pose proof (H 7%nat) as ?H7;
  pose proof (H 8%nat) as ?H8; clear H;
  cbn [digit_at digits_list nth trn1 trn2 trn3 trn4 trn5 trn6 trn7 trn8 trn9] in *.

Lemma checksum_one_digit (t t' : trn_digits) :
  all_digits t -> all_digits t' -> one_digit_changed t t' ->
  checksum t mod 11 = 0 -> checksum t' mod 11 <> 0.
Proof.
  intros H H' (i & Hi & Hne & Hsame) Hsum Hsum'.
  destruct t as [a1 a2 a3 a4 a5 a6 a7 a8 a9], t' as [b1 b2 b3 b4 b5 b6 b7 b8 b9].
  split_digits H. split_digits H'. unfold is_digit in *.
  unfold checksum in *. cbn [trn1 trn2 trn3 trn4 trn5 trn6 trn7 trn8 trn9] in *.
  apply Z.mod_divide in Hsum; [| lia]. apply Z.mod_divide in Hsum'; [| lia].
  destruct Hsum as [q Hq], Hsum' as [q' Hq'].
  do 9 (destruct i as [| i]; [other_digits Hsame; lia |]).
  lia.
Qed.

Lemma checksum_neighbours (t t' : trn_digits) :
  all_digits t -> all_digits t' -> neighbours_exchanged t t' ->
  checksum t mod 11 = 0 -> checksum t' mod 11 <> 0.
Proof.
  intros H H' (i & Hi & Hne & Hl & Hr & Hsame) Hsum Hsum'.
  destruct t as [a1 a2 a3 a4 a5 a6 a7 a8 a9], t' as [b1 b2 b3 b4 b5 b6 b7 b8 b9].
  split_digits H. split_digits H'. unfold is_digit in *.
  unfold checksum in *. cbn [trn1 trn2 trn3 trn4 trn5 trn6 trn7 trn8 trn9] in *.
  apply Z.mod_divide in Hsum; [| lia]. apply Z.mod_divide in Hsum'; [| lia].
  destruct Hsum as [q Hq], Hsum' as [q' Hq'].
  do 8 (destruct i as [| i]; [other_digits Hsame; lia |]).
  lia.
Qed.

(** X4: a valid TRN in which one digit is replaced by another digit is
    not valid. *)
Theorem is_valid_trn_detects_one_digit (text text' : string) (t t' : trn_digits) :
  all_digits t -> all_digits t' ->
  unformat_trn text = raw_form t -> unformat_trn text' = raw_form t' ->
  one_digit_changed t t' ->
  is_valid_trn text = true -> is_valid_trn text' = false.
Proof.
  intros H H' Hraw Hraw' Hchg.
  rewrite (is_valid_trn_checksum text t H (or_introl Hraw)).
  rewrite (is_valid_trn_checksum text' t' H' (or_introl Hraw')).
  intros Hv. apply Z.eqb_eq in Hv. apply Z.eqb_neq.
  now apply (checksum_one_digit t t').
Qed.

(** X5: a valid TRN in which two different neighbouring digits are
    exchanged is not valid. *)
Theorem is_valid_trn_detects_exchange (text text' : string) (t t' : trn_digits) :
  all_digits t -> all_digits t' ->
  unformat_trn text = raw_form t -> unformat_trn text' = raw_form t' ->
  neighbours_exchanged t t' ->
  is_valid_trn text = true -> is_valid_trn text' = false.
Proof.
  intros H H' Hraw Hraw' Hchg.
  rewrite (is_valid_trn_checksum text t H (or_introl Hraw)).
  rewrite (is_valid_trn_checksum text' t' H' (or_introl Hraw')).
  intros Hv. apply Z.eqb_eq in Hv. apply Z.eqb_neq.
  now apply (checksum_neighbours t t').
Qed.

Definition sample_trn : trn_digits := Digits 1 2 3 4 5 6 7 8 4.

Lemma sample_trn_digits (a b c d e f g h i : Z) :
  0 <= a <= 9 -> 0 <= b <= 9 -> 0 <= c <= 9 -> 0 <= d <= 9 -> 0 <= e <= 9 ->
  0 <= f <= 9 -> 0 <= g <= 9 -> 0 <= h <= 9 -> 0 <= i <= 9 ->
  all_digits (Digits a b c d e f g h i).
Proof.
  intros. unfold all_digits, digits_list. cbn.
  repeat (apply Forall_cons; [assumption |]). apply Forall_nil.
Defined.

(** A witness of X4: 123456784 is valid, 123456780 is not. *)
Lemma is_valid_trn_detects_one_digit_witness : is_valid_trn "123456780" = false.
Proof.
  apply (is_valid_trn_detects_one_digit
           "123-456-784" "123456780" sample_trn (Digits 1 2 3 4 5 6 7 8 0)).
  - apply sample_trn_digits; lia.
  - apply sample_trn_digits; lia.
  - reflexivity.
  - reflexivity.
  - exists 8%nat. split; [lia |]. split; [discriminate |].
    intros j Hj. do 8 (destruct j as [| j]; [reflexivity |]).
    destruct j as [| j]; [contradiction | destruct j; reflexivity].
  - reflexivity.
Defined.

(** A witness of X5: 123456784 is valid, 213456784 is not. *)
Lemma is_valid_trn_detects_exchange_witness : is_valid_trn "213456784" = false.
Proof.
  apply (is_valid_trn_detects_exchange
           "123456784" "213456784" sample_trn (Digits 2 1 3 4 5 6 7 8 4)).
  - apply sample_trn_digits; lia.
  - apply sample_trn_digits; lia.
  - reflexivity.
  - reflexivity.
  - exists 0%nat. split; [lia |]. split; [discriminate |].
    split; [reflexivity |]. split; [reflexivity |].
    intros j Hj Hj'. destruct j as [| [| j]]; [contradiction | contradiction |].
    do 7 (destruct j as [| j]; [reflexivity |]). destruct j; reflexivity.
  - reflexivity.
Defined.

Definition prefix_form (t : trn_digits) : string :=
  digit_string [trn1 t; trn2 t; trn3 t; trn4 t; trn5 t; trn6 t; trn7 t; trn8 t].

Lemma eight_digits_inv (s : string) (m : Re.matched) (c : Z) :
  is_digit c ->
  Re.rmatch false _EIGHT_DIGITS s = Some m ->
  exists t, all_digits t /\ trn9 t = c
            /\ (s = prefix_form t \/ s = prefix_form t ++ newline).
Proof.
  unfold Re.rmatch, _EIGHT_DIGITS. cbn [Re.run Re.Times]. intros Hc H.
  do 8 (destruct s as [| ? s]; [discriminate H |];
        match type of H with
        | context [Py.isdigit ?a] =>
            let E := fresh "E" in
            destruct (Py.isdigit a) eqn:E; [apply isdigit_inv in E | discriminate H]
        end).
  repeat match goal with E : _ /\ _ |- _ => destruct E end.
  exists (Digits (Py.digit_val a) (Py.digit_val a0) (Py.digit_val a1)
                 (Py.digit_val a2) (Py.digit_val a3) (Py.digit_val a4)
                 (Py.digit_val a5) (Py.digit_val a6) c).
  split; [| split; [reflexivity |]].
  - unfold all_digits, digits_list. cbn [trn1 trn2 trn3 trn4 trn5 trn6 trn7 trn8 trn9].
    repeat (apply Forall_cons; [assumption |]). apply Forall_nil.
  - unfold prefix_form. cbn [trn1 trn2 trn3 trn4 trn5 trn6 trn7 trn8 digit_string].
    repeat match goal with E : ?a = Py.digit_char _ |- _ => rewrite <- E; clear E end.
    destruct s as [| x s]; [left; reflexivity |].
    destruct s as [| ? ?]; [| discriminate H].
    destruct (Ascii.eqb_spec x "010"%char) as [-> | ?]; [| discriminate H].
    right. reflexivity.
Qed.

Lemma get_trn_check_digit_prefix (s : string) (t : trn_digits) :
  all_digits t ->
  s = prefix_form t \/ s = prefix_form t ++ newline ->
  get_trn_check_digit s = check_digit_of_total (checksum t - trn9 t).
Proof.
  intros H Hs. destruct t as [d1 d2 d3 d4 d5 d6 d7 d8 d9]. split_digits H.
  unfold checksum, prefix_form in *. cbn [trn1 trn2 trn3 trn4 trn5 trn6 trn7 trn8 trn9] in *.
  replace (3 * d1 + 7 * d2 + 1 * d3 + 3 * d4 + 7 * d5 + 1 * d6 + 3 * d7 + 7 * d8
           + d9 - d9)
    with (3 * d1 + 7 * d2 + 1 * d3 + 3 * d4 + 7 * d5 + 1 * d6 + 3 * d7 + 7 * d8)
    by ring.
  destruct Hs as [-> | ->]; [now apply get_trn_check_digit_formula |].
  rewrite <- (get_trn_check_digit_formula d1 d2 d3 d4 d5 d6 d7 d8) by assumption.
  unfold get_trn_check_digit, Re.rmatch, _EIGHT_DIGITS.
  cbn [Re.run Re.Times digit_string String.append newline]. use_digits.
  cbv beta iota. unfold Re.finish.
  unfold weighted_sum, _WEIGHTS.
  cbn [list_ascii_of_string combine map fold_left fst snd]. reflexivity.
Qed.

(** X6: [get_trn_check_digit] returns [c] exactly when its argument is
    eight digits (or eight digits and a final newline) and [c] is the
    digit that makes the weighted sum of the nine digits a multiple of 11;
    it returns [None] for any other argument and when no digit does. *)
Theorem get_trn_check_digit_iff (s : string) (c : Z) :
  get_trn_check_digit s = Some c <->
  exists t, all_digits t /\ trn9 t = c
            /\ (s = prefix_form t \/ s = prefix_form t ++ newline)
            /\ checksum t mod 11 = 0.
Proof.
  split.
  - intros Hg.
    destruct (Re.rmatch false _EIGHT_DIGITS s) as [m |] eqn:Hm.
    2: { unfold get_trn_check_digit in Hg. rewrite Hm in Hg. discriminate Hg. }
    assert (Hc : is_digit c).
    { unfold get_trn_check_digit in Hg. rewrite Hm in Hg.
      apply (check_digit_is_digit (weighted_sum s)).
      unfold check_digit_of_total. cbv zeta in Hg |- *.
      destruct (weighted_sum s mod 11 =? 0); [exact Hg |].
      destruct (11 - weighted_sum s mod 11 =? 10); exact Hg. }
    destruct (eight_digits_inv s m c Hc Hm) as (t & Ht & H9 & Hs).
    exists t. repeat (split; [assumption |]).
    rewrite (get_trn_check_digit_prefix s t Ht Hs) in Hg.
    pose proof (check_digit_test (checksum t - trn9 t) c Hc) as Htest.
    rewrite Hg, Z.eqb_refl in Htest. symmetry in Htest. apply Z.eqb_eq in Htest.
    replace (checksum t - trn9 t + c) with (checksum t) in Htest
      by (rewrite <- H9; ring).
    exact Htest.
  - intros (t & Ht & H9 & Hs & Hsum).
    rewrite (get_trn_check_digit_prefix s t Ht Hs).
    assert (Hc : is_digit c).
    { subst c. destruct t. split_digits Ht. assumption. }
    pose proof (check_digit_test (checksum t - trn9 t) c Hc) as Htest.
    replace (checksum t - trn9 t + c) with (checksum t) in Htest
      by (rewrite <- H9; ring).
    rewrite Hsum in Htest. cbn [Z.eqb] in Htest.
    destruct (check_digit_of_total (checksum t - trn9 t)) as [e |]; [| discriminate Htest].
    apply Z.eqb_eq in Htest. congruence.
Qed.

End TrnStructure.

Section DecimalStrings.

Lemma append_assoc (a b c : string) : (a ++ b) ++ c = a ++ (b ++ c).
Proof. induction a as [| x a IH]; cbn; [reflexivity | now rewrite IH]. Qed.

Lemma div_eucl_10 (q r : Z) : 0 <= r < 10 -> Z.div_eucl (10 * q + r) 10 = (q, r).
Proof.
  intros Hr. pose proof (Z_div_mod (10 * q + r) 10 ltac:(lia)) as H.
  destruct (Z.div_eucl (10 * q + r) 10) as [q' r'].
  destruct H as [H1 H2]. f_equal; lia.
Qed.

Lemma digits_of_pos_acc (fuel : nat) :
  forall n acc, Py.digits_of_pos fuel n acc = Py.digits_of_pos fuel n "" ++ acc.
Proof.
  induction fuel as [| f IH]; intros n acc; cbn [Py.digits_of_pos]; [reflexivity |].
  destruct (Z.div_eucl n 10) as [q r].
  destruct (q =? 0); [reflexivity |].
  rewrite (IH q (String _ acc)), (IH q (String _ "")).
  rewrite append_assoc. reflexivity.
Qed.

(** With enough fuel for [n], more fuel changes nothing. *)
Lemma digits_of_pos_fuel (f1 : nat) :
  forall f2 n acc,
    0 < n < 2 ^ Z.of_nat f1 -> n < 2 ^ Z.of_nat f2 ->
    Py.digits_of_pos f1 n acc = Py.digits_of_pos f2 n acc.
Proof.
  induction f1 as [| f1 IH]; intros f2 n acc H1 H2.
  - cbn in H1. lia.
  - destruct f2 as [| f2]; [cbn in H2; lia |].
    cbn [Py.digits_of_pos].
    pose proof (Z_div_mod n 10 ltac:(lia)) as Hdm.
    destruct (Z.div_eucl n 10) as [q r]. destruct Hdm as [Hn Hr].
    destruct (Z.eqb_spec q 0); [reflexivity |].
    rewrite !Nat2Z.inj_succ, !Z.pow_succ_r in * by lia.
    apply IH; lia.
Qed.

Lemma str_of_nonneg_fuel (n : Z) (f : nat) :
  0 < n < 2 ^ Z.of_nat f -> Py.str_of_nonneg n = Py.digits_of_pos f n "".
Proof.
  intros H. unfold Py.str_of_nonneg. apply digits_of_pos_fuel; [| lia].
  rewrite Nat2Z.inj_succ, Z2Nat.id by apply Z.log2_nonneg.
  pose proof (Z.log2_spec n ltac:(lia)). lia.
Qed.

(** [str(10 * q + r)] is [str(q)] followed by the digit [r]. *)
Lemma str_of_nonneg_step (q r : Z) :
  0 < q -> is_digit r ->
  Py.str_of_nonneg (10 * q + r)
  = Py.str_of_nonneg q ++ String (Py.digit_char r) "".
Proof.
  unfold is_digit. intros Hq Hr.
  set (f := Z.to_nat (Z.log2 q)).
  assert (Hf : 0 < q < 2 ^ Z.of_nat (S f)).
  { unfold f. rewrite Nat2Z.inj_succ, Z2Nat.id by apply Z.log2_nonneg.
    pose proof (Z.log2_spec q ltac:(lia)). lia. }
  rewrite (str_of_nonneg_fuel (10 * q + r) (S (S (S (S (S f)))))).
  2: { rewrite !Nat2Z.inj_succ, !Z.pow_succ_r in * by lia. lia. }
  rewrite (str_of_nonneg_fuel q (S (S (S (S f))))).
  2: { rewrite !Nat2Z.inj_succ, !Z.pow_succ_r in * by lia. lia. }
  cbn [Py.digits_of_pos]. rewrite div_eucl_10 by lia.
  destruct (Z.eqb_spec q 0); [lia |].
  apply (digits_of_pos_acc (S (S (S (S f))))).
Qed.

Lemma str_of_nonneg_digit (d : Z) :
  is_digit d -> Py.str_of_nonneg d = String (Py.digit_char d) "".
Proof.
  intros H. apply digit_cases in H.
  repeat (destruct H as [H | H]; [subst; reflexivity |]). subst. reflexivity.
Qed.

Lemma zfill_2 (a b : Z) :
  is_digit a -> is_digit b -> Py.zfill 2 (10 * a + b) = digit_string [a; b].
Proof.
  intros Ha Hb. unfold Py.zfill.
  destruct (Z.eq_dec a 0) as [-> | Hne].
  - rewrite Z.mul_0_r, Z.add_0_l. rewrite (str_of_nonneg_digit b Hb). reflexivity.
  - rewrite str_of_nonneg_step by (unfold is_digit in *; lia || assumption).
    rewrite (str_of_nonneg_digit a Ha). reflexivity.
Qed.

Lemma zfill_4 (a b c d : Z) :
  is_digit a -> is_digit b -> is_digit c -> is_digit d ->
  Py.zfill 4 (1000 * a + 100 * b + 10 * c + d) = digit_string [a; b; c; d].
Proof.
  intros Ha Hb Hc Hd. unfold Py.zfill.
  replace (1000 * a + 100 * b + 10 * c + d)
    with (10 * (10 * (10 * a + b) + c) + d) by ring.
  destruct (Z.eq_dec a 0) as [-> | Ha0];
    [rewrite ?Z.mul_0_r, ?Z.add_0_l | rewrite str_of_nonneg_step by (unfold is_digit in *; lia || assumption)].
  - destruct (Z.eq_dec b 0) as [-> | Hb0];
      [rewrite ?Z.mul_0_r, ?Z.add_0_l | rewrite str_of_nonneg_step by (unfold is_digit in *; lia || assumption)].
    + destruct (Z.eq_dec c 0) as [-> | Hc0];
        [rewrite ?Z.mul_0_r, ?Z.add_0_l | rewrite str_of_nonneg_step by (unfold is_digit in *; lia || assumption)].
      * rewrite (str_of_nonneg_digit d Hd). reflexivity.
      * rewrite (str_of_nonneg_digit c Hc). reflexivity.
    + rewrite str_of_nonneg_step by (unfold is_digit in *; lia || assumption).
      rewrite (str_of_nonneg_digit b Hb). reflexivity.
  - rewrite str_of_nonneg_step by (unfold is_digit in *; lia || assumption).
    rewrite str_of_nonneg_step by (unfold is_digit in *; lia || assumption).
    rewrite (str_of_nonneg_digit a Ha). reflexivity.
Qed.

End DecimalStrings.

Section DateStrings.

Import Holidays.

(** A date that [datetime.date] can hold. *)
Definition valid_date (d : Datetime.date) : Prop :=
  Datetime.new (Datetime.year d) (Datetime.month d) (Datetime.day d) = Some d.

Lemma new_valid (y m dd : Z) (d : Datetime.date) :
  Datetime.new y m dd = Some d ->
  d = Datetime.mkdate y m dd /\ valid_date d
  /\ 1 <= y <= 9999 /\ 1 <= m <= 12 /\ 1 <= dd <= Datetime._days_in_month y m.
Proof.
  unfold valid_date, Datetime.new, Datetime.MINYEAR, Datetime.MAXYEAR. intros H.
  destruct ((1 <=? y) && (y <=? 9999) && (1 <=? m) && (m <=? 12) && (1 <=? dd)
            && (dd <=? Datetime._days_in_month y m)) eqn:E; [| discriminate H].
  injection H as <-. cbn [Datetime.year Datetime.month Datetime.day]. rewrite E.
  rewrite !andb_true_iff, !Z.leb_le in E. repeat split; lia.
Qed.

Lemma valid_date_bounds (d : Datetime.date) :
  valid_date d ->
  1 <= Datetime.year d <= 9999 /\ 1 <= Datetime.month d <= 12
  /\ 1 <= Datetime.day d <= 31.
Proof.
  intros H. apply new_valid in H. destruct H as (_ & _ & Hy & Hm & Hd).
  repeat split; try lia.
  assert (Datetime._days_in_month (Datetime.year d) (Datetime.month d) <= 31); [| lia].
  unfold Datetime._days_in_month.
  destruct (if Datetime.month d =? 2 then _ else _); [lia |].
  assert (Hc : Datetime.month d = 1 \/ Datetime.month d = 2 \/ Datetime.month d = 3
               \/ Datetime.month d = 4 \/ Datetime.month d = 5 \/ Datetime.month d = 6
               \/ Datetime.month d = 7 \/ Datetime.month d = 8 \/ Datetime.month d = 9
               \/ Datetime.month d = 10 \/ Datetime.month d = 11
               \/ Datetime.month d = 12) by lia.
  repeat (destruct Hc as [Hc | Hc]; [rewrite Hc; cbv; discriminate |]).
  rewrite Hc; cbv; discriminate.
Qed.

(** The decimal digits of the fields of a date, as [isoformat] writes
    them. *)
Lemma _fmt_digits (d : Datetime.date) :
  valid_date d ->
  exists y1 y2 y3 y4 m1 m2 d1 d2,
    Forall is_digit [y1; y2; y3; y4; m1; m2; d1; d2]
    /\ Datetime.year d = 1000 * y1 + 100 * y2 + 10 * y3 + y4
    /\ Datetime.month d = 10 * m1 + m2
    /\ Datetime.day d = 10 * d1 + d2
    /\ _fmt d = digit_string [y1; y2; y3; y4] ++ "-" ++ digit_string [m1; m2]
                ++ "-" ++ digit_string [d1; d2].
Proof.
  intros H. apply valid_date_bounds in H. destruct H as (Hy & Hm & Hd).
  unfold _fmt, Datetime.isoformat.
  set (y := Datetime.year d) in *. set (m := Datetime.month d) in *.
  set (dd := Datetime.day d) in *.
  exists (y / 1000), ((y / 100) mod 10), ((y / 10) mod 10), (y mod 10),
    (m / 10), (m mod 10), (dd / 10), (dd mod 10).
  assert (Hds : Forall is_digit
                  [y / 1000; (y / 100) mod 10; (y / 10) mod 10; y mod 10;
                   m / 10; m mod 10; dd / 10; dd mod 10]).
  { repeat (apply Forall_cons;
            [unfold is_digit; Z.div_mod_to_equations; lia |]).
    apply Forall_nil. }
  split; [exact Hds |].
  assert (Ey : y = 1000 * (y / 1000) + 100 * ((y / 100) mod 10)
                   + 10 * ((y / 10) mod 10) + y mod 10)
    by (Z.div_mod_to_equations; lia).
  assert (Em : m = 10 * (m / 10) + m mod 10) by (Z.div_mod_to_equations; lia).
  assert (Ed : dd = 10 * (dd / 10) + dd mod 10) by (Z.div_mod_to_equations; lia).
  do 3 (split; [assumption |]).
  repeat match goal with
         | Hf : Forall is_digit (_ :: _) |- _ => inversion Hf; clear Hf; subst
         end.
  rewrite <- zfill_4, <- !zfill_2 by assumption.
  rewrite <- Ey, <- Em, <- Ed. reflexivity.
Qed.

Lemma digit_of_digit_char (k : Z) : is_digit k -> Py.digit_of (Py.digit_char k) = Some k.
Proof.
  intros H. apply digit_cases in H.
  repeat (destruct H as [H | H]; [subst; reflexivity |]). subst. reflexivity.
Qed.

(** [_parse] reads back what [_fmt] writes. *)
Lemma _parse_fmt (d : Datetime.date) : valid_date d -> _parse (_fmt d) = Some d.
Proof.
  intros H.
  destruct (_fmt_digits d H)
    as (y1 & y2 & y3 & y4 & m1 & m2 & d1 & d2 & Hds & Ey & Em & Ed & ->).
  repeat match goal with
         | Hf : Forall is_digit (_ :: _) |- _ => inversion Hf; clear Hf; subst
         end.
  unfold _parse, Datetime.fromisoformat.
  cbn [digit_string String.append list_ascii_of_string].
  rewrite !digit_of_digit_char by assumption.
  rewrite <- Ey, <- Em, <- Ed. exact H.
Qed.

Lemma char_cmp_digits (a b : Z) :
  is_digit a -> is_digit b -> Py.char_cmp (Py.digit_char a) (Py.digit_char b) = (a ?= b).
Proof.
  intros Ha Hb. apply digit_cases in Ha, Hb.
  repeat (destruct Ha as [Ha | Ha]; [subst a |]); try subst a;
    repeat (destruct Hb as [Hb | Hb]; [subst b; reflexivity |]); subst b; reflexivity.
Qed.

(** Two digits at a time: the comparison of a pair of digits, then [rest],
    is the comparison of the two-digit numbers, then [rest]. *)
Lemma compare_two_digits (a1 a2 b1 b2 : Z) (rest : bool) :
  is_digit a1 -> is_digit a2 -> is_digit b1 -> is_digit b2 ->
  match a1 ?= b1 with
  | Lt => true
  | Gt => false
  | Eq => match a2 ?= b2 with Lt => true | Gt => false | Eq => rest end
  end
  = match 10 * a1 + a2 ?= 10 * b1 + b2 with
    | Lt => true | Gt => false | Eq => rest
    end.
Proof.
  unfold is_digit. intros.
  destruct (Z.compare_spec a1 b1); destruct (Z.compare_spec a2 b2);
    destruct (Z.compare_spec (10 * a1 + a2) (10 * b1 + b2));
    try reflexivity; lia.
Qed.

Lemma compare_four_digits (a1 a2 a3 a4 b1 b2 b3 b4 : Z) (rest : bool) :
  Forall is_digit [a1; a2; a3; a4; b1; b2; b3; b4] ->
  match a1 ?= b1 with
  | Lt => true
  | Gt => false
  | Eq =>
      match a2 ?= b2 with
      | Lt => true
      | Gt => false
      | Eq =>
          match a3 ?= b3 with
          | Lt => true
          | Gt => false
          | Eq => match a4 ?= b4 with Lt => true | Gt => false | Eq => rest end
          end
      end
  end
  = match 1000 * a1 + 100 * a2 + 10 * a3 + a4
          ?= 1000 * b1 + 100 * b2 + 10 * b3 + b4 with
    | Lt => true | Gt => false | Eq => rest
    end.
Proof.
  intros H.
  repeat match goal with
         | Hf : Forall is_digit (_ :: _) |- _ => inversion Hf; clear Hf; subst
         end.
  unfold is_digit in *.
  destruct (Z.compare_spec a1 b1); destruct (Z.compare_spec a2 b2);
    destruct (Z.compare_spec a3 b3); destruct (Z.compare_spec a4 b4);
    destruct (Z.compare_spec (1000 * a1 + 100 * a2 + 10 * a3 + a4)
                             (1000 * b1 + 100 * b2 + 10 * b3 + b4));
    try reflexivity; lia.
Qed.

Lemma ltb_by_compare (ya ma da yb mb db : Z) :
  match ya ?= yb with
  | Lt => true
  | Gt => false
  | Eq => match ma ?= mb with
          | Lt => true
          | Gt => false
          | Eq => match da ?= db with Lt => true | _ => false end
          end
  end
  = Datetime.ltb (Datetime.mkdate ya ma da) (Datetime.mkdate yb mb db).
Proof.
  unfold Datetime.ltb. cbn [Datetime.year Datetime.month Datetime.day].
  destruct (Z.compare_spec ya yb); destruct (Z.compare_spec ma mb);
    destruct (Z.compare_spec da db);
    repeat match goal with
           | |- context [?x <? ?y] => destruct (Z.ltb_spec x y)
           | |- context [?x =? ?y] => destruct (Z.eqb_spec x y)
           end; cbn [orb andb]; try reflexivity; lia.
Qed.

(** The order of the ISO strings is the order of the dates. *)
Lemma _fmt_ltb (a b : Datetime.date) :
  valid_date a -> valid_date b ->
  Py.str_ltb (_fmt a) (_fmt b) = Datetime.ltb a b.
Proof.
  intros Ha Hb.
  destruct (_fmt_digits a Ha)
    as (y1 & y2 & y3 & y4 & m1 & m2 & d1 & d2 & Hds & Ey & Em & Ed & ->).
  destruct (_fmt_digits b Hb)
    as (z1 & z2 & z3 & z4 & n1 & n2 & e1 & e2 & Hes & Ez & En & Ee & ->).
  destruct a as [ya ma da], b as [yb mb db].
  cbn [Datetime.year Datetime.month Datetime.day] in *.
  rewrite <- ltb_by_compare. subst ya ma da yb mb db.
  rewrite <- (compare_four_digits y1 y2 y3 y4 z1 z2 z3 z4).
  2: { repeat match goal with
              | Hf : Forall is_digit (_ :: _) |- _ => inversion Hf; clear Hf; subst
              end.
       repeat (apply Forall_cons; [assumption |]). apply Forall_nil. }
  repeat match goal with
         | Hf : Forall is_digit (_ :: _) |- _ => inversion Hf; clear Hf; subst
         end.
  rewrite <- !compare_two_digits by assumption.
  cbn [digit_string String.append Py.str_ltb].
  rewrite !char_cmp_digits by assumption.
  change (Py.char_cmp "-" "-") with Eq. cbv iota.
  destruct (y1 ?= z1), (y2 ?= z2), (y3 ?= z3), (y4 ?= z4), (m1 ?= n1), (m2 ?= n2),
    (d1 ?= e1); try reflexivity; destruct (d2 ?= e2); reflexivity.
Qed.

End DateStrings.

Section Ordinals.

Import Datetime.

(** The year [400 a + 100 b + 4 c + e + 1], by its place in the cycles of
    400, 100 and 4 years. *)
Lemma year_in_cycles (a b c e : Z) :
  0 <= a -> 0 <= b <= 3 -> 0 <= c <= 24 -> 0 <= e <= 3 ->
  _days_before_year (400 * a + 100 * b + 4 * c + e + 1)
  = 146097 * a + 36524 * b + 1461 * c + 365 * e
  /\ _is_leap (400 * a + 100 * b + 4 * c + e + 1)
     = (e =? 3) && (negb (c =? 24) || (b =? 3)).
Proof.
  intros Ha Hb Hc He. split.
  - unfold _days_before_year. cbv zeta.
    replace (400 * a + 100 * b + 4 * c + e + 1 - 1)
      with (400 * a + 100 * b + 4 * c + e) by ring.
    rewrite <- (Z.div_unique (400 * a + 100 * b + 4 * c + e) 4 (100 * a + 25 * b + c) e)
      by lia.
    rewrite <- (Z.div_unique (400 * a + 100 * b + 4 * c + e) 100 (4 * a + b) (4 * c + e))
      by lia.
    rewrite <- (Z.div_unique (400 * a + 100 * b + 4 * c + e) 400 a (100 * b + 4 * c + e))
      by lia.
    ring.
  - unfold _is_leap.
    destruct (Z.eqb_spec e 3) as [-> | He3].
    + replace (400 * a + 100 * b + 4 * c + 3 + 1)
        with (4 * (100 * a + 25 * b + c + 1)) by ring.
      rewrite Z.mul_comm, Z.mod_mul by lia. cbn [Z.eqb andb].
      destruct (Z.eqb_spec c 24) as [-> | Hc24].
      * replace ((100 * a + 25 * b + 24 + 1) * 4) with ((4 * a + b + 1) * 100) by ring.
        rewrite Z.mod_mul by lia. cbn [Z.eqb negb orb].
        destruct (Z.eqb_spec b 3) as [-> | Hb3].
        -- replace ((4 * a + 3 + 1) * 100) with ((a + 1) * 400) by ring.
           rewrite Z.mod_mul by lia. reflexivity.
        -- replace ((4 * a + b + 1) * 100) with (400 * a + 100 * (b + 1)) by ring.
           rewrite <- (Z.mod_unique (400 * a + 100 * (b + 1)) 400 a (100 * (b + 1)))
             by lia.
           destruct (Z.eqb_spec (100 * (b + 1)) 0); [lia | reflexivity].
      * cbn [negb orb].
        replace ((100 * a + 25 * b + c + 1) * 4)
          with (100 * (4 * a + b) + 4 * (c + 1)) by ring.
        rewrite <- (Z.mod_unique (100 * (4 * a + b) + 4 * (c + 1)) 100 (4 * a + b)
                              (4 * (c + 1))) by lia.
        destruct (Z.eqb_spec (4 * (c + 1)) 0); [lia | reflexivity].
    + cbn [andb].
      rewrite <- (Z.mod_unique (400 * a + 100 * b + 4 * c + e + 1) 4
                            (100 * a + 25 * b + c) (e + 1)) by lia.
      destruct (Z.eqb_spec (e + 1) 0); [lia | reflexivity].
Qed.

(** The last step of [_ord2ymd]: the date of the [n]-th day of [year],
    counted from 0. *)
Definition date_in_year (year n : Z) (leapyear : bool) : date :=
  let month := Z.shiftr (n + 50) 5 in
  let preceding :=
    index _DAYS_BEFORE_MONTH month + (if (month >? 2) && leapyear then 1 else 0) in
  let '(month, preceding) :=
    if preceding >? n
    then (month - 1,
          preceding - (index _DAYS_IN_MONTH (month - 1)
                       + (if (month - 1 =? 2) && leapyear then 1 else 0)))
    else (month, preceding) in
  mkdate year month (n - preceding + 1).

Definition month_day (n : Z) (leapyear : bool) : Z * Z :=
  let d := date_in_year 0 n leapyear in (month d, day d).

Lemma date_in_year_month_day (y n : Z) (leapyear : bool) :
  date_in_year y n leapyear
  = mkdate y (fst (month_day n leapyear)) (snd (month_day n leapyear)).
Proof.
  unfold month_day, date_in_year. cbv zeta.
  destruct (_ >? n); reflexivity.
Qed.

Definition month_day_ok (leapyear : bool) (n : Z) : bool :=
  let '(m, d) := month_day n leapyear in
  (1 <=? m) && (m <=? 12) && (1 <=? d)
  && (d <=? (if (m =? 2) && leapyear then 29 else index _DAYS_IN_MONTH m))
  && (index _DAYS_BEFORE_MONTH m + (if (m >? 2) && leapyear then 1 else 0) + d
      =? n + 1).

Lemma month_day_common : all_from 365 0 (month_day_ok false) = true.
Proof. vm_compute. reflexivity. Qed.

Lemma month_day_leap : all_from 366 0 (month_day_ok true) = true.
Proof. vm_compute. reflexivity. Qed.

Lemma month_day_spec (n : Z) (leapyear : bool) :
  0 <= n < 365 + (if leapyear then 1 else 0) ->
  let '(m, d) := month_day n leapyear in
  1 <= m <= 12
  /\ 1 <= d <= (if (m =? 2) && leapyear then 29 else index _DAYS_IN_MONTH m)
  /\ index _DAYS_BEFORE_MONTH m + (if (m >? 2) && leapyear then 1 else 0) + d = n + 1.
Proof.
  intros Hn.
  assert (H : month_day_ok leapyear n = true).
  { destruct leapyear.
    - apply (all_from_spec (month_day_ok true) 366 0 month_day_leap). lia.
    - apply (all_from_spec (month_day_ok false) 365 0 month_day_common). lia. }
  unfold month_day_ok in H. destruct (month_day n leapyear) as [m d].
  rewrite !andb_true_iff, !Z.leb_le, Z.eqb_eq in H. lia.
Qed.

Lemma _days_in_month_bounds (y m : Z) :
  1 <= m <= 12 -> 28 <= _days_in_month y m <= 31.
Proof.
  intros Hm. unfold _days_in_month.
  destruct (if m =? 2 then _ else _); [lia |].
  assert (Hc : m = 1 \/ m = 2 \/ m = 3 \/ m = 4 \/ m = 5 \/ m = 6 \/ m = 7
               \/ m = 8 \/ m = 9 \/ m = 10 \/ m = 11 \/ m = 12) by lia.
  repeat (destruct Hc as [Hc | Hc]; [subst m; cbv; split; discriminate |]).
  subst m; cbv; split; discriminate.
Qed.

Lemma new_ok (y m dd : Z) :
  1 <= y <= 9999 -> 1 <= m <= 12 -> 1 <= dd <= _days_in_month y m ->
  new y m dd = Some (mkdate y m dd).
Proof.
  intros Hy Hm Hd. unfold new, MINYEAR, MAXYEAR.
  replace ((1 <=? y) && (y <=? 9999) && (1 <=? m) && (m <=? 12) && (1 <=? dd)
           && (dd <=? _days_in_month y m)) with true; [reflexivity |].
  symmetry. rewrite !andb_true_iff, !Z.leb_le. lia.
Qed.

Lemma valid_mkdate (y m dd : Z) :
  1 <= y <= 9999 -> 1 <= m <= 12 -> 1 <= dd <= _days_in_month y m ->
  valid_date (mkdate y m dd).
Proof. intros. unfold valid_date. cbn [year month day]. now apply new_ok. Qed.

(** The date of an ordinal: a date that exists, of that ordinal. *)
Lemma _ord2ymd_spec (n : Z) :
  1 <= n <= _MAXORDINAL ->
  valid_date (_ord2ymd n) /\ toordinal (_ord2ymd n) = n.
Proof.
  unfold _MAXORDINAL. intros Hn.
  unfold _ord2ymd, _DI400Y, _DI100Y, _DI4Y. cbv zeta.
  pose proof (Z_div_mod (n - 1) 146097 ltac:(lia)) as H1.
  destruct (Z.div_eucl (n - 1) 146097) as [n400 r1]. destruct H1 as [E1 B1].
  pose proof (Z_div_mod r1 36524 ltac:(lia)) as H2.
  destruct (Z.div_eucl r1 36524) as [n100 r2]. destruct H2 as [E2 B2].
  pose proof (Z_div_mod r2 1461 ltac:(lia)) as H3.
  destruct (Z.div_eucl r2 1461) as [n4 r3]. destruct H3 as [E3 B3].
  pose proof (Z_div_mod r3 365 ltac:(lia)) as H4.
  destruct (Z.div_eucl r3 365) as [n1 r4]. destruct H4 as [E4 B4].
  assert (R400 : 0 <= n400 <= 24) by lia.
  assert (R100 : 0 <= n100 <= 4) by lia.
  assert (R4 : 0 <= n4 <= 24) by lia.
  assert (R1 : 0 <= n1 <= 4) by lia.
  destruct (Z.eqb_spec n1 4) as [-> | N1]; [| destruct (Z.eqb_spec n100 4) as [-> | N100]];
    cbn [orb].
  - (* the last day of a cycle of 4 years *)
    assert (n4 <= 23 /\ n100 <= 3) by lia.
    destruct (year_in_cycles n400 n100 n4 3) as [Hd Hl]; try lia.
    replace (n400 * 400 + 1 + n100 * 100 + n4 * 4 + 4 - 1)
      with (400 * n400 + 100 * n100 + 4 * n4 + 3 + 1) by ring.
    set (Y := 400 * n400 + 100 * n100 + 4 * n4 + 3 + 1) in *.
    assert (Hleap : _is_leap Y = true).
    { rewrite Hl. destruct (Z.eqb_spec n4 24); [lia | reflexivity]. }
    split.
    + apply valid_mkdate; [unfold Y; lia | lia |].
      change (_days_in_month Y 12) with 31. lia.
    + unfold toordinal, _ymd2ord. cbn [year month day].
      change (_days_before_month Y 12) with (334 + (if _is_leap Y then 1 else 0)).
      rewrite Hd, Hleap. lia.
  - (* the last day of a cycle of 400 years *)
    assert (n4 = 0 /\ n1 = 0 /\ n400 <= 23) by lia.
    destruct (year_in_cycles n400 3 24 3) as [Hd Hl]; try lia.
    replace (n400 * 400 + 1 + 4 * 100 + n4 * 4 + n1 - 1)
      with (400 * n400 + 100 * 3 + 4 * 24 + 3 + 1) by lia.
    set (Y := 400 * n400 + 100 * 3 + 4 * 24 + 3 + 1) in *.
    cbn in Hl.
    split.
    + apply valid_mkdate; [unfold Y; lia | lia |].
      change (_days_in_month Y 12) with 31. lia.
    + unfold toordinal, _ymd2ord. cbn [year month day].
      change (_days_before_month Y 12) with (334 + (if _is_leap Y then 1 else 0)).
      rewrite Hd, Hl. lia.
  - (* any other day *)
    destruct (year_in_cycles n400 n100 n4 n1) as [Hd Hl]; try lia.
    replace (n400 * 400 + 1 + n100 * 100 + n4 * 4 + n1)
      with (400 * n400 + 100 * n100 + 4 * n4 + n1 + 1) by ring.
    set (Y := 400 * n400 + 100 * n100 + 4 * n4 + n1 + 1) in *.
    set (leapyear := (n1 =? 3) && (negb (n4 =? 24) || (n100 =? 3))) in *.
    assert (Hr4 : 0 <= r4 < 365 + (if leapyear then 1 else 0)).
    { unfold leapyear.
      destruct (Z.eqb_spec n1 3); destruct (Z.eqb_spec n4 24);
        destruct (Z.eqb_spec n100 3); cbn [andb orb negb]; lia. }
    pose proof (month_day_spec r4 leapyear Hr4) as Hmd.
    change (valid_date (date_in_year Y r4 leapyear)
            /\ toordinal (date_in_year Y r4 leapyear) = n).
    rewrite date_in_year_month_day.
    destruct (month_day r4 leapyear) as [m d]. cbn [fst snd].
    destruct Hmd as (Hm & Hday & Hsum).
    assert (HY : 1 <= Y <= 9999) by (unfold Y; lia).
    split.
    + apply valid_mkdate; [exact HY | exact Hm |].
      unfold _days_in_month. rewrite Hl.
      destruct (m =? 2), leapyear; cbn [andb] in Hday; exact Hday.
    + unfold toordinal, _ymd2ord, _days_before_month. cbn [year month day].
      rewrite Hd, Hl.
      destruct (m >? 2), leapyear; cbn [andb] in Hsum; lia.
Qed.

Lemma _days_before_year_succ (y : Z) :
  _days_before_year (y + 1)
  = _days_before_year y + 365 + (if _is_leap y then 1 else 0).
Proof.
  unfold _days_before_year, _is_leap. cbv zeta.
  replace (y + 1 - 1) with y by ring.
  destruct (Z.eqb_spec (y mod 4) 0); [destruct (Z.eqb_spec (y mod 100) 0);
    [destruct (Z.eqb_spec (y mod 400) 0) |] |];
    Z.div_mod_to_equations; lia.
Qed.

Lemma _days_before_year_mono (y y' : Z) :
  y <= y' -> _days_before_year y <= _days_before_year y'.
Proof.
  unfold _days_before_year. cbv zeta. intros H.
  Z.div_mod_to_equations. lia.
Qed.

Ltac month_cases m :=
  let Hc := fresh "Hc" in
  assert (Hc : m = 1 \/ m = 2 \/ m = 3 \/ m = 4 \/ m = 5 \/ m = 6 \/ m = 7
               \/ m = 8 \/ m = 9 \/ m = 10 \/ m = 11 \/ m = 12) by lia;
  repeat (destruct Hc as [Hc | Hc]; [subst m |]); [.. | subst m].

(** The days before a month and its own days end where the next month
    starts, and the last month ends with the year. *)
Lemma _days_before_month_next (y m : Z) :
  1 <= m <= 12 ->
  _days_before_month y m + _days_in_month y m
  = if m =? 12 then 365 + (if _is_leap y then 1 else 0)
    else _days_before_month y (m + 1).
Proof.
  intros Hm. unfold _days_before_month, _days_in_month.
  month_cases m; destruct (_is_leap y); reflexivity.
Qed.

Lemma _days_before_month_mono (y m m' : Z) :
  1 <= m -> m < m' -> m' <= 12 ->
  _days_before_month y m + _days_in_month y m <= _days_before_month y m'.
Proof.
  intros H1 H2 H3. unfold _days_before_month, _days_in_month.
  month_cases m; month_cases m'; try lia; destruct (_is_leap y); cbv; discriminate.
Qed.

Lemma _days_before_month_bounds (y m : Z) :
  1 <= m <= 12 ->
  0 <= _days_before_month y m
  /\ _days_before_month y m + _days_in_month y m
     <= 365 + (if _is_leap y then 1 else 0).
Proof.
  intros Hm. unfold _days_before_month, _days_in_month.
  month_cases m; destruct (_is_leap y); split; cbv; discriminate.
Qed.

Lemma valid_date_fields (d : date) :
  valid_date d ->
  1 <= year d <= 9999 /\ 1 <= month d <= 12
  /\ 1 <= day d <= _days_in_month (year d) (month d).
Proof. intros H. apply new_valid in H. tauto. Qed.

(** The order of the dates is the order of their ordinals. *)
Lemma toordinal_lt (a b : date) :
  valid_date a -> valid_date b ->
  (date_lt a b <-> toordinal a < toordinal b).
Proof.
  intros Ha Hb.
  apply valid_date_fields in Ha, Hb.
  destruct a as [ya ma da], b as [yb mb db].
  unfold date_lt, toordinal, _ymd2ord. cbn [year month day] in *.
  destruct Ha as (Hya & Hma & Hda), Hb as (Hyb & Hmb & Hdb).
  pose proof (_days_before_month_bounds ya ma Hma) as [Ba1 Ba2].
  pose proof (_days_before_month_bounds yb mb Hmb) as [Bb1 Bb2].
  assert (Hy : forall y y', y < y' ->
                 _days_before_year y + 365 + (if _is_leap y then 1 else 0)
                 <= _days_before_year y').
  { intros y y' H. rewrite <- _days_before_year_succ.
    apply _days_before_year_mono. lia. }
  assert (Hm : forall y m m', 1 <= m -> m < m' -> m' <= 12 ->
                 _days_before_month y m + _days_in_month y m
                 <= _days_before_month y m')
    by (intros; now apply _days_before_month_mono).
  destruct (Z.lt_trichotomy ya yb) as [Hlt | [-> | Hgt]].
  - specialize (Hy ya yb Hlt). split; [lia | intros _; now left].
  - destruct (Z.lt_trichotomy ma mb) as [Hlt | [-> | Hgt]].
    + specialize (Hm yb ma mb ltac:(lia) Hlt ltac:(lia)).
      split; [lia | intros _; right; split; [reflexivity | now left]].
    + split; [lia | intros H; right; split; [reflexivity |]; right; split;
        [reflexivity | lia]].
    + specialize (Hm yb mb ma ltac:(lia) Hgt ltac:(lia)).
      split; lia.
  - specialize (Hy yb ya Hgt). split; lia.
Qed.

Lemma toordinal_inj (a b : date) :
  valid_date a -> valid_date b -> toordinal a = toordinal b -> a = b.
Proof.
  intros Ha Hb H.
  pose proof (toordinal_lt a b Ha Hb) as H1.
  pose proof (toordinal_lt b a Hb Ha) as H2.
  destruct a as [ya ma da], b as [yb mb db].
  unfold date_lt in H1, H2. cbn [year month day] in H1, H2.
  assert (ya = yb /\ ma = mb /\ da = db) as (-> & -> & ->); [| reflexivity].
  lia.
Qed.

Lemma toordinal_bounds (d : date) :
  valid_date d -> 1 <= toordinal d <= _MAXORDINAL.
Proof.
  intros H. pose proof (valid_date_fields d H) as (Hy & Hm & Hd).
  unfold toordinal, _ymd2ord, _MAXORDINAL.
  pose proof (_days_before_month_bounds (year d) (month d) Hm) as [B1 B2].
  pose proof (_days_before_year_mono 1 (year d) ltac:(lia)) as M1.
  pose proof (_days_before_year_mono (year d + 1) 10000 ltac:(lia)) as M2.
  rewrite _days_before_year_succ in M2.
  change (_days_before_year 1) with 0 in M1.
  change (_days_before_year 10000) with 3652059 in M2.
  lia.
Qed.

(** The date of the ordinal of a date is that date. *)
Lemma _ord2ymd_toordinal (d : date) : valid_date d -> _ord2ymd (toordinal d) = d.
Proof.
  intros H. pose proof (toordinal_bounds d H) as Hb.
  destruct (_ord2ymd_spec (toordinal d) Hb) as [Hv Ho].
  now apply toordinal_inj.
Qed.

(** [d + timedelta(days=k)]: the date [k] days later, when there is one. *)
Lemma add_days_spec (d : date) (k : Z) :
  valid_date d ->
  (1 <= toordinal d + k <= _MAXORDINAL ->
   exists d', add_days d k = Some d' /\ valid_date d'
              /\ toordinal d' = toordinal d + k
              /\ weekday d' = (weekday d + k) mod 7)
  /\ (~ 1 <= toordinal d + k <= _MAXORDINAL -> add_days d k = None).
Proof.
  intros H. unfold add_days. cbv zeta. split; intros Hk.
  - replace ((0 <? toordinal d + k) && (toordinal d + k <=? _MAXORDINAL)) with true
      by (symmetry; rewrite andb_true_iff, Z.ltb_lt, Z.leb_le; lia).
    destruct (_ord2ymd_spec (toordinal d + k) Hk) as [Hv Ho].
    eexists. split; [reflexivity |]. split; [exact Hv |]. split; [exact Ho |].
    unfold weekday. rewrite Ho.
    replace (toordinal d + k + 6) with (toordinal d + 6 + k) by ring.
    rewrite Z.add_mod_idemp_l by lia. reflexivity.
  - replace ((0 <? toordinal d + k) && (toordinal d + k <=? _MAXORDINAL)) with false;
      [reflexivity |].
    symmetry. rewrite andb_false_iff, Z.ltb_ge, Z.leb_gt. lia.
Qed.

End Ordinals.

Section HolidayDates.

Import Holidays.

Lemma digit_of_inv (c : ascii) (k : Z) :
  Py.digit_of c = Some k -> is_digit k /\ c = Py.digit_char k.
Proof.
  destruct c as [[] [] [] [] [] [] [] []]; cbn; intros H; try discriminate H;
    injection H as <-; (split; [unfold is_digit; lia | reflexivity]).
Qed.

(** A string that [_parse] accepts is the one [_fmt] writes for its date. *)
Lemma _parse_inv (s : string) (d : Datetime.date) :
  _parse s = Some d -> valid_date d /\ _fmt d = s.
Proof.
  unfold _parse, Datetime.fromisoformat. intros H.
  destruct s as [| a s]; [discriminate H |].
  destruct s as [| a0 s]; [discriminate H |].
  destruct s as [| a1 s]; [discriminate H |].
  destruct s as [| a2 s]; [discriminate H |].
  destruct s as [| a3 s]; [discriminate H |].
  cbn [list_ascii_of_string] in H.
  destruct a3 as [[] [] [] [] [] [] [] []]; try discriminate H.
  destruct s as [| a4 s]; [discriminate H |].
  destruct s as [| a5 s]; [discriminate H |].
  destruct s as [| a6 s]; [discriminate H |].
  cbn [list_ascii_of_string] in H.
  destruct a6 as [[] [] [] [] [] [] [] []]; try discriminate H.
  destruct s as [| a7 s]; [discriminate H |].
  destruct s as [| a8 s]; [discriminate H |].
  destruct s as [| a9 s]; [| discriminate H].
  cbn [list_ascii_of_string] in H.
  destruct (Py.digit_of a) as [y1 |] eqn:E1; [| discriminate H].
  destruct (Py.digit_of a0) as [y2 |] eqn:E2; [| discriminate H].
  destruct (Py.digit_of a1) as [y3 |] eqn:E3; [| discriminate H].
  destruct (Py.digit_of a2) as [y4 |] eqn:E4; [| discriminate H].
  destruct (Py.digit_of a4) as [m1 |] eqn:E5; [| discriminate H].
  destruct (Py.digit_of a5) as [m2 |] eqn:E6; [| discriminate H].
  destruct (Py.digit_of a7) as [d1 |] eqn:E7; [| discriminate H].
  destruct (Py.digit_of a8) as [d2 |] eqn:E8; [| discriminate H].
  apply digit_of_inv in E1, E2, E3, E4, E5, E6, E7, E8.
  destruct E1 as [? ->], E2 as [? ->], E3 as [? ->], E4 as [? ->],
    E5 as [? ->], E6 as [? ->], E7 as [? ->], E8 as [? ->].
  apply new_valid in H. destruct H as (-> & Hv & _).
  split; [exact Hv |].
  unfold _fmt, Datetime.isoformat. cbn [Datetime.year Datetime.month Datetime.day].
  rewrite zfill_4, !zfill_2 by assumption. reflexivity.
Qed.

(** The [n]-th [weekday] of a month, for [n] up to 4. *)
Lemma _nth_weekday_date (y m weekday n : Z) :
  1 <= y <= 9999 -> 1 <= m <= 12 -> 0 <= weekday <= 6 -> 1 <= n <= 4 ->
  exists d, _nth_weekday y m weekday n = Some d
            /\ Datetime.year d = y /\ Datetime.month d = m
            /\ Datetime.weekday d = weekday
            /\ 7 * (n - 1) < Datetime.day d <= 7 * n.
Proof.
  intros Hy Hm Hw Hn.
  pose proof (_days_in_month_bounds y m Hm) as Hdim.
  unfold _nth_weekday, Err.bind.
  rewrite (new_ok y m 1) by lia.
  set (first := Datetime.mkdate y m 1).
  set (dd := 1 + (weekday - Datetime.weekday first) mod 7 + (n - 1) * 7).
  assert (Hdd : 7 * (n - 1) < dd <= 7 * n).
  { unfold dd. pose proof (Z.mod_pos_bound (weekday - Datetime.weekday first) 7). lia. }
  rewrite (new_ok y m dd) by lia.
  eexists. split; [reflexivity |].
  cbn [Datetime.year Datetime.month Datetime.day].
  repeat (split; [first [reflexivity | exact Hdd] |]).
  split; [| exact Hdd].
  unfold dd, first, Datetime.weekday, Datetime.toordinal, Datetime._ymd2ord.
  cbn [Datetime.year Datetime.month Datetime.day].
  set (X := Datetime._days_before_year y + Datetime._days_before_month y m).
  clearbody X. Z.div_mod_to_equations. lia.
Qed.

(** *** Easter Sunday and the moveable holidays of every year *)

Definition easter_ok (y : Z) : bool :=
  match _compute_easter_sunday y with
  | Some easter =>
      (Datetime.weekday easter =? 6)
      && ((Datetime.month easter =? 3) || (Datetime.month easter =? 4))
  | None => false
  end.

(** The number of years from 1 to 9999. *)
Definition all_years : nat := Z.to_nat 9999.

(** Every year from 1 to 9999 is checked by evaluation. *)
Lemma easter_all_years : all_from all_years 1 easter_ok = true.
Proof. vm_compute. reflexivity. Qed.

Lemma easter_facts (y : Z) :
  1 <= y <= 9999 ->
  exists easter,
    _compute_easter_sunday y = Some easter
    /\ valid_date easter /\ Datetime.year easter = y
    /\ Datetime.weekday easter = 6
    /\ (Datetime.month easter = 3 \/ Datetime.month easter = 4).
Proof.
  intros Hy.
  assert (H : easter_ok y = true).
  { apply (all_from_spec easter_ok all_years 1 easter_all_years).
    unfold all_years. rewrite Z2Nat.id; lia. }
  unfold easter_ok in H.
  destruct (_compute_easter_sunday y) as [e |] eqn:E; [| discriminate H].
  rewrite andb_true_iff, orb_true_iff, !Z.eqb_eq in H. destruct H as [Hw Hm].
  exists e. split; [reflexivity |].
  unfold _compute_easter_sunday in E. apply new_valid in E.
  destruct E as (-> & Hv & _). cbn [Datetime.year]. tauto.
Qed.

(** A date whose ordinal lies in the year [y] is a date of [y]. *)
Lemma year_of_ordinal (y : Z) (d : Datetime.date) :
  valid_date d ->
  Datetime._days_before_year y < Datetime.toordinal d
  <= Datetime._days_before_year (y + 1) ->
  Datetime.year d = y.
Proof.
  intros Hv Ho. pose proof (valid_date_fields d Hv) as (Hy & Hm & Hd).
  pose proof (_days_before_month_bounds (Datetime.year d) (Datetime.month d) Hm)
    as [B1 B2].
  unfold Datetime.toordinal, Datetime._ymd2ord in Ho.
  destruct (Z.lt_trichotomy (Datetime.year d) y) as [Hlt | [Heq | Hgt]];
    [| exact Heq |].
  - pose proof (_days_before_year_mono (Datetime.year d + 1) y ltac:(lia)) as M.
    rewrite _days_before_year_succ in M. lia.
  - pose proof (_days_before_year_mono (y + 1) (Datetime.year d) ltac:(lia)) as M.
    lia.
Qed.

(** A few days before or after a date of March or April: the same year. *)
Lemma add_days_in_spring (d : Datetime.date) (k : Z) :
  valid_date d -> Datetime.month d = 3 \/ Datetime.month d = 4 ->
  -59 <= k <= 200 ->
  exists d', Datetime.add_days d k = Some d' /\ valid_date d'
             /\ Datetime.year d' = Datetime.year d
             /\ Datetime.toordinal d' = Datetime.toordinal d + k
             /\ Datetime.weekday d' = (Datetime.weekday d + k) mod 7.
Proof.
  intros Hv Hm Hk. pose proof (valid_date_fields d Hv) as (Hy & _ & Hd).
  pose proof (toordinal_bounds d Hv) as Hb.
  assert (Hord : Datetime._days_before_year (Datetime.year d)
                 < Datetime.toordinal d + k
                 <= Datetime._days_before_year (Datetime.year d + 1)).
  { rewrite _days_before_year_succ.
    unfold Datetime.toordinal, Datetime._ymd2ord.
    set (y := Datetime.year d) in *. set (dd := Datetime.day d) in *.
    assert (Hs : Datetime._days_before_month y (Datetime.month d)
                 = (if Datetime.month d =? 3 then 59 else 90)
                   + (if Datetime._is_leap y then 1 else 0)
                 /\ Datetime._days_in_month y (Datetime.month d)
                    = if Datetime.month d =? 3 then 31 else 30).
    { unfold Datetime._days_before_month, Datetime._days_in_month.
      destruct Hm as [-> | ->]; destruct (Datetime._is_leap y); split; reflexivity. }
    destruct Hs as [Hs1 Hs2]. rewrite Hs1. rewrite Hs2 in Hd.
    destruct (Datetime.month d =? 3), (Datetime._is_leap y); lia. }
  assert (Hrange : 1 <= Datetime.toordinal d + k <= Datetime._MAXORDINAL).
  { pose proof (_days_before_year_mono 1 (Datetime.year d) ltac:(lia)) as M1.
    pose proof (_days_before_year_mono (Datetime.year d + 1) 10000 ltac:(lia)) as M2.
    change (Datetime._days_before_year 1) with 0 in M1.
    change (Datetime._days_before_year 10000) with 3652059 in M2.
    unfold Datetime._MAXORDINAL. lia. }
  destruct (add_days_spec d k Hv) as [Hsome _].
  destruct (Hsome Hrange) as (d' & Hadd & Hv' & Ho' & Hw').
  exists d'. repeat (split; [assumption |]). split; [| split; assumption].
  apply year_of_ordinal; [exact Hv' | rewrite Ho'; exact Hord].
Qed.

(** X7: for every year from 1 to 9999 the date that
    [_compute_easter_sunday] returns is a Sunday of that year, and
    [get_easter_sunday] returns its ISO string, which [_parse] reads
    back. *)
Theorem _compute_easter_sunday_is_sunday (y : Z) :
  1 <= y <= 9999 ->
  exists easter, _compute_easter_sunday y = Some easter
                 /\ Datetime.year easter = y
                 /\ Datetime.weekday easter = 6
                 /\ get_easter_sunday y = Some (_fmt easter)
                 /\ _parse (_fmt easter) = Some easter.
Proof.
  intros Hy.
  destruct (easter_facts y Hy) as (e & He & Hv & Hye & Hw & _).
  exists e. repeat (split; [assumption |]).
  split; [unfold get_easter_sunday, Err.bind; now rewrite He |].
  now apply _parse_fmt.
Qed.

(** A witness of X7: Easter Sunday of 2024. *)
Lemma _compute_easter_sunday_is_sunday_witness :
  exists easter, _compute_easter_sunday 2024 = Some easter
                 /\ Datetime.year easter = 2024
                 /\ Datetime.weekday easter = 6
                 /\ get_easter_sunday 2024 = Some (_fmt easter)
                 /\ _parse (_fmt easter) = Some easter.
Proof. apply (_compute_easter_sunday_is_sunday 2024). lia. Defined.

Lemma moveable_dates (y : Z) :
  1 <= y <= 9999 ->
  exists easter ash_wednesday good_friday easter_monday heroes_day,
    _compute_easter_sunday y = Some easter
    /\ Datetime.add_days easter (-46) = Some ash_wednesday
    /\ Datetime.add_days easter (-2) = Some good_friday
    /\ Datetime.add_days easter 1 = Some easter_monday
    /\ _moveable_holidays y
       = Some [ mkHoliday (_fmt ash_wednesday) "Ash Wednesday" true None;
                mkHoliday (_fmt good_friday) "Good Friday" true None;
                mkHoliday (_fmt easter_monday) "Easter Monday" true None;
                mkHoliday (_fmt heroes_day) "National Heroes Day" true
                          (Some "Third Monday of October") ]
    /\ Forall (fun d => valid_date d /\ Datetime.year d = y)
              [ash_wednesday; good_friday; easter_monday; heroes_day]
    /\ Datetime.weekday ash_wednesday = 2
    /\ Datetime.weekday good_friday = 4
    /\ Datetime.weekday easter_monday = 0
    /\ Datetime.weekday heroes_day = 0
    /\ Datetime.month heroes_day = 10
    /\ 15 <= Datetime.day heroes_day <= 21.
Proof.
  intros Hy.
  destruct (easter_facts y Hy) as (e & He & Hv & Hye & Hw & Hm).
  destruct (add_days_in_spring e (-46) Hv Hm ltac:(lia))
    as (a & Ha & Hva & Hya & _ & Hwa).
  destruct (add_days_in_spring e (-2) Hv Hm ltac:(lia))
    as (g & Hg & Hvg & Hyg & _ & Hwg).
  destruct (add_days_in_spring e 1 Hv Hm ltac:(lia))
    as (m & Hmo & Hvm & Hym & _ & Hwm).
  destruct (_nth_weekday_date y 10 0 3 Hy ltac:(lia) ltac:(lia) ltac:(lia))
    as (h & Hh & Hhy & Hhm & Hhw & Hhd).
  rewrite Hw in Hwa, Hwg, Hwm.
  exists e, a, g, m, h.
  do 4 (split; [assumption |]).
  split; [unfold _moveable_holidays, Err.bind; rewrite He, Ha, Hg, Hmo, Hh; reflexivity |].
  split.
  { repeat (apply Forall_cons; [split; [assumption | congruence] |]).
    apply Forall_cons; [| apply Forall_nil].
    split; [| exact Hhy].
    unfold _nth_weekday, Err.bind in Hh.
    destruct (Datetime.new y 10 1); [| discriminate Hh].
    apply new_valid in Hh. tauto. }
  repeat (split; [first [assumption | lia] |]). lia.
Qed.

(** The holiday [h] is dated on the day [d] of the year [y], a weekday
    [w]. *)
Definition dated (h : Holiday) (y w : Z) (d : Datetime.date) : Prop :=
  valid_date d /\ date h = _fmt d /\ Datetime.year d = y /\ Datetime.weekday d = w.

(** X8: for every year from 1 to 9999 [_moveable_holidays] returns Ash
    Wednesday, Good Friday, Easter Monday and National Heroes Day, in this
    order, dated in that year on a Wednesday 46 days before Easter Sunday,
    a Friday 2 days before it, a Monday 1 day after it, and a Monday from
    15 to 21 October. *)
Theorem _moveable_holidays_weekdays (y : Z) :
  1 <= y <= 9999 ->
  exists ash_wednesday good_friday easter_monday heroes_day a g m h,
    _moveable_holidays y
    = Some [ash_wednesday; good_friday; easter_monday; heroes_day]
    /\ map name [ash_wednesday; good_friday; easter_monday; heroes_day]
       = ["Ash Wednesday"; "Good Friday"; "Easter Monday"; "National Heroes Day"]
    /\ dated ash_wednesday y 2 a
    /\ dated good_friday y 4 g
    /\ dated easter_monday y 0 m
    /\ dated heroes_day y 0 h
    /\ Datetime.month h = 10 /\ 15 <= Datetime.day h <= 21
    /\ (exists easter,
          _compute_easter_sunday y = Some easter
          /\ Datetime.toordinal a = Datetime.toordinal easter - 46
          /\ Datetime.toordinal g = Datetime.toordinal easter - 2
          /\ Datetime.toordinal m = Datetime.toordinal easter + 1).
Proof.
  intros Hy.
  destruct (moveable_dates y Hy)
    as (e & a & g & m & h & He & Ha & Hg & Hm & Hl & Hall & Hwa & Hwg & Hwm & Hwh
        & Hhm & Hhd).
  rewrite !Forall_cons_iff in Hall.
  destruct Hall as ([Hva Hya] & [Hvg Hyg] & [Hvm Hym] & [Hvh Hyh] & _).
  eexists _, _, _, _, a, g, m, h.
  split; [exact Hl |]. split; [reflexivity |].
  unfold dated. cbn [date].
  do 4 (split; [repeat split; assumption |]).
  do 2 (split; [assumption |]).
  exists e. split; [exact He |].
  destruct (easter_facts y Hy) as (e' & He' & Hv & _ & _ & Hmo).
  assert (e' = e) by congruence. subst e'.
  destruct (add_days_in_spring e (-46) Hv Hmo ltac:(lia)) as (a' & Ha' & _ & _ & Hoa & _).
  destruct (add_days_in_spring e (-2) Hv Hmo ltac:(lia)) as (g' & Hg' & _ & _ & Hog & _).
  destruct (add_days_in_spring e 1 Hv Hmo ltac:(lia)) as (m' & Hm' & _ & _ & Hom & _).
  assert (a' = a) by congruence. assert (g' = g) by congruence.
  assert (m' = m) by congruence. subst. lia.
Qed.

(** A witness of X8: the year 2024. *)
Lemma _moveable_holidays_weekdays_witness :
  exists ash_wednesday good_friday easter_monday heroes_day a g m h,
    _moveable_holidays 2024
    = Some [ash_wednesday; good_friday; easter_monday; heroes_day]
    /\ map name [ash_wednesday; good_friday; easter_monday; heroes_day]
       = ["Ash Wednesday"; "Good Friday"; "Easter Monday"; "National Heroes Day"]
    /\ dated ash_wednesday 2024 2 a
    /\ dated good_friday 2024 4 g
    /\ dated easter_monday 2024 0 m
    /\ dated heroes_day 2024 0 h
    /\ Datetime.month h = 10 /\ 15 <= Datetime.day h <= 21
    /\ (exists easter,
          _compute_easter_sunday 2024 = Some easter
          /\ Datetime.toordinal a = Datetime.toordinal easter - 46
          /\ Datetime.toordinal g = Datetime.toordinal easter - 2
          /\ Datetime.toordinal m = Datetime.toordinal easter + 1).
Proof. apply (_moveable_holidays_weekdays 2024). lia. Defined.

(** *** The fixed holidays of every year *)

Lemma str_of_int_four (y : Z) : 1000 <= y <= 9999 -> Py.str_of_int y = Py.zfill 4 y.
Proof.
  intros Hy.
  assert (E : y = 1000 * (y / 1000) + 100 * ((y / 100) mod 10)
                  + 10 * ((y / 10) mod 10) + y mod 10)
    by (Z.div_mod_to_equations; lia).
  assert (Ha : is_digit (y / 1000)) by (unfold is_digit; Z.div_mod_to_equations; lia).
  assert (Hb : is_digit ((y / 100) mod 10))
    by (unfold is_digit; Z.div_mod_to_equations; lia).
  assert (Hc : is_digit ((y / 10) mod 10))
    by (unfold is_digit; Z.div_mod_to_equations; lia).
  assert (Hd : is_digit (y mod 10)) by (unfold is_digit; Z.div_mod_to_equations; lia).
  assert (Ha1 : 1 <= y / 1000) by (Z.div_mod_to_equations; lia).
  set (a := y / 1000) in *. set (b := (y / 100) mod 10) in *.
  set (c := (y / 10) mod 10) in *. set (d := y mod 10) in *.
  clearbody a b c d. subst y. rewrite zfill_4 by assumption.
  unfold Py.str_of_int.
  destruct (Z.ltb_spec (1000 * a + 100 * b + 10 * c + d) 0);
    [unfold is_digit in *; lia |].
  replace (1000 * a + 100 * b + 10 * c + d)
    with (10 * (10 * (10 * a + b) + c) + d) by ring.
  rewrite !str_of_nonneg_step by (unfold is_digit in *; lia || assumption).
  rewrite (str_of_nonneg_digit a Ha). reflexivity.
Qed.

Definition fixed_calendar (y : Z) : list Datetime.date :=
  [ Datetime.mkdate y 1 1; Datetime.mkdate y 5 23; Datetime.mkdate y 8 1;
    Datetime.mkdate y 8 6; Datetime.mkdate y 12 25; Datetime.mkdate y 12 26 ].

Lemma fixed_calendar_valid (y : Z) :
  1 <= y <= 9999 -> Forall valid_date (fixed_calendar y).
Proof.
  intros Hy. unfold fixed_calendar.
  repeat (apply Forall_cons;
          [apply valid_mkdate; [exact Hy | lia | split; [lia | cbv; discriminate]] |]).
  apply Forall_nil.
Qed.

Lemma _fixed_holidays_dates (y : Z) :
  1000 <= y <= 9999 ->
  map date (_fixed_holidays y) = map _fmt (fixed_calendar y).
Proof.
  intros Hy. unfold _fixed_holidays, fixed_calendar, _fmt, Datetime.isoformat.
  cbv zeta. cbn [map date Datetime.year Datetime.month Datetime.day].
  rewrite (str_of_int_four y Hy). reflexivity.
Qed.

Lemma parse_all_fmt (ds : list Datetime.date) :
  Forall valid_date ds -> parse_all (map _fmt ds) = Some ds.
Proof.
  induction 1 as [| d ds Hd Hds IH]; [reflexivity |].
  cbn [map parse_all]. rewrite (_parse_fmt d Hd), IH. reflexivity.
Qed.

(** The dates the Sunday rule gives, computed. *)
Definition observed_date (occupied : list Datetime.date) (c : Datetime.date)
  : option Datetime.date :=
  if (Datetime.weekday c =? 6) || mem_date c occupied
  then match shift_search 8 1 c occupied with
       | Some (_, o) => Some o
       | None => None
       end
  else Some c.

Fixpoint observed_dates (occupied calendar : list Datetime.date)
  : option (list Datetime.date) :=
  match calendar with
  | [] => Some []
  | c :: calendar' =>
      match observed_date occupied c with
      | Some o =>
          match observed_dates (o :: occupied) calendar' with
          | Some observed => Some (o :: observed)
          | None => None
          end
      | None => None
      end
  end.

Lemma observance_b_dates (calendar : list Datetime.date) :
  forall occupied observed,
    observance_b occupied calendar observed = true ->
    observed_dates occupied calendar = Some observed.
Proof.
  induction calendar as [| c calendar IH]; intros occupied [| o observed] H;
    cbn [observance_b] in H; try discriminate H; [reflexivity |].
  apply andb_true_iff in H. destruct H as [H1 H2].
  cbn [observed_dates].
  assert (Ho : observed_date occupied c = Some o).
  { unfold observed_for_b in H1. unfold observed_date.
    destruct ((Datetime.weekday c =? 6) || mem_date c occupied).
    - destruct (shift_search 8 1 c occupied) as [[k o'] |]; [| discriminate H1].
      apply date_eqb_eq in H1. now subst.
    - apply date_eqb_eq in H1. now subst. }
  rewrite Ho, (IH _ _ H2). reflexivity.
Qed.

Definition fixed_ok (y : Z) : bool :=
  match observed_dates [] (fixed_calendar y) with
  | Some observed =>
      forallb (fun d => (Datetime.year d =? y) && negb (Datetime.weekday d =? 6))
              observed
  | None => false
  end.

(** Every year from 1000 to 9999 is checked by evaluation. *)
Lemma fixed_all_years : all_from year_count 1000 fixed_ok = true.
Proof. vm_compute. reflexivity. Qed.

Lemma fixed_facts (y : Z) (observed : list Datetime.date) :
  1000 <= y <= 9999 ->
  observance_b [] (fixed_calendar y) observed = true ->
  Forall (fun d => Datetime.year d = y /\ Datetime.weekday d <> 6) observed.
Proof.
  intros Hy Hobs.
  assert (H : fixed_ok y = true).
  { apply (all_from_spec fixed_ok year_count 1000 fixed_all_years).
    unfold year_count. rewrite Z2Nat.id; lia. }
  unfold fixed_ok in H. rewrite (observance_b_dates _ _ _ Hobs) in H.
  rewrite forallb_forall in H. apply Forall_forall. intros d Hd.
  specialize (H d Hd). rewrite andb_true_iff, Z.eqb_eq, negb_true_iff, Z.eqb_neq in H.
  exact H.
Qed.

(** *** The list of a year *)

Lemma parse_all_inv (l : list string) (ds : list Datetime.date) :
  parse_all l = Some ds -> l = map _fmt ds /\ Forall valid_date ds.
Proof.
  revert ds. induction l as [| s l IH]; intros ds H; cbn [parse_all] in H.
  - injection H as <-. split; [reflexivity | constructor].
  - destruct (_parse s) as [d |] eqn:Hd; [| discriminate H].
    destruct (parse_all l) as [ds' |]; [| discriminate H].
    injection H as <-. destruct (IH ds' eq_refl) as [-> Hv].
    apply _parse_inv in Hd. destruct Hd as [Hvd <-].
    split; [reflexivity | now constructor].
Qed.

Lemma _fmt_inj (a b : Datetime.date) :
  valid_date a -> valid_date b -> _fmt a = _fmt b -> a = b.
Proof.
  intros Ha Hb H. apply _parse_fmt in Ha, Hb. rewrite H in Ha. congruence.
Qed.

(** The holidays of a year from 1000 to 9999, with their dates. *)
Lemma holidays_of_year (y : Z) :
  1000 <= y <= 9999 ->
  exists l ds,
    get_holidays y = Some l
    /\ map name l = holiday_names
    /\ map date l = map _fmt ds
    /\ increasing ds = true
    /\ Forall (fun d => valid_date d /\ Datetime.year d = y
                        /\ Datetime.weekday d <> 6) ds.
Proof.
  intros Hy.
  destruct (year_ok_facts y Hy)
    as (l & calendar & ds & Hl & Hcal & Hds & Hnames & Hflags & Hinc & Hobs).
  exists l, ds. do 2 (split; [assumption |]).
  destruct (parse_all_inv _ _ Hds) as [Hfmt Hvalid].
  split; [exact Hfmt |]. split; [exact Hinc |].
  (* the calendar dates of the fixed holidays *)
  rewrite (_fixed_holidays_dates y Hy) in Hcal.
  rewrite (parse_all_fmt _ (fixed_calendar_valid y ltac:(lia))) in Hcal.
  injection Hcal as <-.
  pose proof (fixed_facts y _ Hy Hobs) as Hfixed.
  rewrite Hflags in Hfixed. unfold moveable_flags in Hfixed.
  (* the moveable ones *)
  destruct (moveable_dates y ltac:(lia))
    as (e & a & g & m & h & _ & _ & _ & _ & Hmv & Hall & Hwa & Hwg & Hwm & Hwh & _).
  destruct (get_holidays_parts y l Hl) as (fixed & mv & _ & Hmv' & Hsort).
  rewrite Hmv in Hmv'. injection Hmv' as <-.
  assert (Hin : forall x, In x [ mkHoliday (_fmt a) "Ash Wednesday" true None;
                                 mkHoliday (_fmt g) "Good Friday" true None;
                                 mkHoliday (_fmt m) "Easter Monday" true None;
                                 mkHoliday (_fmt h) "National Heroes Day" true
                                           (Some "Third Monday of October") ] ->
                           In x l).
  { intros x Hx. rewrite Hsort. apply In_sorted_by_date. apply in_or_app. now right. }
  rewrite !Forall_cons_iff in Hall.
  destruct Hall as ([Hva Hya] & [Hvg Hyg] & [Hvm Hym] & [Hvh Hyh] & _).
  clear Hsort Hmv Hl Hds Hinc Hobs.
  do 10 (destruct l as [| ? l]; [discriminate Hnames |]).
  destruct l; [| discriminate Hnames].
  do 10 (destruct ds as [| ? ds]; [discriminate Hfmt |]).
  destruct ds; [| discriminate Hfmt].
  cbn [map] in Hnames, Hflags, Hfmt.
  injection Hnames as N1 N2 N3 N4 N5 N6 N7 N8 N9 N10.
  injection Hflags as F1 F2 F3 F4 F5 F6 F7 F8 F9 F10.
  injection Hfmt as P1 P2 P3 P4 P5 P6 P7 P8 P9 P10.
  cbn [fixed_dates] in Hfixed.
  rewrite !Forall_cons_iff in Hfixed. repeat rewrite Forall_cons_iff in Hvalid.
  destruct Hfixed as (X1 & X5 & X6 & X7 & X9 & X10 & _).
  destruct Hvalid as (V1 & V2 & V3 & V4 & V5 & V6 & V7 & V8 & V9 & V10 & _).
  (* each moveable holiday is the one of its name in the list *)
  assert (Hpos : forall x dx,
             In x [h0; h1; h2; h3; h4; h5; h6; h7; h8; h9] ->
             date x = _fmt dx -> valid_date dx ->
             (name x = "Ash Wednesday" -> d0 = dx)
             /\ (name x = "Good Friday" -> d1 = dx)
             /\ (name x = "Easter Monday" -> d2 = dx)
             /\ (name x = "National Heroes Day" -> d6 = dx)).
  { intros x dx Hx Hdx Hvx. cbn [In] in Hx.
    repeat (destruct Hx as [Hx | Hx];
            [subst x; repeat split; intros Hn;
             first [congruence | apply _fmt_inj; [assumption | assumption | congruence]]
            |]).
    contradiction. }
  assert (M2 : d0 = a).
  { refine (proj1 (Hpos _ a (Hin _ (or_introl eq_refl)) eq_refl Hva) eq_refl). }
  assert (M3 : d1 = g).
  { refine (proj1 (proj2 (Hpos _ g (Hin _ (or_intror (or_introl eq_refl)))
                               eq_refl Hvg)) eq_refl). }
  assert (M4 : d2 = m).
  { refine (proj1 (proj2 (proj2 (Hpos _ m (Hin _ (or_intror (or_intror
              (or_introl eq_refl)))) eq_refl Hvm))) eq_refl). }
  assert (M8 : d6 = h).
  { refine (proj2 (proj2 (proj2 (Hpos _ h (Hin _ (or_intror (or_intror
              (or_intror (or_introl eq_refl))))) eq_refl Hvh))) eq_refl). }
  subst d0 d1 d2 d6.
  repeat (apply Forall_cons; [split; [assumption | first [assumption | split; [assumption | lia]]] |]).
  apply Forall_nil.
Qed.

End HolidayDates.

Section HolidayCalendar.

Import Holidays.

(** X9: for every year from 1000 to 9999, every holiday that
    [get_holidays] lists is dated by the ISO string of a date of that
    year, and none is observed on a Sunday. *)
Theorem get_holidays_dates (y : Z) :
  1000 <= y <= 9999 ->
  exists l,
    get_holidays y = Some l
    /\ forall h, In h l ->
         exists d, _parse (date h) = Some d /\ date h = _fmt d
                   /\ Datetime.year d = y /\ Datetime.weekday d <> 6.
Proof.
  intros Hy.
  destruct (holidays_of_year y Hy) as (l & ds & Hl & _ & Hd & _ & Hall).
  exists l. split; [exact Hl |].
  intros h Hh. apply (in_map date) in Hh. rewrite Hd in Hh.
  apply in_map_iff in Hh. destruct Hh as (d & Hfd & Hin).
  rewrite Forall_forall in Hall. destruct (Hall d Hin) as (Hv & Hyd & Hw).
  exists d. rewrite <- Hfd. split; [now apply _parse_fmt |]. tauto.
Qed.

(** A witness of X9: the year 2024. *)
Lemma get_holidays_dates_witness :
  exists l,
    get_holidays 2024 = Some l
    /\ forall h, In h l ->
         exists d, _parse (date h) = Some d /\ date h = _fmt d
                   /\ Datetime.year d = 2024 /\ Datetime.weekday d <> 6.
Proof. apply (get_holidays_dates 2024). lia. Defined.

Lemma _fmt_eqb (a b : Datetime.date) :
  valid_date a -> valid_date b -> String.eqb (_fmt a) (_fmt b) = Datetime.eqb a b.
Proof.
  intros Ha Hb.
  destruct (String.eqb_spec (_fmt a) (_fmt b)) as [E | E].
  - apply (_fmt_inj a b Ha Hb) in E. subst. symmetry. now apply date_eqb_eq.
  - destruct (Datetime.eqb a b) eqn:E'; [| reflexivity].
    apply date_eqb_eq in E'. subst. contradiction.
Qed.

(** Whether [d] is one of the dates [ds]. *)
Lemma existsb_dates (l : list Holiday) (ds : list Datetime.date) (d : Datetime.date) :
  map date l = map _fmt ds -> Forall valid_date ds -> valid_date d ->
  existsb (fun h => String.eqb (date h) (_fmt d)) l = mem_date d ds.
Proof.
  revert ds. induction l as [| h l IH]; intros [| x ds] Hm Hv Hd;
    try discriminate Hm; [reflexivity |].
  cbn [map] in Hm. injection Hm as Hh Hm.
  apply Forall_cons_iff in Hv. destruct Hv as [Hx Hv].
  cbn [existsb mem_date]. rewrite Hh, (_fmt_eqb x d Hx Hd).
  f_equal.
  - destruct (Datetime.eqb x d) eqn:E1, (Datetime.eqb d x) eqn:E2; try reflexivity.
    + apply date_eqb_eq in E1. subst. rewrite (proj2 (date_eqb_eq _ _) eq_refl) in E2.
      discriminate.
    + apply date_eqb_eq in E2. subst. rewrite (proj2 (date_eqb_eq _ _) eq_refl) in E1.
      discriminate.
  - now apply IH.
Qed.

Lemma is_public_holiday_date (d : Datetime.date) :
  valid_date d -> 1000 <= Datetime.year d <= 9999 ->
  exists l ds,
    get_holidays (Datetime.year d) = Some l
    /\ map date l = map _fmt ds
    /\ increasing ds = true
    /\ Forall (fun x => valid_date x /\ Datetime.year x = Datetime.year d
                        /\ Datetime.weekday x <> 6) ds
    /\ is_public_holiday (ADate d) = Some (mem_date d ds).
Proof.
  intros Hv Hy.
  destruct (holidays_of_year _ Hy) as (l & ds & Hl & _ & Hd & Hinc & Hall).
  exists l, ds. do 4 (split; [assumption |]).
  unfold is_public_holiday, to_date, Err.bind. rewrite Hl. f_equal.
  apply existsb_dates; [exact Hd | | exact Hv].
  eapply Forall_impl; [| exact Hall]. cbn. tauto.
Qed.

Lemma mem_date_true (d : Datetime.date) (ds : list Datetime.date) :
  In d ds -> mem_date d ds = true.
Proof. intros H. now apply mem_date_In. Qed.

(** X10: for every year from 1000 to 9999, the date string of a holiday
    that [get_holidays] lists is a public holiday for [is_public_holiday]
    and no business day for [is_business_day]. *)
Theorem is_public_holiday_listed (y : Z) (l : list Holiday) (h : Holiday) :
  1000 <= y <= 9999 -> get_holidays y = Some l -> In h l ->
  is_public_holiday (AStr (date h)) = Some true
  /\ is_business_day (AStr (date h)) = Some false.
Proof.
  intros Hy Hl Hh.
  destruct (holidays_of_year y Hy) as (l' & ds & Hl' & _ & Hd & _ & Hall).
  assert (l' = l) by congruence. subst l'.
  pose proof (in_map date _ _ Hh) as Hm. rewrite Hd in Hm.
  apply in_map_iff in Hm. destruct Hm as (d & Hfd & Hin).
  rewrite Forall_forall in Hall. destruct (Hall d Hin) as (Hv & Hyd & Hw).
  assert (Hp : is_public_holiday (AStr (date h)) = Some true).
  { unfold is_public_holiday, to_date, Err.bind.
    rewrite <- Hfd, (_parse_fmt d Hv), Hyd, Hl. f_equal.
    apply existsb_exists. exists h. split; [exact Hh |].
    rewrite Hfd. apply String.eqb_refl. }
  split; [exact Hp |].
  unfold is_business_day, Err.bind.
  unfold is_public_holiday, Err.bind in Hp.
  destruct (to_date (AStr (date h))) as [d' |]; [| discriminate Hp].
  destruct (Datetime.weekday d' >=? 5); [reflexivity |].
  unfold is_public_holiday, to_date, Err.bind.
  destruct (get_holidays (Datetime.year d')); [| discriminate Hp].
  injection Hp as ->. reflexivity.
Qed.

(** A witness of X10: Christmas Day 2024. *)
Lemma is_public_holiday_listed_witness :
  is_public_holiday (AStr "2024-12-25") = Some true
  /\ is_business_day (AStr "2024-12-25") = Some false.
Proof.
  assert (H : exists l, get_holidays 2024 = Some l
                        /\ In (mkHoliday "2024-12-25" "Christmas Day" false None) l).
  { eexists. split; [vm_compute; reflexivity |].
    do 8 right. left. reflexivity. }
  destruct H as (l & Hl & Hin).
  exact (is_public_holiday_listed 2024 l _ ltac:(lia) Hl Hin).
Defined.

(** *** The next holiday *)

Lemma ltb_asym (a b : Datetime.date) :
  Datetime.ltb a b = true -> Datetime.ltb b a = false.
Proof.
  intros H. apply date_ltb_lt in H.
  destruct (Datetime.ltb b a) eqn:E; [| reflexivity].
  apply date_ltb_lt in E. unfold date_lt in *. lia.
Qed.

Lemma ltb_irrefl (a : Datetime.date) : Datetime.ltb a a = false.
Proof.
  destruct (Datetime.ltb a a) eqn:E; [| reflexivity].
  apply date_ltb_lt in E. unfold date_lt in E. lia.
Qed.

Lemma ltb_years (a b : Datetime.date) :
  Datetime.year a < Datetime.year b ->
  Datetime.ltb a b = true /\ Datetime.ltb b a = false.
Proof.
  intros H. assert (Hab : Datetime.ltb a b = true) by (apply date_ltb_lt; now left).
  split; [exact Hab | now apply ltb_asym].
Qed.

(** The first holiday of a list that is later than [from_date]. *)
Lemma find_later (from_date : Datetime.date) (l : list Holiday) :
  valid_date from_date ->
  forall ds,
    map date l = map _fmt ds -> Forall valid_date ds ->
    match find (fun h => Py.str_ltb (_fmt from_date) (date h)) l with
    | Some h =>
        exists d before after,
          ds = (before ++ d :: after)%list
          /\ In h l /\ date h = _fmt d
          /\ Datetime.ltb from_date d = true
          /\ Forall (fun x => Datetime.ltb from_date x = false) before
    | None => Forall (fun x => Datetime.ltb from_date x = false) ds
    end.
Proof.
  intros Hf. induction l as [| h l IH]; intros [| x ds] Hm Hv; try discriminate Hm.
  - constructor.
  - cbn [map] in Hm. injection Hm as Hh Hm.
    apply Forall_cons_iff in Hv. destruct Hv as [Hx Hv].
    cbn [find]. rewrite Hh, (_fmt_ltb from_date x Hf Hx).
    destruct (Datetime.ltb from_date x) eqn:E.
    + exists x, [], ds. repeat split; try assumption; [now left | constructor].
    + specialize (IH ds Hm Hv).
      destruct (find _ l) as [h' |].
      * destruct IH as (d & before & after & -> & Hin & Hd & Hlt & Hb).
        exists d, (x :: before), after.
        repeat split; try assumption; [now right | now constructor].
      * now constructor.
Qed.

Lemma increasing_later (ds : list Datetime.date) :
  increasing ds = true ->
  forall before d after,
    ds = (before ++ d :: after)%list ->
    Forall (fun x => Datetime.ltb x d = false) after.
Proof.
  intros Hinc before d after ->.
  apply increasing_sorted in Hinc.
  induction before as [| b before IH].
  - cbn in Hinc. apply StronglySorted_inv in Hinc. destruct Hinc as [_ Hall].
    eapply Forall_impl; [| exact Hall]. cbn. intros x Hx. now apply ltb_asym.
  - cbn in Hinc. apply StronglySorted_inv in Hinc. destruct Hinc as [Hs _].
    now apply IH.
Qed.

Lemma holiday_date_in (l : list Holiday) (ds : list Datetime.date)
      (h : Holiday) (d : Datetime.date) :
  map date l = map _fmt ds -> Forall valid_date ds -> valid_date d ->
  In h l -> date h = _fmt d -> In d ds.
Proof.
  intros Hm Hv Hd Hin Hh.
  apply (in_map date) in Hin. rewrite Hm in Hin.
  apply in_map_iff in Hin. destruct Hin as (x & Hx & Hin).
  rewrite Forall_forall in Hv.
  assert (x = d) by (apply _fmt_inj; [now apply Hv | exact Hd | congruence]).
  now subst.
Qed.

(** X11: for a date of the years 1000 to 9998, [get_next_holiday]
    returns a holiday of the year of the date or of the next year that is
    later than the date, and no holiday of these two years lies between
    the date and it. *)
Theorem get_next_holiday_first_later (today from_date : Datetime.date) :
  valid_date from_date -> 1000 <= Datetime.year from_date <= 9998 ->
  exists h d this_year next_year,
    get_next_holiday today (Some (ADate from_date)) = Some (Some h)
    /\ get_holidays (Datetime.year from_date) = Some this_year
    /\ get_holidays (Datetime.year from_date + 1) = Some next_year
    /\ In h (this_year ++ next_year)
    /\ date h = _fmt d /\ valid_date d
    /\ Datetime.ltb from_date d = true
    /\ forall h' d',
         In h' (this_year ++ next_year) -> date h' = _fmt d' -> valid_date d' ->
         Datetime.ltb from_date d' = true -> Datetime.ltb d' d = false.
Proof.
  intros Hf Hy.
  destruct (holidays_of_year (Datetime.year from_date) ltac:(lia))
    as (l & ds & Hl & _ & Hd & Hinc & Hall).
  destruct (holidays_of_year (Datetime.year from_date + 1) ltac:(lia))
    as (l' & ds' & Hl' & Hn' & Hd' & Hinc' & Hall').
  assert (Hv : Forall valid_date ds)
    by (eapply Forall_impl; [| exact Hall]; cbn; tauto).
  assert (Hv' : Forall valid_date ds')
    by (eapply Forall_impl; [| exact Hall']; cbn; tauto).
  rewrite Forall_forall in Hall, Hall'.
  pose proof (find_later from_date l Hf ds Hd Hv) as Hfind.
  unfold get_next_holiday, to_date, Err.bind. rewrite Hl, Hl'.
  destruct (find _ l) as [h |].
  - destruct Hfind as (d & before & after & Hds & Hin & Hh & Hlt & Hb).
    assert (Hdin : In d ds) by (rewrite Hds; apply in_or_app; right; now left).
    destruct (Hall d Hdin) as (Hvd & Hyd & _).
    exists h, d, l, l'. do 3 (split; [reflexivity |]).
    split; [apply in_or_app; now left |].
    do 3 (split; [assumption |]).
    intros h' d' Hin' Hh' Hvd' Hlt'.
    apply in_app_or in Hin'. destruct Hin' as [Hin' | Hin'].
    + pose proof (holiday_date_in l ds h' d' Hd Hv Hvd' Hin' Hh') as Hd'in.
      rewrite Hds in Hd'in. apply in_app_or in Hd'in.
      destruct Hd'in as [Hpre | [-> | Hpost]].
      * rewrite Forall_forall in Hb. rewrite (Hb d' Hpre) in Hlt'. discriminate.
      * apply ltb_irrefl.
      * pose proof (increasing_later ds Hinc before d after Hds) as Hafter.
        rewrite Forall_forall in Hafter. now apply Hafter.
    + pose proof (holiday_date_in l' ds' h' d' Hd' Hv' Hvd' Hin' Hh') as Hd'in.
      destruct (Hall' d' Hd'in) as (_ & Hyd' & _).
      apply ltb_years. lia.
  - (* no later holiday this year: the first one of the next year *)
    destruct l' as [| h l']; [discriminate Hn' |].
    destruct ds' as [| d ds']; [discriminate Hd' |].
    cbn [map] in Hd'. injection Hd' as Hh Hd'.
    destruct (Hall' d (or_introl eq_refl)) as (Hvd & Hyd & _).
    exists h, d, l, (h :: l'). do 3 (split; [reflexivity |]).
    split; [apply in_or_app; right; now left |].
    do 2 (split; [assumption |]).
    split; [apply ltb_years; lia |].
    intros h' d' Hin' Hh' Hvd' Hlt'.
    apply in_app_or in Hin'. destruct Hin' as [Hin' | Hin'].
    + pose proof (holiday_date_in l ds h' d' Hd Hv Hvd' Hin' Hh') as Hd'in.
      rewrite Forall_forall in Hfind. rewrite (Hfind d' Hd'in) in Hlt'. discriminate.
    + assert (Hm : map date (h :: l') = map _fmt (d :: ds'))
        by (cbn [map]; congruence).
      pose proof (holiday_date_in _ _ h' d' Hm Hv' Hvd' Hin' Hh') as Hd'in.
      destruct Hd'in as [-> | Hpost]; [apply ltb_irrefl |].
      pose proof (increasing_later (d :: ds') Hinc' [] d ds' eq_refl) as Hafter.
      rewrite Forall_forall in Hafter. now apply Hafter.
Qed.

(** A witness of X11: the next holiday after 27 December 2024. *)
Lemma get_next_holiday_first_later_witness :
  exists h,
    get_next_holiday (Datetime.mkdate 2000 1 1)
                     (Some (ADate (Datetime.mkdate 2024 12 27))) = Some (Some h).
Proof.
  destruct (get_next_holiday_first_later
              (Datetime.mkdate 2000 1 1) (Datetime.mkdate 2024 12 27) eq_refl)
    as (h & _ & _ & _ & H & _).
  - cbn. lia.
  - exists h. exact H.
Defined.

(** *** Years before 1000 *)

Definition no_holidays (y : Z) : bool :=
  match get_holidays y with Some _ => false | None => true end.

(** Every year from 1 to 999 is checked by evaluation. *)
Lemma early_years : all_from 999 1 no_holidays = true.
Proof. vm_compute. reflexivity. Qed.

Lemma get_holidays_early (y : Z) : 1 <= y <= 999 -> get_holidays y = None.
Proof.
  intros Hy.
  assert (H : no_holidays y = true)
    by (apply (all_from_spec no_holidays 999 1 early_years); lia).
  unfold no_holidays in H. destruct (get_holidays y); [discriminate H | reflexivity].
Qed.

(** X12: for a date before the year 1000, [get_holidays] of its year,
    [is_public_holiday] and [get_next_holiday] raise, and [is_business_day]
    raises unless the date is a Saturday or a Sunday. *)
Theorem holidays_raise_before_1000 (today d : Datetime.date) :
  valid_date d -> Datetime.year d <= 999 ->
  get_holidays (Datetime.year d) = None
  /\ is_public_holiday (ADate d) = None
  /\ get_next_holiday today (Some (ADate d)) = None
  /\ is_business_day (ADate d)
     = (if Datetime.weekday d >=? 5 then Some false else None).
Proof.
  intros Hv Hy. pose proof (valid_date_fields d Hv) as (Hy1 & _).
  pose proof (get_holidays_early (Datetime.year d) ltac:(lia)) as Hg.
  unfold is_business_day, is_public_holiday, get_next_holiday, to_date, Err.bind.
  rewrite Hg. repeat split.
Qed.

(** A witness of X12: 1 January 999. *)
Lemma holidays_raise_before_1000_witness :
  is_public_holiday (ADate (Datetime.mkdate 999 1 1)) = None.
Proof.
  exact (proj1 (proj2 (holidays_raise_before_1000
                         (Datetime.mkdate 2000 1 1) (Datetime.mkdate 999 1 1)
                         eq_refl ltac:(cbn; lia)))).
Defined.

End HolidayCalendar.

Section WorkingDays.

Import Holidays.

Lemma ltb_ordinals (a b : Datetime.date) :
  valid_date a -> valid_date b ->
  Datetime.ltb a b = (Datetime.toordinal a <? Datetime.toordinal b).
Proof.
  intros Ha Hb. pose proof (toordinal_lt a b Ha Hb) as H.
  destruct (Datetime.ltb a b) eqn:E.
  - apply date_ltb_lt in E. apply H in E. symmetry. now apply Z.ltb_lt.
  - symmetry. apply Z.ltb_ge.
    destruct (Z.lt_ge_cases (Datetime.toordinal a) (Datetime.toordinal b)) as [Hlt | Hge];
      [| lia].
    apply H in Hlt. apply date_ltb_lt in Hlt. congruence.
Qed.

Lemma year_mono (a b : Datetime.date) :
  valid_date a -> valid_date b ->
  Datetime.toordinal a <= Datetime.toordinal b -> Datetime.year a <= Datetime.year b.
Proof.
  intros Ha Hb H.
  destruct (Z.le_gt_cases (Datetime.year a) (Datetime.year b)) as [Hle | Hgt];
    [exact Hle |].
  assert (Hlt : date_lt b a) by (left; lia).
  apply (toordinal_lt b a Hb Ha) in Hlt. lia.
Qed.

(** [is_business_day] on a date of the years 1000 to 9999: a weekday that
    is no public holiday. *)
Lemma is_business_day_date (d : Datetime.date) :
  valid_date d -> 1000 <= Datetime.year d <= 9999 ->
  exists p, is_public_holiday (ADate d) = Some p
            /\ is_business_day (ADate d)
               = Some ((Datetime.weekday d <? 5) && negb p).
Proof.
  intros Hv Hy.
  destruct (is_public_holiday_date d Hv Hy) as (l & ds & _ & _ & _ & _ & Hp).
  exists (mem_date d ds). split; [exact Hp |].
  unfold is_business_day, to_date, Err.bind. rewrite Hp.
  destruct (Z.geb_spec (Datetime.weekday d) 5) as [H | H];
    destruct (Z.ltb_spec (Datetime.weekday d) 5); try lia; reflexivity.
Qed.

(** Whether [d] is a business day. *)
Definition business (d : Datetime.date) : bool :=
  match is_business_day (ADate d) with
  | Some b => b
  | None => false
  end.

(** The dates of the [n] ordinals from [o] on. *)
Fixpoint days_from (n : nat) (o : Z) : list Datetime.date :=
  match n with
  | O => []
  | S n' => Datetime._ord2ymd o :: days_from n' (o + 1)
  end.

(** The business days from [from_date] on, up to [to_date] and without
    it. *)
Definition business_days (from_date to_date : Datetime.date) : list Datetime.date :=
  filter business
         (days_from (Z.to_nat (Datetime.toordinal to_date - Datetime.toordinal from_date))
                    (Datetime.toordinal from_date)).

Lemma working_days_loop_count (to_date : Datetime.date) (fuel : nat) :
  valid_date to_date -> Datetime.year to_date <= 9999 ->
  forall current count,
    valid_date current -> 1000 <= Datetime.year current ->
    Datetime.toordinal to_date - Datetime.toordinal current <= Z.of_nat fuel ->
    working_days_loop fuel current to_date count
    = Some (count + Z.of_nat (List.length (business_days current to_date))).
Proof.
  intros Hto Hyto. induction fuel as [| fuel IH]; intros current count Hc Hyc Hfuel.
  - cbn [working_days_loop]. rewrite (ltb_ordinals _ _ Hc Hto).
    destruct (Z.ltb_spec (Datetime.toordinal current) (Datetime.toordinal to_date));
      [lia |].
    unfold business_days.
    replace (Z.to_nat _) with 0%nat by lia. cbn. f_equal. lia.
  - cbn [working_days_loop]. rewrite (ltb_ordinals _ _ Hc Hto).
    destruct (Z.ltb_spec (Datetime.toordinal current) (Datetime.toordinal to_date))
      as [Hlt | Hge].
    + assert (Hy : 1000 <= Datetime.year current <= 9999).
      { pose proof (year_mono current to_date Hc Hto ltac:(lia)). lia. }
      destruct (is_business_day_date current Hc Hy) as (p & _ & Hb).
      pose proof (toordinal_bounds to_date Hto) as Bto.
      pose proof (toordinal_bounds current Hc) as Bc.
      destruct (add_days_spec current 1 Hc) as [Hadd _].
      destruct (Hadd ltac:(lia)) as (next & Hnext & Hvn & Hon & _).
      unfold Err.bind. rewrite Hb, Hnext.
      rewrite IH; [| exact Hvn | | lia].
      2: { pose proof (year_mono current next Hc Hvn ltac:(lia)). lia. }
      f_equal. unfold business_days. rewrite Hon.
      replace (Z.to_nat (Datetime.toordinal to_date - Datetime.toordinal current))
        with (S (Z.to_nat (Datetime.toordinal to_date
                           - (Datetime.toordinal current + 1)))) by lia.
      cbn [days_from filter]. rewrite (_ord2ymd_toordinal current Hc).
      unfold business at 2. rewrite Hb.
      destruct ((Datetime.weekday current <? 5) && negb p); cbn [List.length]; lia.
    + unfold business_days.
      replace (Z.to_nat _) with 0%nat by lia. cbn. f_equal. lia.
Qed.

Lemma days_from_In (n : nat) :
  forall o d, In d (days_from n o)
              <-> exists k, o <= k < o + Z.of_nat n /\ d = Datetime._ord2ymd k.
Proof.
  induction n as [| n IH]; intros o d; cbn [days_from In].
  - split; [contradiction | intros (k & Hk & _); lia].
  - rewrite IH. split.
    + intros [<- | (k & Hk & ->)]; [exists o | exists k]; split; try reflexivity; lia.
    + intros (k & Hk & ->). destruct (Z.eq_dec k o) as [-> | Hne]; [now left |].
      right. exists k. split; [lia | reflexivity].
Qed.

Lemma days_from_NoDup (n : nat) :
  forall o, 1 <= o -> o + Z.of_nat n <= Datetime._MAXORDINAL + 1 ->
            NoDup (days_from n o).
Proof.
  induction n as [| n IH]; intros o Ho Hn; cbn [days_from]; constructor.
  - rewrite days_from_In. intros (k & Hk & E).
    apply (f_equal Datetime.toordinal) in E.
    rewrite (proj2 (_ord2ymd_spec o ltac:(lia))) in E.
    rewrite (proj2 (_ord2ymd_spec k ltac:(lia))) in E. lia.
  - apply IH; lia.
Qed.

Lemma days_from_app (n1 n2 : nat) :
  forall o, days_from (n1 + n2) o
            = (days_from n1 o ++ days_from n2 (o + Z.of_nat n1))%list.
Proof.
  induction n1 as [| n1 IH]; intros o.
  - cbn. now rewrite Z.add_0_r.
  - cbn [Nat.add days_from app]. rewrite IH. do 3 f_equal. lia.
Qed.

(** X13: for dates of the years 1000 to 9999, [get_working_days] returns
    the number of the dates [d] with [from_date <= d < to_date] for which
    [is_business_day] holds: [business_days] lists each of them once and
    nothing else. *)
Theorem get_working_days_count (from_date to_date : Datetime.date) :
  valid_date from_date -> valid_date to_date ->
  1000 <= Datetime.year from_date -> Datetime.year to_date <= 9999 ->
  get_working_days (ADate from_date) (ADate to_date)
  = Some (Z.of_nat (List.length (business_days from_date to_date)))
  /\ NoDup (business_days from_date to_date)
  /\ forall d,
       In d (business_days from_date to_date)
       <-> valid_date d
           /\ Datetime.toordinal from_date <= Datetime.toordinal d
              < Datetime.toordinal to_date
           /\ is_business_day (ADate d) = Some true.
Proof.
  intros Hf Ht Hyf Hyt.
  pose proof (toordinal_bounds from_date Hf) as Bf.
  pose proof (toordinal_bounds to_date Ht) as Bt.
  split; [| split].
  - unfold get_working_days, Holidays.to_date, Err.bind.
    rewrite (working_days_loop_count to_date _ Ht Hyt from_date 0 Hf Hyf); [reflexivity |].
    lia.
  - unfold business_days. apply NoDup_filter. apply days_from_NoDup; lia.
  - intros d. unfold business_days. rewrite filter_In, days_from_In. split.
    + intros ((k & Hk & ->) & Hb).
      destruct (_ord2ymd_spec k ltac:(lia)) as [Hv Ho].
      rewrite Ho. split; [exact Hv |]. split; [lia |].
      unfold business in Hb.
      destruct (is_business_day (ADate (Datetime._ord2ymd k))) as [[] |];
        [reflexivity | discriminate Hb | discriminate Hb].
    + intros (Hv & Ho & Hb). split.
      * exists (Datetime.toordinal d). split; [lia |].
        symmetry. now apply _ord2ymd_toordinal.
      * unfold business. now rewrite Hb.
Qed.

(** A witness of X13: the first week of 2024. *)
Lemma get_working_days_count_witness :
  get_working_days (ADate (Datetime.mkdate 2024 1 1)) (ADate (Datetime.mkdate 2024 1 8))
  = Some (Z.of_nat (List.length (business_days (Datetime.mkdate 2024 1 1)
                                               (Datetime.mkdate 2024 1 8)))).
Proof.
  exact (proj1 (get_working_days_count
                  (Datetime.mkdate 2024 1 1) (Datetime.mkdate 2024 1 8)
                  eq_refl eq_refl ltac:(cbn; lia) ltac:(cbn; lia))).
Defined.

(** X14: when [from_date] is not before [to_date], [get_working_days]
    returns 0, whatever the dates; for dates of the years 1000 to 9999 it
    returns a number from 0 to the number of days of the range. *)
Theorem get_working_days_bounds (from_date to_date : Datetime.date) :
  (Datetime.ltb from_date to_date = false ->
   get_working_days (ADate from_date) (ADate to_date) = Some 0)
  /\ (valid_date from_date -> valid_date to_date ->
      1000 <= Datetime.year from_date -> Datetime.year to_date <= 9999 ->
      exists n, get_working_days (ADate from_date) (ADate to_date) = Some n
                /\ 0 <= n
                /\ n <= Z.max 0 (Datetime.toordinal to_date
                                 - Datetime.toordinal from_date)).
Proof.
  split.
  - intros H. unfold get_working_days, Holidays.to_date, Err.bind.
    destruct (Z.to_nat _); cbn [working_days_loop]; rewrite H; reflexivity.
  - intros Hf Ht Hyf Hyt.
    pose proof (toordinal_bounds from_date Hf) as Bf.
    pose proof (toordinal_bounds to_date Ht) as Bt.
    eexists. split.
    + unfold get_working_days, Holidays.to_date, Err.bind.
      apply (working_days_loop_count to_date _ Ht Hyt from_date 0 Hf Hyf). lia.
    + cbn [Z.add]. split; [lia |].
      unfold business_days.
      pose proof (filter_length_le business
                    (days_from (Z.to_nat (Datetime.toordinal to_date
                                          - Datetime.toordinal from_date))
                               (Datetime.toordinal from_date))) as Hle.
      assert (Hlen : forall n o, List.length (days_from n o) = n).
      { induction n as [| n IH]; intros o; cbn [days_from List.length];
          [reflexivity | now rewrite IH]. }
      rewrite Hlen in Hle. lia.
Qed.

(** A witness of X14: a reversed range. *)
Lemma get_working_days_bounds_witness :
  get_working_days (ADate (Datetime.mkdate 2024 1 8)) (ADate (Datetime.mkdate 2024 1 1))
  = Some 0.
Proof.
  exact (proj1 (get_working_days_bounds
                  (Datetime.mkdate 2024 1 8) (Datetime.mkdate 2024 1 1)) eq_refl).
Defined.

(** X15: for dates [a <= b <= c] of the years 1000 to 9999, the working
    days from [a] to [c] are those from [a] to [b] plus those from [b] to
    [c]. *)
Theorem get_working_days_additive (a b c : Datetime.date) :
  valid_date a -> valid_date b -> valid_date c ->
  1000 <= Datetime.year a -> Datetime.year c <= 9999 ->
  Datetime.ltb b a = false -> Datetime.ltb c b = false ->
  exists n1 n2,
    get_working_days (ADate a) (ADate b) = Some n1
    /\ get_working_days (ADate b) (ADate c) = Some n2
    /\ get_working_days (ADate a) (ADate c) = Some (n1 + n2).
Proof.
  intros Ha Hb Hc Hya Hyc Hab Hbc.
  rewrite (ltb_ordinals b a Hb Ha) in Hab. rewrite (ltb_ordinals c b Hc Hb) in Hbc.
  apply Z.ltb_ge in Hab, Hbc.
  pose proof (year_mono a b Ha Hb Hab) as Y1.
  pose proof (year_mono b c Hb Hc Hbc) as Y2.
  unfold get_working_days, Holidays.to_date, Err.bind.
  rewrite (working_days_loop_count b _ Hb ltac:(lia) a 0 Ha Hya) by lia.
  rewrite (working_days_loop_count c _ Hc Hyc b 0 Hb ltac:(lia)) by lia.
  rewrite (working_days_loop_count c _ Hc Hyc a 0 Ha Hya) by lia.
  eexists _, _. do 2 (split; [reflexivity |]).
  f_equal. cbn [Z.add]. unfold business_days.
  replace (Z.to_nat (Datetime.toordinal c - Datetime.toordinal a))
    with (Z.to_nat (Datetime.toordinal b - Datetime.toordinal a)
          + Z.to_nat (Datetime.toordinal c - Datetime.toordinal b))%nat by lia.
  rewrite days_from_app, filter_app, length_app, Z2Nat.id by lia.
  replace (Datetime.toordinal a + (Datetime.toordinal b - Datetime.toordinal a))
    with (Datetime.toordinal b) by ring.
  lia.
Qed.

(** A witness of X15: two adjoining weeks of 2024. *)
Lemma get_working_days_additive_witness :
  exists n1 n2,
    get_working_days (ADate (Datetime.mkdate 2024 1 1)) (ADate (Datetime.mkdate 2024 1 8))
    = Some n1
    /\ get_working_days (ADate (Datetime.mkdate 2024 1 8))
                        (ADate (Datetime.mkdate 2024 1 15)) = Some n2
    /\ get_working_days (ADate (Datetime.mkdate 2024 1 1))
                        (ADate (Datetime.mkdate 2024 1 15)) = Some (n1 + n2).
Proof.
  exact (get_working_days_additive
           (Datetime.mkdate 2024 1 1) (Datetime.mkdate 2024 1 8)
           (Datetime.mkdate 2024 1 15)
           eq_refl eq_refl eq_refl ltac:(cbn; lia) ltac:(cbn; lia) eq_refl eq_refl).
Defined.

End WorkingDays.

Section IsoStrings.

Import Holidays.

(** X16: the strings that [_fmt] gives for two dates compare as the dates
    do: the string order used by [get_next_holiday] and by the sorting of
    [get_holidays] is the order of the dates, and the string equality used
    by [is_public_holiday] is the equality of the dates. *)
Theorem iso_strings_order (a b : Datetime.date) :
  valid_date a -> valid_date b ->
  Py.str_ltb (_fmt a) (_fmt b) = Datetime.ltb a b
  /\ String.eqb (_fmt a) (_fmt b) = Datetime.eqb a b.
Proof.
  intros Ha Hb. split; [now apply _fmt_ltb | now apply _fmt_eqb].
Qed.

(** A witness of X16: two days of 2024. *)
Lemma iso_strings_order_witness :
  Py.str_ltb (_fmt (Datetime.mkdate 2024 2 29)) (_fmt (Datetime.mkdate 2024 10 1))
  = Datetime.ltb (Datetime.mkdate 2024 2 29) (Datetime.mkdate 2024 10 1).
Proof.
  exact (proj1 (iso_strings_order (Datetime.mkdate 2024 2 29) (Datetime.mkdate 2024 10 1)
                                  eq_refl eq_refl)).
Defined.

(** X17: [_parse] reads the string of [_fmt] back as the date, and
    [is_public_holiday], [is_business_day], [get_next_holiday] and
    [get_working_days] give for the ISO string of a date what they give
    for the date. *)
Theorem iso_string_arguments (today d : Datetime.date) :
  valid_date d ->
  _parse (_fmt d) = Some d
  /\ is_public_holiday (AStr (_fmt d)) = is_public_holiday (ADate d)
  /\ is_business_day (AStr (_fmt d)) = is_business_day (ADate d)
  /\ get_next_holiday today (Some (AStr (_fmt d)))
     = get_next_holiday today (Some (ADate d))
  /\ forall d', valid_date d' ->
       get_working_days (AStr (_fmt d)) (AStr (_fmt d'))
       = get_working_days (ADate d) (ADate d').
Proof.
  intros Hv. pose proof (_parse_fmt d Hv) as Hp.
  split; [exact Hp |].
  unfold is_public_holiday, is_business_day, get_next_holiday, get_working_days,
    to_date.
  rewrite Hp. repeat split.
  intros d' Hv'. rewrite (_parse_fmt d' Hv'). reflexivity.
Qed.

(** A witness of X17: 29 February 2024. *)
Lemma iso_string_arguments_witness :
  _parse (_fmt (Datetime.mkdate 2024 2 29)) = Some (Datetime.mkdate 2024 2 29).
Proof.
  exact (proj1 (iso_string_arguments (Datetime.mkdate 2000 1 1)
                                     (Datetime.mkdate 2024 2 29) eq_refl)).
Defined.

(** X18: for a year from 1 to 9999, a month, a weekday from 0 to 6 and
    [n >= 1], [_nth_weekday] returns the date of that month on that weekday
    whose day lies in the [n]-th span of seven days, and raises when the
    month has no such day; up to [n = 4] it always returns a date. *)
Theorem _nth_weekday_spec (y m weekday n : Z) (d : Datetime.date) :
  1 <= y <= 9999 -> 1 <= m <= 12 -> 0 <= weekday <= 6 -> 1 <= n ->
  (_nth_weekday y m weekday n = Some d
   <-> exists day, d = Datetime.mkdate y m day
                   /\ 7 * (n - 1) < day <= 7 * n
                   /\ day <= Datetime._days_in_month y m
                   /\ Datetime.weekday d = weekday)
  /\ (n <= 4 -> exists d', _nth_weekday y m weekday n = Some d').
Proof.
  intros Hy Hm Hw Hn.
  pose proof (_days_in_month_bounds y m Hm) as Hdim.
  split.
  2: { intros H4.
       destruct (_nth_weekday_date y m weekday n Hy Hm Hw ltac:(lia)) as (d' & Hd' & _).
       now exists d'. }
  unfold _nth_weekday, Err.bind.
  rewrite (new_ok y m 1) by lia.
  set (first := Datetime.mkdate y m 1).
  set (dd := 1 + (weekday - Datetime.weekday first) mod 7 + (n - 1) * 7).
  assert (Hdd : 7 * (n - 1) < dd <= 7 * n).
  { unfold dd. pose proof (Z.mod_pos_bound (weekday - Datetime.weekday first) 7). lia. }
  assert (Hwd : forall day, Datetime.weekday (Datetime.mkdate y m day) = weekday
                            /\ 7 * (n - 1) < day <= 7 * n <-> day = dd).
  { intros day.
    unfold dd, first, Datetime.weekday, Datetime.toordinal, Datetime._ymd2ord.
    cbn [Datetime.year Datetime.month Datetime.day].
    set (X := Datetime._days_before_year y + Datetime._days_before_month y m).
    clearbody X. Z.div_mod_to_equations. lia. }
  split.
  - intros H. apply new_valid in H. destruct H as (-> & _ & _ & _ & Hday).
    exists dd. split; [reflexivity |]. split; [exact Hdd |]. split; [lia |].
    apply (Hwd dd). reflexivity.
  - intros (day & -> & Hwin & Hle & Hwk).
    assert (day = dd) by (apply Hwd; split; assumption). subst day.
    apply new_ok; lia.
Qed.

(** A witness of X18: the third Monday of October 2024. *)
Lemma _nth_weekday_spec_witness :
  exists d', _nth_weekday 2024 10 0 3 = Some d'.
Proof.
  apply (proj2 (_nth_weekday_spec 2024 10 0 3 (Datetime.mkdate 2024 10 21)
                                  ltac:(lia) ltac:(lia) ltac:(lia) ltac:(lia))).
  lia.
Defined.

End IsoStrings.

Section AddressRecords.

Import Addresses.

(** The fields that pass 1 and pass 2 of [parse_address] never write. *)
Lemma parse_pass1_raw (rsegs : list string) :
  forall r, raw (fst (parse_pass1 rsegs r)) = raw r.
Proof.
  induction rsegs as [| seg rest IH]; intros r; cbn [parse_pass1]; [reflexivity |].
  destruct (Re.search true _KINGSTON_SECTOR_RE seg).
  - cbv zeta. destruct (_ && _); reflexivity.
  - destruct (_resolve_parish seg) as [resolved |]; [| apply IH].
    destruct (Py.truthy resolved); [reflexivity | apply IH].
Qed.

Lemma parse_pass2_raw (remaining : list string) (r : ParsedAddress) :
  raw (parse_pass2 remaining r) = raw r.
Proof.
  unfold parse_pass2. destruct remaining as [| first rest]; [reflexivity |].
  cbn [tl].
  repeat (first
            [ match goal with
              | |- context [Re.rmatch ?c ?re ?s] => destruct (Re.rmatch c re s)
              end
            | match goal with
              | |- context [Py.otruthy ?x] => destruct (Py.otruthy x)
              end
            | match goal with
              | |- context [match ?l with [] => _ | _ :: _ => _ end] =>
                  is_var l; destruct l
              end ];
          cbv beta iota zeta; cbn [negb]);
    reflexivity.
Qed.

Lemma parse_pass1_parish (rsegs : list string) :
  forall r p,
    parish (fst (parse_pass1 rsegs r)) = Some p ->
    In p PARISH_NAMES \/ parish r = Some p.
Proof.
  induction rsegs as [| seg rest IH]; intros r p; cbn [parse_pass1];
    [intros H; now right |].
  destruct (Re.search true _KINGSTON_SECTOR_RE seg).
  - cbv zeta. cbn [fst]. intros H. left.
    assert (p = "Kingston") by (destruct (_ && _); cbn in H; congruence).
    subst p. now left.
  - destruct (_resolve_parish seg) as [resolved |] eqn:E; [| apply IH].
    destruct (Py.truthy resolved); [| apply IH].
    cbn. intros [= <-]. left. now apply (_resolve_parish_canonical seg).
Qed.

Lemma rstrip_idem (s : string) : Py.rstrip (Py.rstrip s) = Py.rstrip s.
Proof.
  induction s as [| c s IH]; [reflexivity |].
  cbn [Py.rstrip]. destruct (Py.rstrip s) as [| c' r] eqn:E.
  - destruct (Py.isspace c) eqn:Hc; [reflexivity |].
    cbn [Py.rstrip]. now rewrite Hc.
  - change (Py.rstrip (String c (String c' r)))
      with (match Py.rstrip (String c' r) with
            | EmptyString => if Py.isspace c then EmptyString else String c EmptyString
            | r0 => String c r0
            end).
    rewrite IH. reflexivity.
Qed.

(** What [rstrip] leaves does not end in white space, and what [lstrip]
    leaves does not start with it. *)
Lemma lstrip_idem (s : string) : Py.lstrip (Py.lstrip s) = Py.lstrip s.
Proof.
  induction s as [| c s IH]; [reflexivity |].
  cbn [Py.lstrip]. destruct (Py.isspace c) eqn:Hc; [exact IH |].
  cbn [Py.lstrip]. now rewrite Hc.
Qed.

Lemma rstrip_lstrip (s : string) :
  Py.rstrip (Py.lstrip s) = Py.lstrip (Py.rstrip s).
Proof.
  induction s as [| c s IH]; [reflexivity |].
  cbn [Py.lstrip Py.rstrip].
  destruct (Py.isspace c) eqn:Hc.
  - rewrite IH. destruct (Py.rstrip s) as [| c' r]; cbn [Py.lstrip]; now rewrite ?Hc.
  - cbn [Py.rstrip]. destruct (Py.rstrip s) as [| c' r]; cbn [Py.lstrip]; now rewrite Hc.
Qed.

Lemma strip_idem (s : string) : Py.strip (Py.strip s) = Py.strip s.
Proof.
  unfold Py.strip. rewrite (rstrip_lstrip (Py.rstrip s)), rstrip_idem.
  apply lstrip_idem.
Qed.

(** The record [r] with another [raw] text. *)
Definition with_raw (text : string) (r : ParsedAddress) : ParsedAddress :=
  {| raw := text; street_number := street_number r; street_name := street_name r;
     unit := unit r; community := community r; district := district r;
     parish := parish r; kingston_sector := kingston_sector r |}.

Lemma parse_pass1_with_raw (text : string) (rsegs : list string) :
  forall r,
    parse_pass1 rsegs (with_raw text r)
    = (with_raw text (fst (parse_pass1 rsegs r)), snd (parse_pass1 rsegs r)).
Proof.
  induction rsegs as [| seg rest IH]; intros r; cbn [parse_pass1]; [reflexivity |].
  destruct (Re.search true _KINGSTON_SECTOR_RE seg).
  - cbv zeta. destruct (_ && _); reflexivity.
  - destruct (_resolve_parish seg) as [resolved |]; [| apply IH].
    destruct (Py.truthy resolved); [reflexivity | apply IH].
Qed.

Lemma parse_pass2_with_raw (text : string) (remaining : list string)
      (r : ParsedAddress) :
  parse_pass2 remaining (with_raw text r) = with_raw text (parse_pass2 remaining r).
Proof.
  unfold parse_pass2. destruct remaining as [| first rest]; [reflexivity |].
  cbn [tl].
  repeat (first
            [ match goal with
              | |- context [Re.rmatch ?c ?re ?s] => destruct (Re.rmatch c re s)
              end
            | match goal with
              | |- context [match ?l with [] => _ | _ :: _ => _ end] =>
                  is_var l; destruct l
              end ];
          cbv beta iota zeta; cbn [negb]);
    try reflexivity;
    cbn [street_name with_raw set_street_name set_street_number set_unit
         set_district];
    repeat match goal with
           | |- context [Py.otruthy ?x] => destruct (Py.otruthy x)
           end; reflexivity.
Qed.

(** X19: for every text, [parse_address] keeps the text as [raw]; the
    parish it sets is one of the 14 names of [PARISH_NAMES]; a text of
    white space only gives the record with no field but [raw]; and white
    space around the text changes no field but [raw]. *)
Theorem parse_address_invariants (text : string) :
  raw (parse_address text) = text
  /\ (forall p, parish (parse_address text) = Some p -> In p PARISH_NAMES)
  /\ (Py.strip text = "" -> parse_address text = empty_address text)
  /\ parse_address (Py.strip text) = with_raw (Py.strip text) (parse_address text).
Proof.
  split; [| split; [| split]].
  - unfold parse_address. cbv zeta.
    destruct (negb (Py.truthy (Py.strip text))); [reflexivity |].
    pose proof (parse_pass1_raw (rev (map Py.strip (Py.split "," (Py.strip text))))
                                (empty_address text)) as H1.
    destruct (parse_pass1 _ (empty_address text)) as [r idx]. cbn [fst] in H1.
    rewrite parse_pass2_raw. exact H1.
  - intros p. unfold parse_address. cbv zeta.
    destruct (negb (Py.truthy (Py.strip text))); [cbn; discriminate |].
    pose proof (parse_pass1_parish (rev (map Py.strip (Py.split "," (Py.strip text))))
                                   (empty_address text) p) as H1.
    destruct (parse_pass1 _ (empty_address text)) as [r idx]. cbn [fst] in H1.
    match goal with
    | |- context [parse_pass2 ?rem r] =>
        destruct (parse_pass2_keeps rem r) as [Hp _]; rewrite Hp
    end.
    intros H. destruct (H1 H) as [Hin | Hno]; [exact Hin | discriminate Hno].
  - intros H. unfold parse_address. cbv zeta. rewrite H. reflexivity.
  - unfold parse_address. cbv zeta. rewrite strip_idem.
    destruct (negb (Py.truthy (Py.strip text))); [reflexivity |].
    change (empty_address (Py.strip text))
      with (with_raw (Py.strip text) (empty_address text)).
    rewrite parse_pass1_with_raw.
    destruct (parse_pass1 _ (empty_address text)) as [r idx]. cbn [fst snd].
    apply parse_pass2_with_raw.
Qed.

(** *** Formatting *)

Lemma otruthy_opt_str (o : option string) :
  Py.otruthy o = true -> exists c s, Addresses.opt_str o = String c s.
Proof.
  destruct o as [[| c s] |]; cbn; try discriminate. intros _. now exists c, s.
Qed.

(** X20: [normalize_address] gives the empty string exactly for a record
    that has no unit, street name, community, district or parish; a street
    number and a Kingston sector alone do not show. *)
Theorem normalize_address_empty_iff (p : ParsedAddress) :
  normalize_address p = ""
  <-> Py.otruthy (unit p) = false /\ Py.otruthy (street_name p) = false
      /\ Py.otruthy (community p) = false /\ Py.otruthy (district p) = false
      /\ Py.otruthy (parish p) = false.
Proof.
  unfold normalize_address, append. cbv zeta.
  destruct (Py.otruthy (unit p)) eqn:Eu;
    [destruct (otruthy_opt_str _ Eu) as (cu & su & ->) |];
  (destruct (Py.otruthy (street_name p)) eqn:En;
    [destruct (otruthy_opt_str _ En) as (cn & sn & ->) |]);
  (destruct (Py.otruthy (street_number p)) eqn:Em;
    [destruct (otruthy_opt_str _ Em) as (cm & sm & ->) |]);
  (destruct (Py.otruthy (community p)) eqn:Ec;
    [destruct (otruthy_opt_str _ Ec) as (cc & sc & ->) |]);
  (destruct (Py.otruthy (district p)) eqn:Ed);
  (destruct (Py.otruthy (parish p)) eqn:Ep;
    [destruct (otruthy_opt_str _ Ep) as (cp & sp & ->) |]);
  try destruct (sector_truthy (kingston_sector p));
  cbn [andb app Py.join String.append];
  (split; [intros H; try discriminate H; repeat split | intros (? & ? & ? & ? & ?); try discriminate; reflexivity]).
Qed.

(** The last part of a formatted address: the parish, with the Kingston
    sector when there is one. *)
Definition parish_part (p : ParsedAddress) : list string :=
  if Py.otruthy (parish p)
  then if sector_truthy (kingston_sector p)
       then [opt_str (parish p) ++ " "
             ++ match kingston_sector p with
                | Some n => Py.str_of_int n
                | None => "None"
                end]
       else [opt_str (parish p)]
  else [].

Definition option_part (o : option string) : list string :=
  match o with Some s => [s] | None => [] end.

(** X21: the [formatted] field of [to_normalized_address] is [line1]
    (when the record has a unit, street name or community), [line2] and
    the parish with its sector, joined by commas; without unit, street
    name and community [line1] is the raw text; [line2] is never the empty
    string, and [parish] is the parish of the record or [Unknown]. *)
Theorem to_normalized_address_fields (p : ParsedAddress) :
  let n := to_normalized_address p in
  let has_line1 :=
    Py.otruthy (unit p) || Py.otruthy (street_name p) || Py.otruthy (community p) in
  formatted n
  = Py.join ", " ((if has_line1 then [line1 n] else [])
                  ++ option_part (line2 n) ++ parish_part p)
  /\ (has_line1 = false -> line1 n = raw p)
  /\ (has_line1 = true -> line1 n <> "")
  /\ line2 n <> Some ""
  /\ n_parish n <> ""
  /\ (n_parish n = "Unknown" \/ parish p = Some (n_parish n)).
Proof.
  unfold to_normalized_address, normalize_address, parish_part, option_part, append.
  cbv zeta. cbn [line1 line2 formatted n_parish].
  destruct (Py.otruthy (unit p)) eqn:Eu;
    [destruct (otruthy_opt_str _ Eu) as (cu & su & ->) |];
  (destruct (Py.otruthy (street_name p)) eqn:En;
    [destruct (otruthy_opt_str _ En) as (cn & sn & ->) |]);
  (destruct (Py.otruthy (street_number p)) eqn:Em;
    [destruct (otruthy_opt_str _ Em) as (cm & sm & ->) |]);
  (destruct (Py.otruthy (community p)) eqn:Ec;
    [destruct (otruthy_opt_str _ Ec) as (cc & sc & ->) |]);
  (destruct (Py.otruthy (district p)) eqn:Ed);
  (destruct (Py.otruthy (parish p)) eqn:Ep;
    [pose proof (otruthy_opt_str _ Ep) as (cp & sp & Hp) |]);
  try destruct (sector_truthy (kingston_sector p));
  cbn [andb orb app Py.join String.append list_truthy];
  (split; [rewrite ?append_assoc; cbn [String.append]; rewrite ?append_assoc;
           reflexivity |]);
  (split; [intros H; first [reflexivity | discriminate H] |]);
  (split; [intros H; first [discriminate | discriminate H] |]);
  (split; [discriminate |]);
  (split; [try (rewrite Hp); discriminate |]);
  first [ left; reflexivity
        | right; destruct (parish p) as [x |]; [reflexivity | discriminate Ep] ].
Qed.

End AddressRecords.

Section KingstonAgreement.

Import Re Addresses.

Lemma rstrip_keeps (a : string) (z : ascii) (post : string) :
  Py.isspace z = false ->
  Py.rstrip (a ++ String z post) = a ++ String z (Py.rstrip post).
Proof.
  intros Hz. induction a as [| c a IH].
  - cbn [String.append Py.rstrip]. destruct (Py.rstrip post); [now rewrite Hz | reflexivity].
  - cbn [String.append Py.rstrip]. rewrite IH.
    destruct a; reflexivity.
Qed.

Lemma lstrip_keeps (pre : string) (k : ascii) (rest : string) :
  Py.isspace k = false ->
  Py.lstrip (pre ++ String k rest) = Py.lstrip pre ++ String k rest.
Proof.
  intros Hk. induction pre as [| c pre IH].
  - cbn [String.append Py.lstrip]. now rewrite Hk.
  - cbn [String.append Py.lstrip]. destruct (Py.isspace c); [exact IH | reflexivity].
Qed.

Lemma last_char_app (a b : string) :
  forall prev, last_char prev (a ++ b) = last_char (last_char prev a) b.
Proof.
  induction a as [| c a IH]; intros prev; [reflexivity |].
  cbn [String.append last_char]. apply IH.
Qed.

Lemma last_char_lstrip (pre : string) :
  word_at (last_char None pre) = false ->
  word_at (last_char None (Py.lstrip pre)) = false.
Proof.
  destruct (lstrip_split pre) as [ws [Hs _]].
  destruct (Py.lstrip pre) as [| c t] eqn:E; [reflexivity |].
  rewrite Hs at 1. rewrite last_char_app. cbn [last_char]. trivial.
Qed.

Lemma head_rstrip (post : string) :
  word_at (head post) = false -> word_at (head (Py.rstrip post)) = false.
Proof.
  destruct post as [| c t]; [trivial |].
  cbn [Py.rstrip]. destruct (Py.rstrip t); [destruct (Py.isspace c) |]; trivial.
Qed.

Lemma kingston_first (kw : string) :
  Py.lower kw = "kingston" ->
  exists k kw', kw = String k kw' /\ Py.isspace k = false.
Proof.
  destruct kw as [| k kw']; [discriminate |].
  unfold Py.lower. cbn [Py.smap]. intros H. injection H as Hk _.
  exists k, kw'. split; [reflexivity |].
  destruct k as [[] [] [] [] [] [] [] []]; try reflexivity; discriminate Hk.
Qed.

Lemma digits_last (ds : string) :
  all_chars Py.isdigit ds = true ->
  (String.length ds = 1 \/ String.length ds = 2)%nat ->
  exists ds' z, ds = ds' ++ String z "" /\ Py.isspace z = false.
Proof.
  intros Hd Hlen.
  destruct ds as [| a [| b [| c ds]]]; cbn in Hlen; try lia; cbn in Hd;
    rewrite ?andb_true_r in Hd.
  - exists "", a. split; [reflexivity | now apply isdigit_not_isspace].
  - apply andb_true_iff in Hd. destruct Hd as [_ Hb].
    exists (String a ""), b. split; [reflexivity | now apply isdigit_not_isspace].
Qed.

(** An occurrence of the pattern is still one when the text is
    stripped. *)
Lemma sector_occurrence_strip (s pre ds : string) :
  sector_occurrence s pre ds ->
  sector_occurrence (Py.strip s) (Py.lstrip pre) ds.
Proof.
  intros (suffix & -> & kw & ws & post & -> & Hprev & Hkw & Hws & Hds & Hlen & Hpost).
  destruct (kingston_first kw Hkw) as (k & kw' & -> & Hk).
  destruct (digits_last ds Hds Hlen) as (ds' & z & -> & Hz).
  exists (String k kw' ++ ws ++ (ds' ++ String z "") ++ Py.rstrip post).
  split.
  - unfold Py.strip.
    replace (pre ++ String k kw' ++ ws ++ (ds' ++ String z "") ++ post)
      with ((pre ++ String k kw' ++ ws ++ ds') ++ String z post)
      by (rewrite !append_assoc; reflexivity).
    rewrite (rstrip_keeps _ z post Hz).
    replace ((pre ++ String k kw' ++ ws ++ ds') ++ String z (Py.rstrip post))
      with (pre ++ String k (kw' ++ ws ++ ds' ++ String z (Py.rstrip post)))
      by (rewrite !append_assoc; reflexivity).
    rewrite (lstrip_keeps pre k _ Hk). 
    f_equal. cbn [String.append]. f_equal.
    rewrite !append_assoc. reflexivity.
  - exists (String k kw'), ws, (Py.rstrip post).
    repeat split; try assumption.
    + now apply last_char_lstrip.
    + now apply head_rstrip.
Qed.

(** X22: when [get_kingston_sector] returns a sector for an address, the
    sector is from 1 to 20, [extract_parish] returns Kingston for the
    address and [is_kingston_address] holds. *)
Theorem get_kingston_sector_is_kingston (address : string) (n : Z) :
  get_kingston_sector address = Some n ->
  extract_parish address = Some "Kingston"
  /\ is_kingston_address address = true
  /\ 1 <= n <= 20.
Proof.
  intros H.
  assert (Hn : 1 <= n <= 20).
  { rewrite get_kingston_sector_search in H.
    destruct (sector_search None address) as [ds |]; [| discriminate H].
    cbv zeta in H. destruct (_ || _) eqn:Hr; [discriminate H |].
    injection H as <-. now apply sector_in_range. }
  assert (Hk : extract_parish address = Some "Kingston").
  { rewrite get_kingston_sector_search in H.
    destruct (sector_search None address) as [ds |] eqn:E; [| discriminate H].
    apply search_first_occurrence in E. destruct E as (pre & Hocc & _).
    apply sector_occurrence_strip in Hocc.
    assert (Hs : sector_search None (Py.strip address) <> None).
    { intros Hnone. rewrite search_no_occurrence in Hnone.
      exact (Hnone _ _ Hocc). }
    assert (Ht : Py.truthy (Py.strip address) = true).
    { destruct Hocc as (suffix & Hst & kw & ws & post & -> & _ & Hkw & _).
      rewrite Hst. destruct (kingston_first kw Hkw) as (k & kw' & -> & _).
      destruct (Py.lstrip pre); reflexivity. }
    unfold extract_parish. cbv zeta. rewrite Ht. cbn [negb].
    pose proof (search_kingston_sector (Py.strip address) None) as Hre.
    unfold search.
    destruct (search_from true _KINGSTON_SECTOR_RE None (Py.strip address));
      [reflexivity |].
    destruct (sector_search None (Py.strip address)); [discriminate Hre | contradiction]. }
  split; [exact Hk |]. split; [| exact Hn].
  unfold is_kingston_address. rewrite Hk. reflexivity.
Qed.

(** A witness of X22: a sector after other text. *)
Lemma get_kingston_sector_is_kingston_witness :
  extract_parish "12 Hope Road, Kingston 10" = Some "Kingston"
  /\ is_kingston_address "12 Hope Road, Kingston 10" = true
  /\ 1 <= 10 <= 20.
Proof.
  apply (get_kingston_sector_is_kingston "12 Hope Road, Kingston 10" 10).
  vm_compute. reflexivity.
Defined.

End KingstonAgreement.

Section CurrencyFormat.

Import Currency.

(** A NaN or an infinity. *)
Definition not_finite (x : float) : Prop :=
  Prim2SF x = S754_nan \/ exists s, Prim2SF x = S754_infinity s.

Lemma floor_not_finite (x : float) : not_finite x -> PyFloat.floor x = None.
Proof.
  unfold PyFloat.floor. intros [-> | [s ->]]; reflexivity.
Qed.

Lemma _round_to_not_finite (value : float) (decimals : Z) :
  not_finite value -> _round_to value decimals = None.
Proof.
  intros H. unfold _round_to, Err.bind.
  destruct (decimals <? 0); [reflexivity |].
  destruct (PyFloat.of_int (10 ^ decimals)) as [f |]; [| reflexivity].
  rewrite floor_not_finite; [reflexivity |].
  unfold not_finite. rewrite add_spec, mul_spec.
  change (Prim2SF 0.5) with (S754_finite false 4503599627370496 (-53)).
  destruct H as [-> | [s ->]].
  - left. reflexivity.
  - destruct (Prim2SF f) as [s' | s' | | s' m e]; cbn; eauto.
Qed.

Lemma abs_not_finite (x : float) : not_finite x -> not_finite (PrimFloat.abs x).
Proof.
  unfold not_finite. rewrite abs_spec. intros [-> | [s ->]]; cbn; eauto.
Qed.

(** X23: for a NaN or an infinity, [format_jmd] and [format_usd] raise:
    [math.floor] in [_round_to] refuses the value. *)
Theorem format_jmd_not_finite (x : float) (options : option FormatOptions) :
  not_finite x -> format_jmd x options = None /\ format_usd x = None.
Proof.
  intros H. apply abs_not_finite in H.
  unfold format_jmd, format_usd, _format_absolute, Err.bind.
  rewrite !(_round_to_not_finite _ _ H). split; reflexivity.
Qed.

(** A witness of X23: the infinity. *)
Lemma format_jmd_not_finite_witness :
  format_jmd infinity None = None /\ format_usd infinity = None.
Proof.
  apply (format_jmd_not_finite infinity None).
  right. exists false. reflexivity.
Defined.

Lemma positive_sign (x : float) :
  (0 <? x)%float = true ->
  (x <? 0)%float = false /\ (- x <? 0)%float = true
  /\ PrimFloat.abs (- x) = PrimFloat.abs x.
Proof.
  rewrite !ltb_spec, opp_spec.
  change (Prim2SF 0) with (S754_zero false).
  intros H. split; [| split].
  - destruct (Prim2SF x) as [s | s | | s m e]; try discriminate H;
      destruct s; try discriminate H; reflexivity.
  - destruct (Prim2SF x) as [s | s | | s m e]; try discriminate H;
      destruct s; try discriminate H; reflexivity.
  - apply Prim2SF_inj. rewrite !abs_spec, opp_spec.
    destruct (Prim2SF x); reflexivity.
Qed.

(** X24: for an amount above zero, [format_jmd] and [format_usd] of the
    negated amount are the text for the amount with a minus sign in front
    of the currency symbol. *)
Theorem format_jmd_negative (x : float) (options : option FormatOptions) :
  (0 <? x)%float = true ->
  format_jmd (- x) options = option_map (String "-") (format_jmd x options)
  /\ format_usd (- x) = option_map (String "-") (format_usd x).
Proof.
  intros H. destruct (positive_sign x H) as (Hpos & Hneg & Habs).
  unfold format_jmd, format_usd, Err.bind. rewrite Hpos, Hneg, Habs.
  split.
  - destruct (_format_absolute _ _ _); reflexivity.
  - destruct (_format_absolute _ _ _); reflexivity.
Qed.

(** A witness of X24: the amount 1234.5. *)
Lemma format_jmd_negative_witness :
  format_jmd (- 1234.5)%float None
  = option_map (String "-") (format_jmd 1234.5%float None)
  /\ format_usd (- 1234.5)%float = option_map (String "-") (format_usd 1234.5%float).
Proof.
  apply (format_jmd_negative 1234.5%float None). reflexivity.
Defined.

(** *** Grouping *)

(** The number of occurrences of [c] in [s]. *)
Fixpoint count_char (c : ascii) (s : string) : nat :=
  match s with
  | EmptyString => O
  | String a s' => ((if Ascii.eqb a c then 1 else 0) + count_char c s')%nat
  end.

Lemma count_char_app (c : ascii) (a b : string) :
  count_char c (a ++ b) = (count_char c a + count_char c b)%nat.
Proof.
  induction a as [| x a IH]; [reflexivity |].
  cbn [String.append count_char]. rewrite IH. lia.
Qed.

Lemma remove_char_app (c : ascii) (a b : string) :
  Py.remove_char c (a ++ b) = Py.remove_char c a ++ Py.remove_char c b.
Proof.
  induction a as [| x a IH]; [reflexivity |].
  cbn [String.append Py.remove_char]. rewrite IH.
  destruct (Ascii.eqb x c); reflexivity.
Qed.

Lemma remove_char_absent (c : ascii) (s : string) :
  count_char c s = O -> Py.remove_char c s = s.
Proof.
  induction s as [| x s IH]; [reflexivity |].
  cbn [count_char Py.remove_char]. destruct (Ascii.eqb x c); [discriminate |].
  intros H. now rewrite IH.
Qed.

Lemma count_char_digits (c : ascii) (s : string) :
  Py.isdigit c = false -> all_chars Py.isdigit s = true -> count_char c s = O.
Proof.
  intros Hc. induction s as [| x s IH]; [reflexivity |].
  cbn [all_chars count_char]. intros H. apply andb_true_iff in H.
  destruct H as [Hx Hs]. rewrite (IH Hs).
  destruct (Ascii.eqb_spec x c) as [-> | _]; [congruence | reflexivity].
Qed.

Lemma all_chars_app (p : ascii -> bool) (a b : string) :
  all_chars p (a ++ b) = all_chars p a && all_chars p b.
Proof.
  induction a as [| x a IH]; [reflexivity |].
  cbn [String.append all_chars]. rewrite IH. now rewrite andb_assoc.
Qed.

Lemma digits_of_pos_digits (fuel : nat) :
  forall n acc,
    all_chars Py.isdigit acc = true ->
    all_chars Py.isdigit (Py.digits_of_pos fuel n acc) = true.
Proof.
  induction fuel as [| f IH]; intros n acc Hacc; cbn [Py.digits_of_pos]; [exact Hacc |].
  pose proof (Z_div_mod n 10 ltac:(lia)) as Hdm.
  destruct (Z.div_eucl n 10) as [q r]. destruct Hdm as [_ Hr].
  assert (Hd : all_chars Py.isdigit (String (Py.digit_char r) acc) = true).
  { cbn [all_chars]. rewrite (isdigit_digit_char r) by (unfold is_digit; lia).
    exact Hacc. }
  destruct (q =? 0); [exact Hd | now apply IH].
Qed.

Lemma zeros_digits (k : nat) :
  all_chars Py.isdigit (String.concat "" (repeat "0" k)) = true.
Proof.
  induction k as [| k IH]; [reflexivity |].
  cbn [repeat String.concat]. destruct (repeat "0" k) as [| z l]; [reflexivity |].
  cbn [String.append all_chars]. exact IH.
Qed.

Lemma zfill_digits (w : nat) (n : Z) : all_chars Py.isdigit (Py.zfill w n) = true.
Proof.
  unfold Py.zfill, Py.str_of_nonneg. rewrite all_chars_app.
  rewrite digits_of_pos_digits by reflexivity. rewrite andb_true_r.
  apply zeros_digits.
Qed.

Lemma take_drop (n : nat) (s : string) : Py.take n s ++ Py.drop n s = s.
Proof.
  revert s. induction n as [| n IH]; intros [| c s]; cbn [Py.take Py.drop String.append];
    try reflexivity.
  now rewrite IH.
Qed.

(** In the digits that [format_fixed] writes there is no comma and at most
    one point. *)
Lemma fixed_digits_count (q : Z) (d : nat) :
  count_char "," (PyFloat.fixed_digits q d) = O
  /\ (count_char "." (PyFloat.fixed_digits q d) <= 1)%nat.
Proof.
  unfold PyFloat.fixed_digits. cbv zeta.
  pose proof (zfill_digits (S d) q) as Hz.
  set (s := Py.zfill (S d) q) in *.
  destruct d as [| d].
  - rewrite (count_char_digits "," s), (count_char_digits "." s)
      by (reflexivity || exact Hz).
    lia.
  - set (n := (String.length s - S d)%nat).
    rewrite <- (take_drop n s), all_chars_app in Hz.
    apply andb_true_iff in Hz. destruct Hz as [H1 H2].
    rewrite !count_char_app. cbn [count_char Ascii.eqb].
    rewrite (count_char_digits "," (Py.take n s)), (count_char_digits "." (Py.take n s))
      by (reflexivity || exact H1).
    rewrite (count_char_digits "," (Py.drop n s)), (count_char_digits "." (Py.drop n s))
      by (reflexivity || exact H2).
    cbn. lia.
Qed.

Lemma format_fixed_count (x : float) (d : nat) :
  count_char "," (PyFloat.format_fixed x d) = O
  /\ (count_char "." (PyFloat.format_fixed x d) <= 1)%nat.
Proof.
  assert (Hsign : forall b : bool,
             count_char "," (if b then "-" else "") = O
             /\ count_char "." (if b then "-" else "") = O)
    by (intros []; split; reflexivity).
  unfold PyFloat.format_fixed.
  destruct (Prim2SF x) as [s | s | | s m e].
  - destruct (fixed_digits_count 0 d) as [H1 H2]. destruct (Hsign s) as [S1 S2].
    rewrite !count_char_app, H1, S1, S2. lia.
  - destruct s; cbn; lia.
  - cbn; lia.
  - cbv zeta.
    match goal with
    | |- context [PyFloat.fixed_digits ?q d] =>
        destruct (fixed_digits_count q d) as [H1 H2]
    end.
    destruct (Hsign s) as [S1 S2].
    rewrite !count_char_app, H1, S1, S2. lia.
Qed.

Lemma string_of_list_app (a b : list ascii) :
  string_of_list_ascii (a ++ b) = string_of_list_ascii a ++ string_of_list_ascii b.
Proof.
  induction a as [| x a IH]; [reflexivity |]. cbn. now rewrite IH.
Qed.

(** Without its commas, what the grouping loop returns is the characters
    it was given, in their order, before what it started from. *)
Lemma group_loop_remove (rev_chars : list ascii) :
  forall i grouped,
    Forall (fun ch => Ascii.eqb ch "," = false) rev_chars ->
    Py.remove_char "," (group_loop rev_chars i grouped)
    = string_of_list_ascii (rev rev_chars) ++ Py.remove_char "," grouped.
Proof.
  induction rev_chars as [| ch rest IH]; intros i grouped H; [reflexivity |].
  apply Forall_cons_iff in H. destruct H as [Hch Hrest].
  cbn [group_loop rev]. cbv zeta. rewrite (IH _ _ Hrest).
  rewrite string_of_list_app, append_assoc. f_equal.
  cbn [Py.remove_char string_of_list_ascii String.append]. rewrite Hch.
  destruct ((0 <? i) && (i mod 3 =? 0)); reflexivity.
Qed.

Lemma count_char_chars (c : ascii) (s : string) :
  count_char c s = O ->
  Forall (fun ch => Ascii.eqb ch c = false) (rev (list_ascii_of_string s)).
Proof.
  intros H. apply Forall_rev.
  induction s as [| x s IH]; [constructor |].
  cbn [count_char] in H. cbn [list_ascii_of_string].
  destruct (Ascii.eqb x c) eqn:E; [discriminate H |].
  constructor; [exact E | now apply IH].
Qed.

Lemma grouped_remove (int_part : string) :
  count_char "," int_part = O ->
  Py.remove_char "," (group_loop (rev (list_ascii_of_string int_part)) 0 "")
  = int_part.
Proof.
  intros H. rewrite group_loop_remove by now apply count_char_chars.
  rewrite rev_involutive, string_of_list_ascii_of_string.
  cbn [Py.remove_char]. clear H.
  induction int_part as [| x s IH]; [reflexivity |]. cbn. now rewrite IH.
Qed.

(** [split] and the characters of the parts. *)
Lemma split_count (sep : ascii) (s : string) :
  List.length (Py.split sep s) = S (count_char sep s)
  /\ Py.join (String sep "") (Py.split sep s) = s.
Proof.
  induction s as [| x s [IH1 IH2]]; [split; reflexivity |].
  cbn [Py.split count_char].
  destruct (Ascii.eqb_spec x sep) as [-> | Hne].
  - split; [cbn [List.length]; rewrite IH1; reflexivity |].
    cbn [Py.join]. destruct (Py.split sep s) as [| p ps] eqn:E; [discriminate IH1 |].
    rewrite IH2. reflexivity.
  - destruct (Py.split sep s) as [| p ps] eqn:E; [discriminate IH1 |].
    split; [exact IH1 |].
    destruct ps as [| p2 ps].
    + cbn [Py.join] in IH2 |- *. now rewrite IH2.
    + change (String x (p ++ String sep "" ++ Py.join (String sep "") (p2 :: ps))
              = String x s).
      f_equal. exact IH2.
Qed.

Lemma _format_absolute_grouping (v : float) (d : Z) (s : string) :
  _format_absolute v d true = Some s ->
  _format_absolute v d false = Some (Py.remove_char "," s).
Proof.
  unfold _format_absolute, Err.bind.
  destruct (_round_to v d) as [rounded |]; [| discriminate].
  cbn [negb].
  destruct (format_fixed_count rounded (Z.to_nat d)) as [Hcomma Hdot].
  destruct (split_count "." (PyFloat.format_fixed rounded (Z.to_nat d))) as [Hlen Hjoin].
  set (fixed := PyFloat.format_fixed rounded (Z.to_nat d)) in *.
  destruct (Py.split "." fixed) as [| int_part [| dec rest]].
  - intros [= <-]. now rewrite remove_char_absent.
  - cbn [Py.join] in Hjoin. subst int_part.
    intros [= <-]. now rewrite grouped_remove.
  - destruct rest as [| ? ?]; [| cbn [List.length] in Hlen; lia].
    cbn [Py.join] in Hjoin.
    rewrite <- Hjoin, !count_char_app in Hcomma.
    intros [= <-]. f_equal. rewrite <- Hjoin at 1. symmetry.
    etransitivity; [apply (remove_char_app "," _ ("." ++ dec)) |].
    rewrite grouped_remove by lia. f_equal.
    apply (remove_char_absent "," ("." ++ dec)).
    rewrite count_char_app. cbn [count_char Ascii.eqb Bool.eqb]. lia.
Qed.

(** X25: when [format_jmd] with grouping returns a text, [format_jmd]
    with the same options and no grouping returns that text with its
    commas removed. *)
Theorem format_jmd_grouping (x : float) (symbol : bool) (d : Z) (s : string) :
  format_jmd x (Some {| show_symbol := symbol; decimals := d; use_grouping := true |})
  = Some s ->
  format_jmd x (Some {| show_symbol := symbol; decimals := d; use_grouping := false |})
  = Some (Py.remove_char "," s).
Proof.
  unfold format_jmd, Err.bind. cbn [show_symbol decimals use_grouping].
  destruct (_format_absolute (PrimFloat.abs x) d true) as [grouped |] eqn:E;
    [| discriminate].
  rewrite (_format_absolute_grouping _ _ _ E).
  intros [= <-]. f_equal. rewrite !remove_char_app.
  destruct (x <? 0)%float, symbol; reflexivity.
Qed.

(** A witness of X25: the amount 1234567.5. *)
Lemma format_jmd_grouping_witness :
  format_jmd 1234567.5%float
             (Some {| show_symbol := true; decimals := 2; use_grouping := false |})
  = Some (Py.remove_char "," "J$1,234,567.50").
Proof.
  apply (format_jmd_grouping 1234567.5%float true 2 "J$1,234,567.50").
  vm_compute. reflexivity.
Defined.

(** *** Parsing *)

Lemma strip_fixed (s : string) :
  Py.strip s = s -> Py.rstrip s = s /\ Py.lstrip s = s.
Proof.
  intros H. split.
  - rewrite <- H at 1. unfold Py.strip.
    rewrite rstrip_lstrip, rstrip_idem. exact H.
  - rewrite <- H at 1. unfold Py.strip. rewrite lstrip_idem. exact H.
Qed.

(** X26: [parse_jmd] gives for a text what it gives for the text without
    the white space around it, [None] for a text of white space only, and
    for a minus sign in front of a stripped text that starts with no minus
    sign the negated number of the text. *)
Theorem parse_jmd_sign_and_space :
  (forall s, parse_jmd (Some (Py.strip s)) = parse_jmd (Some s))
  /\ (forall s, Py.strip s = "" -> parse_jmd (Some s) = None)
  /\ (forall s,
         Py.strip s = s -> s <> "" -> Py.startswith "-" s = false ->
         parse_jmd (Some ("-" ++ s))
         = option_map (fun value => (- value)%float) (parse_jmd (Some s))).
Proof.
  split; [| split].
  - intros s. unfold parse_jmd. now rewrite strip_idem.
  - intros s H. unfold parse_jmd. now rewrite H.
  - intros s Hs Hne Hminus.
    destruct (strip_fixed s Hs) as [Hr Hl].
    assert (Hstrip : Py.strip ("-" ++ s) = String "-" s).
    { unfold Py.strip. cbn [String.append Py.rstrip]. rewrite Hr.
      destruct s as [| c s]; [contradiction | reflexivity]. }
    unfold parse_jmd. rewrite Hstrip, Hs.
    change (Py.startswith "-" (String "-" s)) with true.
    change (Py.drop 1 (String "-" s)) with s.
    rewrite Hminus, Hs.
    destruct s as [| c s]; [contradiction |].
    cbn [Py.truthy negb].
    destruct (Py.startswith "J$" (String c s)).
    + destruct (negb (Py.truthy _)); [reflexivity |].
      destruct (Re.rmatch _ _ _); reflexivity.
    + cbn [Py.truthy negb]. destruct (Re.rmatch _ _ _); reflexivity.
Qed.

End CurrencyFormat.

Section ParishCodes.

Import ParishLookup.

Variable parish : Type.
Variable parishes : list parish.
Variable code : parish -> string.
Variable str_upper : string -> string.

(** The record [p] has the code [c], letter case apart. *)
Definition has_code (c : string) (p : parish) : Prop :=
  str_upper (code p) = str_upper c.

Lemma code_loop_first (c : string) (l : list parish) :
  match code_loop code str_upper (str_upper c) l with
  | Some p =>
      exists before after,
        l = (before ++ p :: after)%list /\ has_code c p
        /\ Forall (fun q => ~ has_code c q) before
  | None => Forall (fun q => ~ has_code c q) l
  end.
Proof.
  induction l as [| q l IH]; cbn [code_loop]; [constructor |].
  destruct (String.eqb_spec (str_upper (code q)) (str_upper c)) as [E | E].
  - exists [], l. repeat split; [exact E | constructor].
  - destruct (code_loop code str_upper (str_upper c) l) as [p |].
    + destruct IH as (before & after & -> & Hp & Hb).
      exists (q :: before), after. repeat split; [exact Hp | now constructor].
    + now constructor.
Qed.

(** X27: [get_parish_by_code] returns the first record of the data that has
    the code, letter case apart, and [None] when no record has it; when
    the codes of the data are distinct, every record is found by its own
    code. *)
Theorem get_parish_by_code_first (c : string) :
  (forall p,
      get_parish_by_code parishes code str_upper c = Some p
      <-> exists before after,
          parishes = (before ++ p :: after)%list /\ has_code c p
          /\ Forall (fun q => ~ has_code c q) before)
  /\ (get_parish_by_code parishes code str_upper c = None
      <-> Forall (fun q => ~ has_code c q) parishes)
  /\ (forall c', str_upper c' = str_upper c ->
                 get_parish_by_code parishes code str_upper c'
                 = get_parish_by_code parishes code str_upper c)
  /\ (forall p,
         NoDup (map (fun q => str_upper (code q)) parishes) ->
         In p parishes ->
         get_parish_by_code parishes code str_upper (code p) = Some p).
Proof.
  assert (Hfirst : forall c0 p,
             (exists before after,
                 parishes = (before ++ p :: after)%list /\ has_code c0 p
                 /\ Forall (fun q => ~ has_code c0 q) before) ->
             get_parish_by_code parishes code str_upper c0 = Some p).
  { intros c0 p (before & after & Hl & Hp & Hb).
    unfold get_parish_by_code. cbv zeta. rewrite Hl. clear Hl.
    induction before as [| q before IH]; cbn [app code_loop].
    - unfold has_code in Hp. rewrite Hp, String.eqb_refl. reflexivity.
    - apply Forall_cons_iff in Hb. destruct Hb as [Hq Hb].
      destruct (String.eqb_spec (str_upper (code q)) (str_upper c0)) as [E | _];
        [contradiction | now apply IH]. }
  pose proof (code_loop_first c parishes) as H.
  fold (get_parish_by_code parishes code str_upper c) in H.
  split; [| split; [| split]].
  - intros p. split; [| apply Hfirst].
    intros E. rewrite E in H. exact H.
  - split.
    + intros E. rewrite E in H. exact H.
    + intros Hall.
      destruct (get_parish_by_code parishes code str_upper c) as [p |]; [| reflexivity].
      destruct H as (before & after & -> & Hp & _).
      rewrite Forall_forall in Hall. exfalso.
      apply (Hall p); [apply in_or_app; right; now left | exact Hp].
  - intros c' E. unfold get_parish_by_code. cbv zeta. now rewrite E.
  - intros p Hnd Hin. apply Hfirst.
    apply in_split in Hin. destruct Hin as (before & after & Hl).
    exists before, after. split; [exact Hl |]. split; [reflexivity |].
    rewrite Hl, map_app in Hnd. cbn [map] in Hnd.
    apply NoDup_remove_2 in Hnd.
    apply Forall_forall. intros q Hq Hc. apply Hnd.
    apply in_or_app. left. unfold has_code in Hc. rewrite <- Hc.
    now apply (in_map (fun q => str_upper (code q))).
Qed.

End ParishCodes.
